(** * Comment Extraction Engine of the Facebook comment crawler

    A shallow embedding of [src/crawler.py] (class [CommentCrawler]), of the
    two helpers of [src/utils.py] it calls and of the post loop of [main.py],
    with the properties of the specification stated over it.
    It also embeds the URL and file-name helpers of [src/utils.py], the
    reader of URL lists of [main.py], [src/json_exporter.py] and the link
    handling of [src/profile_crawler.py]; the properties of that code are
    in the last part.

    Conventions of the embedding.
    - A Python [str] is the list of its code points ([N]); [len] is [length].
    - The browser is an interface ([Browser]): a world state (page, clock,
      random source) and the page-level operations on it.  Navigation,
      waits, page queries, visibility tests, clicks, script evaluation
      and the pause between two steps of a scroll may raise.
    - A duration in seconds (a [float]) is the rational number it denotes.
    - An element handle ([Element]) carries what it answers to the
      read-only calls the crawler makes on it ([text_content],
      [get_attribute], [query_selector], [query_selector_all]); each of
      them returns or raises.  [text_content] returning [None], on which
      the next method call raises, counts as raising.
    - Only exceptions deriving from [Exception] are modelled ([exn]); every
      handler of the source catches at least those.
    - Logging has no effect on any value and is left out.
    - The relative-time patterns, the first-integer pattern and [str.lower]
      depend on the Unicode tables of the Python runtime; they are
      parameters ([PyLib]), and the properties hold for every value of
      them. *)

From Stdlib Require Import String Ascii.
From Stdlib Require Import List NArith ZArith Bool Lia Arith.
From Stdlib Require Import Numbers.DecimalString.
From Stdlib Require Import Numbers.DecimalNat.
From Stdlib Require QArith.
From Equations Require Import Equations.
Import ListNotations.


(** ** Python strings *)

Module PyStr.

Definition char := N.
Definition str := list char.

(** A literal of the source, all of whose characters are ASCII. *)
Definition py (s : string) : str :=
  map N_of_ascii (list_ascii_of_string s).

Fixpoint str_eqb (a b : str) : bool :=
  match a, b with
  | [], [] => true
  | x :: a', y :: b' => N.eqb x y && str_eqb a' b'
  | _, _ => false
  end.

(** [x in [a, b, ...]] on strings. *)
Definition str_in (x : str) (l : list str) : bool := existsb (str_eqb x) l.

(** Truth value of a string: non-empty. *)
Definition truthy (s : str) : bool :=
  match s with [] => false | _ :: _ => true end.

(** [str.isspace] of one character, the set used by [strip] and [split]. *)
Definition isspace (c : char) : bool :=
  (((9 <=? c) && (c <=? 13)) || ((28 <=? c) && (c <=? 32))
   || (c =? 133) || (c =? 160) || (c =? 5760)
   || ((8192 <=? c) && (c <=? 8202))
   || (c =? 8232) || (c =? 8233) || (c =? 8239) || (c =? 8287)
   || (c =? 12288))%N.

Fixpoint dropWhile (p : char -> bool) (s : str) : str :=
  match s with
  | [] => []
  | c :: t => if p c then dropWhile p t else s
  end.

Fixpoint takeWhile (p : char -> bool) (s : str) : str :=
  match s with
  | [] => []
  | c :: t => if p c then c :: takeWhile p t else []
  end.

Definition lstrip (s : str) : str := dropWhile isspace s.
Definition rstrip (s : str) : str := rev (dropWhile isspace (rev s)).

(** [s.strip()] *)
Definition strip (s : str) : str := rstrip (lstrip s).

(** [s.split()]: the maximal runs of non-whitespace characters.  [cur] is
    the run being read, most recent character first. *)
Fixpoint split_from (cur : str) (s : str) : list str :=
  match s with
  | [] => match cur with [] => [] | _ => [rev cur] end
  | c :: t =>
      if isspace c
      then match cur with
           | [] => split_from [] t
           | _ => rev cur :: split_from [] t
           end
      else split_from (c :: cur) t
  end.

Definition split (s : str) : list str := split_from [] s.

(** [sep.join(l)] *)
Fixpoint join (sep : str) (l : list str) : str :=
  match l with
  | [] => []
  | [w] => w
  | w :: ws => w ++ sep ++ join sep ws
  end.

(** [strip_prefix p s]: what follows [p] when [s] starts with [p]. *)
Fixpoint strip_prefix (p s : str) : option str :=
  match p, s with
  | [], _ => Some s
  | _ :: _, [] => None
  | x :: p', y :: s' => if N.eqb x y then strip_prefix p' s' else None
  end.

Definition inspect {A} (a : A) : {b | a = b} := exist _ a eq_refl.

(** [s.replace(old, new)] for a non-empty [old]: every occurrence, left to
    right, not overlapping. *)
Equations? replace_ne (old new s : str) : str by wf (length s) lt :=
  replace_ne old new [] := [];
  replace_ne old new (c :: t) with inspect (strip_prefix old (c :: t)) := {
    | exist _ (Some rest) _ with old := {
        | [] => c :: replace_ne old new t
        | _ :: _ => new ++ replace_ne old new rest };
    | exist _ None _ => c :: replace_ne old new t }.
Proof.
  all: try (simpl; lia).
  clear replace_ne.
  assert (L : forall p s r, strip_prefix p s = Some r ->
                            length s = length p + length r).
  { induction p as [|x p IH]; intros [|y s'] r E; simpl in E; try discriminate.
    - inversion E; reflexivity.
    - inversion E; reflexivity.
    - destruct (N.eqb x y); [|discriminate]. apply IH in E. simpl. lia. }
  match goal with
  | H : _ = Some rest |- _ =>
      change (strip_prefix (c0 :: l) (c :: t) = Some rest) in H;
      apply L in H; simpl in H; simpl; lia
  end.
Qed.

(** [s.replace(old, new)].  For the empty [old] Python puts [new] before
    every character and at the end. *)
Definition replace (s old new : str) : str :=
  match old with
  | [] => flat_map (fun c => new ++ [c]) s ++ new
  | _ :: _ => replace_ne old new s
  end.

(** [s[:n]] for [0 <= n]. *)
Definition slice_to (n : nat) (s : str) : str := firstn n s.

(** [sub in s] on strings. *)
Fixpoint contains (s sub : str) : bool :=
  match strip_prefix sub s with
  | Some _ => true
  | None => match s with [] => false | _ :: t => contains t sub end
  end.

(** [str(n)] for a natural number. *)
Definition str_of_nat (n : nat) : str :=
  py (NilZero.string_of_uint (Nat.to_uint n)).

End PyStr.
Import PyStr.

(** ** The URL patterns of the comment cleaner (crawler.py, lines 444-445)

    [http[s]?://G+] and [www\.G+] with the group
    [G = (?:[a-zA-Z]|[0-9]|[$-_@.&+]|[!*\\(\\),]|(?:%[0-9a-fA-F][0-9a-fA-F]))].
    The patterns use no flag and no Unicode class, so they are modelled on
    code points as they stand.  A matcher returns what follows the match. *)

Module UrlRe.

Definition in_range (lo hi c : char) : bool := ((lo <=? c) && (c <=? hi))%N.
Arguments in_range (lo hi c)%_N.

(** [[a-zA-Z]] *)
Definition alt_letter (c : char) : bool := in_range 97 122 c || in_range 65 90 c.
(** [[0-9]] *)
Definition alt_digit (c : char) : bool := in_range 48 57 c.
(** [[$-_@.&+]]: the range from [$] (36) to [_] (95), then [@], [.], [&], [+]. *)
Definition alt_punct (c : char) : bool :=
  (in_range 36 95 c || (c =? 64) || (c =? 46) || (c =? 38) || (c =? 43))%N.
(** [[!*\\(\\),]]: [!], [*], backslash, [(], [)], [,]. *)
Definition alt_paren (c : char) : bool :=
  ((c =? 33) || (c =? 42) || (c =? 92) || (c =? 40) || (c =? 41) || (c =? 44))%N.
(** [[0-9a-fA-F]] *)
Definition is_hex (c : char) : bool :=
  in_range 48 57 c || in_range 97 102 c || in_range 65 70 c.
(** [(?:%[0-9a-fA-F][0-9a-fA-F])] *)
Definition alt_escape (s : str) : option str :=
  match s with
  | p :: a :: b :: rest =>
      if ((p =? 37)%N && is_hex a && is_hex b)%bool then Some rest else None
  | _ => None
  end.

(** One iteration of the group: the alternatives in their order. *)
Definition group (s : str) : option str :=
  match s with
  | [] => None
  | c :: t =>
      if alt_letter c then Some t
      else if alt_digit c then Some t
      else if alt_punct c then Some t
      else if alt_paren c then Some t
      else alt_escape s
  end.

Lemma group_shorter s rest : group s = Some rest -> length rest < length s.
Proof.
  destruct s as [|c t]; simpl; [discriminate|].
  destruct (alt_letter c); [intros [= <-]; lia|].
  destruct (alt_digit c); [intros [= <-]; lia|].
  destruct (alt_punct c); [intros [= <-]; lia|].
  destruct (alt_paren c); [intros [= <-]; lia|].
  destruct t as [|a [|b r]]; try discriminate.
  destruct (_ && _ && _)%bool; [intros [= <-]; simpl; lia | discriminate].
Qed.

(** [G*], greedy.  Nothing follows the group in either pattern, so the
    first path the matcher finds is the one that repeats the group as long
    as an alternative matches. *)
Equations? group_star (s : str) : str by wf (length s) lt :=
  group_star s with inspect (group s) := {
    | exist _ (Some rest) _ => group_star rest
    | exist _ None _ => s }.
Proof. apply group_shorter; assumption. Qed.

Inductive pattern := Http | Www.

(** [http[s]?://]: the optional [s] is tried first, then skipped. *)
Definition http_head (s : str) : option str :=
  match strip_prefix (py "http") s with
  | None => None
  | Some s1 =>
      match strip_prefix (py "s") s1 with
      | Some s2 =>
          match strip_prefix (py "://") s2 with
          | Some s3 => Some s3
          | None => strip_prefix (py "://") s1
          end
      | None => strip_prefix (py "://") s1
      end
  end.

(** [www\.] *)
Definition www_head (s : str) : option str := strip_prefix (py "www.") s.

Definition head (p : pattern) : str -> option str :=
  match p with Http => http_head | Www => www_head end.

(** A match of the pattern at the start of [s]: [Some rest] when
    [s = m ++ rest] for the match [m]. *)
Definition match_at (p : pattern) (s : str) : option str :=
  match head p s with
  | None => None
  | Some s1 =>
      match group s1 with
      | None => None
      | Some s2 => Some (group_star s2)
      end
  end.

Lemma strip_prefix_length p s r :
  strip_prefix p s = Some r -> length s = length p + length r.
Proof.
  revert s r; induction p as [|x p IH]; intros [|y s'] r E; simpl in E;
    try discriminate.
  - inversion E; reflexivity.
  - inversion E; reflexivity.
  - destruct (N.eqb x y); [|discriminate]. apply IH in E. simpl. lia.
Qed.

Lemma group_star_length s : length (group_star s) <= length s.
Proof.
  funelim (group_star s); [|lia].
  match goal with E : group _ = Some _ |- _ => pose proof (group_shorter _ _ E) end.
  lia.
Qed.

Lemma head_length p s r : head p s = Some r -> length r < length s.
Proof.
  destruct p; simpl.
  - unfold http_head.
    destruct (strip_prefix (py "http") s) as [s1|] eqn:E1; [|discriminate].
    apply strip_prefix_length in E1. simpl in E1.
    destruct (strip_prefix (py "s") s1) as [s2|] eqn:E2.
    + destruct (strip_prefix (py "://") s2) as [s3|] eqn:E3.
      * intros [= <-]. apply strip_prefix_length in E2, E3. simpl in *. lia.
      * intro E. apply strip_prefix_length in E. simpl in E. lia.
    + intro E. apply strip_prefix_length in E. simpl in E. lia.
  - unfold www_head. intro E. apply strip_prefix_length in E. simpl in E. lia.
Qed.

Lemma match_at_shorter p s rest : match_at p s = Some rest -> length rest < length s.
Proof.
  unfold match_at.
  destruct (head p s) as [s1|] eqn:E1; [|discriminate].
  destruct (group s1) as [s2|] eqn:E2; [|discriminate].
  intros [= <-]. apply head_length in E1. apply group_shorter in E2.
  pose proof (group_star_length s2). lia.
Qed.

(** [re.sub(pattern, '', s)]: the matches are found left to right, each
    search resuming where the previous match ended; a character at which
    no match starts is kept. *)
Equations? sub (p : pattern) (s : str) : str by wf (length s) lt :=
  sub p [] := [];
  sub p (c :: t) with inspect (match_at p (c :: t)) := {
    | exist _ (Some rest) _ => sub p rest
    | exist _ None _ => c :: sub p t }.
Proof. apply match_at_shorter in e. exact e. Qed.

(** [re.search(pattern, s) is not None] *)
Fixpoint search (p : pattern) (s : str) : bool :=
  match match_at p s with
  | Some _ => true
  | None => match s with [] => false | _ :: t => search p t end
  end.

End UrlRe.

(** ** Exceptions, element handles, records, library parameters *)

(** The exceptions a call on the browser raises; all derive from [Exception]. *)
Inductive exn := TimeoutError | PlaywrightError | OtherError.

Inductive res (A : Type) := Ok (a : A) | Raise (e : exn).
Arguments Ok {A} a.
Arguments Raise {A} e.

(** What an element handle answers to the read-only calls made on it. *)
#[local] Unset Elimination Schemes.
Inductive Element := mkElement {
  text_content : res str;
  get_attribute : string -> res (option str);
  query_selector : string -> res (option Element);
  query_selector_all : string -> res (list Element) }.
#[local] Set Elimination Schemes.

(** [post_info] of [_extract_post_info]. *)
Record PostInfo := mkPostInfo {
  post_url : str;
  post_author : str;
  post_content : str;
  post_timestamp : str }.

(** [comment_data] of [_extract_single_comment]; [comment_id] is the key
    [_extract_comments] adds. *)
Record CommentData := mkCommentData {
  post : PostInfo;
  comment_author_name : str;
  comment_author_url : str;
  comment_text : str;
  comment_timestamp : str;
  parent_comment_id : str;
  likes_count : Z;
  replies_count : Z;
  crawled_at : str;
  comment_id : option str }.

(** The parts of the Python runtime that depend on its Unicode tables. *)
Record PyLib := mkPyLib {
  (** [re.search(r'\d+\s*(m|h|d|j|w|hari|jam|menit|minggu|bulan|tahun|detik|s)',
      text, re.IGNORECASE) or re.search(r'just now|ago|yang lalu|baru saja',
      text, re.IGNORECASE)] as a truth value (lines 478-479) *)
  search_time : str -> bool;
  (** [re.search(r'(\d+)', text)] followed by [int(match.group(1))] *)
  search_int : str -> option Z;
  (** [str.lower] *)
  lower : str -> str }.

(** The double quote, for the selectors that contain one. *)
Definition dq : string := String (ascii_of_nat 34) EmptyString.
Definition q (s : string) : string := (dq ++ s ++ dq)%string.

(** [x or ""] for an optional string. *)
Definition or_empty (x : option str) : str :=
  match x with Some v => v | None => [] end.

Module Sel.
Open Scope string_scope.
Definition a_role_link := "a[role=" ++ q "link" ++ "]".
Definition a_href_user := "a[href*=" ++ q "/user/" ++ "]".
Definition a_href_profile := "a[href*=" ++ q "/profile" ++ "]".
Definition a_aria_label := "a[aria-label]".
Definition span_auto_a := "span[dir=" ++ q "auto" ++ "] a".
Definition h4_a := "h4 a".
Definition strong_a := "strong a".
Definition dir_auto_texts :=
  "div[dir=" ++ q "auto" ++ "], span[dir=" ++ q "auto" ++ "]".
Definition reaction := "[aria-label*=" ++ q "eaction" ++ "]".
Definition reply_count := "text=/\d+ repl|\d+ balas/i".
End Sel.

(** ** Field Extractor: [_extract_single_comment] (lines 370-530) *)

Module Label.
Definition Like := py "Like".
Definition Reply := py "Reply".
Definition Suka := py "Suka".
Definition Balas := py "Balas".
Definition Komentar := py "Komentar".
Definition Comment := py "Comment".
(** the middle dot, U+00B7 *)
Definition middot : str := [183%N].
Definition Just_now := py "Just now".
Definition yang_lalu := py "yang lalu".
Definition Unknown_User := py "Unknown User".
End Label.

Section FieldExtractor.

Variable lib : PyLib.

(** Lines 382-390. *)
Definition author_selectors : list string :=
  [Sel.a_role_link; Sel.a_href_user; Sel.a_href_profile; Sel.a_aria_label;
   Sel.span_auto_a; Sel.h4_a; Sel.strong_a].

(** Lines 394-400, the body of the inner [try] for one selector, from
    the values [author] of [(author_name, author_url)].  The flag tells
    that the loop is left.  A read that raises leaves the loop going
    (line 401); the name assigned before [get_attribute] raises stays
    assigned. *)
Definition author_from_selector (element : Element) (selector : string)
  (author : str * str) : bool * (str * str) :=
  match query_selector element selector with
  | Raise _ => (false, author)
  | Ok None => (false, author)
  | Ok (Some author_link) =>
      match text_content author_link with
      | Raise _ => (false, author)
      | Ok raw =>
          let text := strip raw in
          if truthy text && (0 <? length text)
          then
            match get_attribute author_link "href" with
            | Raise _ => (false, (text, snd author))
            | Ok href => (true, (text, or_empty href))
            end
          else (false, author)
      end
  end.

(** Lines 392-402: the first selector whose first match has text wins. *)
Fixpoint author_from_selectors (element : Element) (selectors : list string)
  (author : str * str) : str * str :=
  match selectors with
  | [] => author
  | selector :: rest =>
      let (stop, author) := author_from_selector element selector author in
      if stop then author else author_from_selectors element rest author
  end.

(** Lines 408-414: the first link with a text longer than 2 that is no
    action label.  A read that raises ends the scan (line 415). *)
Fixpoint author_from_links (all_links : list Element) (author : str * str)
  : str * str :=
  match all_links with
  | [] => author
  | link :: rest =>
      match text_content link with
      | Raise _ => author
      | Ok raw =>
          let text := strip raw in
          if truthy text && (2 <? length text)
             && negb (str_in text [Label.Like; Label.Reply; Label.Suka; Label.Balas])
          then
            match get_attribute link "href" with
            | Raise _ => (text, snd author)
            | Ok href => (text, or_empty href)
            end
          else author_from_links rest author
      end
  end.

(** Lines 377-416. *)
Definition extract_author (element : Element) : str * str :=
  let author := author_from_selectors element author_selectors ([], []) in
  if negb (truthy (fst author))
  then
    match query_selector_all element "a" with
    | Raise _ => author
    | Ok all_links => author_from_links all_links author
    end
  else author.

(** Lines 423-430, strategy 1: the longest text of more than 5 characters
    that is neither the author name nor an action label. *)
Fixpoint longest_text (author_name : str) (text_elements : list Element)
  (comment_text : str) : res str :=
  match text_elements with
  | [] => Ok comment_text
  | text_elem :: rest =>
      match text_content text_elem with
      | Raise e => Raise e
      | Ok raw =>
          let text := strip raw in
          longest_text author_name rest
            (if truthy text && (5 <? length text)
                && negb (str_in text [author_name; Label.Like; Label.Reply;
                                      Label.Suka; Label.Balas; Label.Komentar;
                                      Label.Comment])
                && (length comment_text <? length text)
             then text else comment_text)
      end
  end.

(** Lines 434-438, strategy 2: the whole text with the noise removed. *)
Definition text_without_noise (author_name : str) (element : Element)
  : res str :=
  match text_content element with
  | Raise e => Raise e
  | Ok raw =>
      let full_text := strip raw in
      Ok (strip (fold_left (fun full_text noise => replace full_text noise [])
                   [author_name; Label.Like; Label.Reply; Label.Suka;
                    Label.Balas; Label.middot; Label.Just_now; Label.yang_lalu]
                   full_text))
  end.

(** Lines 419-438. *)
Definition extract_body (author_name : str) (element : Element) : res str :=
  match query_selector_all element Sel.dir_auto_texts with
  | Raise e => Raise e
  | Ok text_elements =>
      match longest_text author_name text_elements [] with
      | Raise e => Raise e
      | Ok comment_text =>
          if negb (truthy comment_text)
          then text_without_noise author_name element
          else Ok comment_text
      end
  end.

(** Lines 442-447. *)
Definition remove_urls (comment_text : str) : str :=
  if truthy comment_text
  then
    let comment_text := UrlRe.sub UrlRe.Http comment_text in
    let comment_text := UrlRe.sub UrlRe.Www comment_text in
    strip (join (py " ") (split comment_text))
  else comment_text.

(** Lines 466-481. *)
Fixpoint find_timestamp (author_name comment_text : str)
  (time_elements : list Element) : res str :=
  match time_elements with
  | [] => Ok []
  | time_elem :: rest =>
      match text_content time_elem with
      | Raise e => Raise e
      | Ok raw =>
          let text := strip raw in
          if 50 <? length text then find_timestamp author_name comment_text rest
          else if str_eqb text author_name || str_eqb text comment_text
          then find_timestamp author_name comment_text rest
          else if search_time lib text then Ok text
          else find_timestamp author_name comment_text rest
      end
  end.

(** Lines 464-481. *)
Definition extract_timestamp (author_name comment_text : str)
  (element : Element) : res str :=
  match query_selector_all element "a, span" with
  | Raise e => Raise e
  | Ok time_elements => find_timestamp author_name comment_text time_elements
  end.

(** Lines 489-495: the first number in an [aria-label]; a read that
    raises leaves the count at 0 (line 496). *)
Fixpoint likes_of (like_elements : list Element) : Z :=
  match like_elements with
  | [] => 0%Z
  | like_elem :: rest =>
      match get_attribute like_elem "aria-label" with
      | Raise _ => 0%Z
      | Ok aria_label =>
          match search_int lib (or_empty aria_label) with
          | Some n => n
          | None => likes_of rest
          end
      end
  end.

(** Lines 486-497. *)
Definition extract_likes (element : Element) : Z :=
  match query_selector_all element Sel.reaction with
  | Raise _ => 0%Z
  | Ok like_elements => likes_of like_elements
  end.

(** Lines 503-508. *)
Fixpoint replies_of (reply_buttons : list Element) : Z :=
  match reply_buttons with
  | [] => 0%Z
  | reply_btn :: rest =>
      match text_content reply_btn with
      | Raise _ => 0%Z
      | Ok text =>
          match search_int lib text with
          | Some n => n
          | None => replies_of rest
          end
      end
  end.

(** Lines 500-510. *)
Definition extract_replies (element : Element) : Z :=
  match query_selector_all element Sel.reply_count with
  | Raise _ => 0%Z
  | Ok reply_buttons => replies_of reply_buttons
  end.

(** Lines 370-530.  [now] is [datetime.now().isoformat()] at the time of
    the call; [None] is the absence of a record.  A read that raises
    outside the inner handlers reaches the handler of line 528. *)
Definition _extract_single_comment (element : Element) (post_info : PostInfo)
  (now : str) : option CommentData :=
  let (author_name, author_url) := extract_author element in
  match extract_body author_name element with
  | Raise _ => None
  | Ok comment_text =>
      let comment_text := remove_urls comment_text in
      if negb (truthy author_name) && negb (truthy comment_text) then None
      else
        let author_name :=
          if negb (truthy author_name) then Label.Unknown_User
          else author_name in
        if length comment_text <? 2 then None
        else
          match extract_timestamp author_name comment_text element with
          | Raise _ => None
          | Ok timestamp =>
              Some {| post := post_info;
                      comment_author_name := author_name;
                      comment_author_url := author_url;
                      comment_text := comment_text;
                      comment_timestamp := timestamp;
                      parent_comment_id := [];
                      likes_count := extract_likes element;
                      replies_count := extract_replies element;
                      crawled_at := now;
                      comment_id := None |}
          end
  end.

End FieldExtractor.

(** ** Durations

    A duration in seconds, a Python [float], is read as the rational
    number it denotes. *)

Module Seconds.

Definition t := QArith_base.Q.

Definition of_int (n : Z) : t := QArith_base.inject_Z n.

(** [a / b] *)
Definition div (a b : t) : t := QArith_base.Qdiv a b.

(** Truth value of a duration: not zero. *)
Definition truthy (a : t) : bool := negb (QArith_base.Qeq_bool a (of_int 0)).

(** [0 <= a] *)
Definition nonneg (a : t) : bool := QArith_base.Qle_bool (of_int 0) a.

End Seconds.

(** ** The browser, the configuration *)

(** The page, the clock and the random source behind one world state.
    Queries observe the state; navigation, waits, clicks, scripts, sleeping
    and drawing a random number change it. *)
Record Browser := mkBrowser {
  World : Type;
  (** [page.url] *)
  url : World -> str;
  (** [datetime.now().isoformat()]: the time read, and the world after
      the read, in which the clock may show another time *)
  now_isoformat : World -> str * World;
  (** [page.goto(url, timeout=t)] *)
  goto : str -> Z -> World -> res unit * World;
  (** [page.query_selector(selector)] *)
  page_query_selector : string -> World -> res (option Element);
  (** [page.query_selector_all(selector)] *)
  page_query_selector_all : string -> World -> res (list Element);
  (** [page.wait_for_selector(selector, timeout=t)] *)
  wait_for_selector : string -> Z -> World -> res (option Element) * World;
  (** [button.is_visible()] *)
  is_visible : Element -> World -> res bool;
  (** [button.click()] *)
  click : Element -> World -> res unit * World;
  (** [button.scroll_into_view_if_needed()] *)
  scroll_into_view_if_needed : Element -> World -> res unit * World;
  (** [page.evaluate(script, {amount, selector})] with the scroll script
      of [human_like_scroll] *)
  evaluate_scroll : Z -> option string -> World -> res unit * World;
  (** [time.sleep(d)] for a duration [d] drawn by [random.uniform]
      between two positive bounds *)
  sleep : World -> World;
  (** [time.sleep(d + random.uniform(0, 0.1))] (utils.py, line 114);
      [time.sleep] raises [ValueError] on a negative duration *)
  sleep_pause : Seconds.t -> World -> res unit * World;
  (** [random.randint(a, b)] *)
  randint : Z -> Z -> World -> Z * World }.

(** The settings of [Config] the crawler reads. *)
Record Config := mkConfig {
  SCROLL_PAUSE_TIME : Z;
  MAX_SCROLL_ATTEMPTS : Z;
  REQUEST_TIMEOUT : Z }.

(** The values [config.py] gives them when the environment sets none. *)
Definition default_config : Config :=
  {| SCROLL_PAUSE_TIME := 2; MAX_SCROLL_ATTEMPTS := 10;
     REQUEST_TIMEOUT := 30000 |}.

(** Why the scroll loop of [_expand_all_comments] ended. *)
Inductive stop_reason := TargetReached | NoMoreComments | BudgetExhausted.

Module PageSel.
Open Scope string_scope.
(** [_extract_post_info] *)
Definition post_author_selectors :=
  ["h2 a"; "h3 a"; "[data-ad-preview=" ++ q "message" ++ "] a";
   "a[role=" ++ q "link" ++ "]"].
Definition content_selectors :=
  ["[data-ad-preview=" ++ q "message" ++ "]";
   "div[data-ad-comet-preview=" ++ q "message" ++ "]";
   "[dir=" ++ q "auto" ++ "]"].
(** [_open_comment_section] *)
Definition comment_button_selectors :=
  ["text=/View.*comment/i"; "text=/Lihat.*komentar/i";
   "[aria-label*=" ++ q "comment" ++ "]";
   "[aria-label*=" ++ q "Comment" ++ "]";
   "[aria-label*=" ++ q "Komentar" ++ "]";
   "div[role=" ++ q "button" ++ "]:has-text(" ++ q "Comment" ++ ")";
   "div[role=" ++ q "button" ++ "]:has-text(" ++ q "Komentar" ++ ")"].
(** [_click_view_more_buttons] *)
Definition view_more_selectors :=
  ["text=/View more comments/i"; "text=/Lihat komentar lainnya/i";
   "text=/View previous comments/i"; "text=/Lihat komentar sebelumnya/i";
   "[aria-label*=" ++ q "more comment" ++ "]";
   "[aria-label*=" ++ q "komentar lainnya" ++ "]"].
(** [_expand_all_replies] *)
Definition reply_selectors :=
  ["text=/View.*repl/i"; "text=/Lihat.*balas/i"; "text=/\d+ repl/i";
   "text=/\d+ balas/i"; "[aria-label*=" ++ q "repl" ++ "]";
   "[aria-label*=" ++ q "balas" ++ "]"].
(** [_expand_see_more_in_comments] *)
Definition see_more_selectors :=
  ["text=/See more/i"; "text=/Lihat selengkapnya/i";
   "div[role=" ++ q "button" ++ "]:has-text(" ++ q "See more" ++ ")";
   "div[role=" ++ q "button" ++ "]:has-text(" ++ q "Lihat selengkapnya" ++ ")";
   "[aria-label*=" ++ q "See more" ++ "]";
   "[aria-label*=" ++ q "Lihat selengkapnya" ++ "]"].
(** [_count_visible_comments] *)
Definition role_article := "[role=" ++ q "article" ++ "]".
Definition count_selectors :=
  [role_article; "div[aria-label*=" ++ q "Comment" ++ "]";
   "div[aria-label*=" ++ q "Komentar" ++ "]"].
(** [_extract_comments] *)
Definition comment_selectors :=
  ["div[aria-label*=" ++ q "Comment by" ++ "]";
   "div[aria-label*=" ++ q "Komentar oleh" ++ "]";
   "div[role=" ++ q "article" ++ "] div[dir=" ++ q "auto" ++ "]";
   role_article].
End PageSel.

(** ** The crawler over a browser *)

Section Crawler.

Variable B : Browser.
Variable cfg : Config.
Variable lib : PyLib.

Abbreviation W := (World B).

(** A computation on the world that returns or raises. *)
Definition M (A : Type) : Type := W -> res A * W.

Definition ret {A} (a : A) : M A := fun w => (Ok a, w).

Definition bind {A C} (m : M A) (k : A -> M C) : M C :=
  fun w =>
    match m w with
    | (Ok a, w1) => k a w1
    | (Raise e, w1) => (Raise e, w1)
    end.

(** [try: m  except Exception: h] *)
Definition try_except {A} (m : M A) (h : M A) : M A :=
  fun w =>
    match m w with
    | (Ok a, w1) => (Ok a, w1)
    | (Raise _, w1) => h w1
    end.

(** A query: the world is left as it is. *)
Definition observe {A} (f : W -> res A) : M A := fun w => (f w, w).

Notation "x <- m ;; k" := (bind m (fun x => k))
  (at level 61, m at next level, right associativity).
Notation "m ;;; k" := (bind m (fun _ => k))
  (at level 61, right associativity).

(** *** utils.py *)

(** [random_delay(a, b)]: draws the duration and sleeps.  Every call of
    the crawler passes two positive bounds, so that the duration is
    positive and the settings are not read. *)
Definition random_delay : M unit := fun w => (Ok tt, sleep B w).

(** Line 50: [pause_time or Config.SCROLL_PAUSE_TIME / 2]. *)
Definition scroll_pause (pause_time : option Seconds.t) : Seconds.t :=
  match pause_time with
  | Some pause_time =>
      if Seconds.truthy pause_time then pause_time
      else Seconds.div (Seconds.of_int (SCROLL_PAUSE_TIME cfg)) (Seconds.of_int 2)
  | None => Seconds.div (Seconds.of_int (SCROLL_PAUSE_TIME cfg)) (Seconds.of_int 2)
  end.

(** The body of [for i in range(increments)] (lines 54-114), [n] times;
    [duration] is [pause / increments]. *)
Fixpoint scroll_increments (n : nat) (amount : Z) (duration : Seconds.t)
  (selector : option string) : M unit :=
  match n with
  | O => ret tt
  | S n' =>
      evaluate_scroll B amount selector ;;;
      sleep_pause B duration ;;;
      scroll_increments n' amount duration selector
  end.

(** [human_like_scroll(page, scroll_amount, pause_time, selector)]
    (lines 47-114). *)
Definition human_like_scroll (scroll_amount : Z)
  (pause_time : option Seconds.t) (selector : option string) : M unit :=
  fun w =>
    let pause := scroll_pause pause_time in
    let (increments, w1) := randint B 3 5 w in
    scroll_increments (Z.to_nat increments) (scroll_amount / increments)
      (Seconds.div pause (Seconds.of_int increments)) selector w1.

(** *** _extract_post_info (lines 58-109) *)

Definition set_post_author (post_info : PostInfo) (v : str) : PostInfo :=
  {| post_url := post_url post_info; post_author := v;
     post_content := post_content post_info;
     post_timestamp := post_timestamp post_info |}.

Definition set_post_content (post_info : PostInfo) (v : str) : PostInfo :=
  {| post_url := post_url post_info; post_author := post_author post_info;
     post_content := v; post_timestamp := post_timestamp post_info |}.

(** Lines 76-81.  The dictionary is updated in place: what was written
    before a query raises stays written. *)
Fixpoint post_author_loop (selectors : list string) (post_info : PostInfo)
  (w : W) : res unit * PostInfo :=
  match selectors with
  | [] => (Ok tt, post_info)
  | selector :: rest =>
      match page_query_selector B selector w with
      | Raise e => (Raise e, post_info)
      | Ok None => post_author_loop rest post_info w
      | Ok (Some element) =>
          match text_content element with
          | Raise e => (Raise e, post_info)
          | Ok raw =>
              let post_info := set_post_author post_info (strip raw) in
              if truthy (post_author post_info) then (Ok tt, post_info)
              else post_author_loop rest post_info w
          end
      end
  end.

(** Lines 92-96: the inner loop, left at the first assignment. *)
Fixpoint post_content_elements (elements : list Element) (post_info : PostInfo)
  : res unit * PostInfo :=
  match elements with
  | [] => (Ok tt, post_info)
  | element :: rest =>
      match text_content element with
      | Raise e => (Raise e, post_info)
      | Ok raw =>
          let text := strip raw in
          if truthy text && (length (post_content post_info) <? length text)
          then (Ok tt, set_post_content post_info text)
          else post_content_elements rest post_info
      end
  end.

(** Lines 90-98. *)
Fixpoint post_content_loop (selectors : list string) (post_info : PostInfo)
  (w : W) : res unit * PostInfo :=
  match selectors with
  | [] => (Ok tt, post_info)
  | selector :: rest =>
      match page_query_selector_all B selector w with
      | Raise e => (Raise e, post_info)
      | Ok elements =>
          match post_content_elements elements post_info with
          | (Raise e, post_info) => (Raise e, post_info)
          | (Ok _, post_info) =>
              if truthy (post_content post_info) then (Ok tt, post_info)
              else post_content_loop rest post_info w
          end
      end
  end.

(** Lines 60-98: the post information before the length limit. *)
Definition post_info_unlimited (w : W) : res unit * PostInfo :=
  let post_info :=
    {| post_url := url B w; post_author := []; post_content := [];
       post_timestamp := [] |} in
  match post_author_loop PageSel.post_author_selectors post_info w with
  | (Raise e, post_info) => (Raise e, post_info)
  | (Ok _, post_info) =>
      post_content_loop PageSel.content_selectors post_info w
  end.

(** Lines 100-102. *)
Definition limit_content_length (post_info : PostInfo) : PostInfo :=
  if 500 <? length (post_content post_info)
  then set_post_content post_info
         (slice_to 500 (post_content post_info) ++ py "...")
  else post_info.

Definition _extract_post_info (w : W) : PostInfo :=
  match post_info_unlimited w with
  | (Ok _, post_info) => limit_content_length post_info
  | (Raise _, post_info) => post_info
  end.

(** *** _open_comment_section (lines 111-142) *)

(** Lines 127-132: the body of the inner [try]; [true] when the button was
    clicked. *)
Definition try_comment_button (selector : string) : M bool :=
  button <- wait_for_selector B selector 3000 ;;
  match button with
  | None => ret false
  | Some button =>
      visible <- observe (is_visible B button) ;;
      if visible
      then click B button ;;; random_delay ;;; ret true
      else ret false
  end.

Fixpoint open_comment_buttons (selectors : list string) : M bool :=
  match selectors with
  | [] => ret false
  | selector :: rest =>
      clicked <- try_except (try_comment_button selector) (ret false) ;;
      if clicked then ret true else open_comment_buttons rest
  end.

Definition _open_comment_section : M bool :=
  try_except (open_comment_buttons PageSel.comment_button_selectors)
    (ret false).

(** *** _click_view_more_buttons (lines 188-220) *)

(** Lines 206-213. *)
Fixpoint click_visible (buttons : list Element) (clicked : bool) : M bool :=
  match buttons with
  | [] => ret clicked
  | button :: rest =>
      clicked <-
        try_except
          (visible <- observe (is_visible B button) ;;
           if visible
           then click B button ;;; random_delay ;;; ret true
           else ret clicked)
          (ret clicked) ;;
      click_visible rest clicked
  end.

(** Lines 203-215. *)
Fixpoint click_view_more (selectors : list string) (clicked : bool) : M bool :=
  match selectors with
  | [] => ret clicked
  | selector :: rest =>
      clicked <-
        try_except
          (buttons <- observe (page_query_selector_all B selector) ;;
           click_visible buttons clicked)
          (ret clicked) ;;
      click_view_more rest clicked
  end.

Definition _click_view_more_buttons : M bool :=
  try_except (click_view_more PageSel.view_more_selectors false) (ret false).

(** *** _expand_all_replies (lines 222-253) *)

Fixpoint click_replies (buttons : list Element) : M unit :=
  match buttons with
  | [] => ret tt
  | button :: rest =>
      try_except
        (visible <- observe (is_visible B button) ;;
         if visible
         then scroll_into_view_if_needed B button ;;; random_delay ;;;
              click B button ;;; random_delay
         else ret tt)
        (ret tt) ;;;
      click_replies rest
  end.

Fixpoint expand_replies (selectors : list string) : M unit :=
  match selectors with
  | [] => ret tt
  | selector :: rest =>
      try_except
        (buttons <- observe (page_query_selector_all B selector) ;;
         click_replies (firstn 50 buttons))
        (ret tt) ;;;
      expand_replies rest
  end.

Definition _expand_all_replies : M unit :=
  try_except (expand_replies PageSel.reply_selectors) (ret tt).

(** *** _expand_see_more_in_comments (lines 255-299) *)

(** Line 283. *)
Definition is_see_more (button_text : str) : bool :=
  existsb (fun text => contains (lower lib button_text) text)
    [py "see more"; py "lihat selengkapnya"].

Fixpoint click_see_more (buttons : list Element) : M unit :=
  match buttons with
  | [] => ret tt
  | button :: rest =>
      try_except
        (visible <- observe (is_visible B button) ;;
         if visible
         then
           raw <- observe (fun _ => text_content button) ;;
           let button_text := strip raw in
           if is_see_more button_text
           then scroll_into_view_if_needed B button ;;; random_delay ;;;
                click B button ;;; random_delay
           else ret tt
         else ret tt)
        (ret tt) ;;;
      click_see_more rest
  end.

Fixpoint expand_see_more (selectors : list string) : M unit :=
  match selectors with
  | [] => ret tt
  | selector :: rest =>
      try_except
        (buttons <- observe (page_query_selector_all B selector) ;;
         click_see_more buttons)
        (ret tt) ;;;
      expand_see_more rest
  end.

Definition _expand_see_more_in_comments : M unit :=
  try_except (expand_see_more PageSel.see_more_selectors) (ret tt).

(** *** _count_visible_comments (lines 301-318) *)

Fixpoint count_first_nonempty (selectors : list string) (w : W) : res Z :=
  match selectors with
  | [] => Ok 0%Z
  | selector :: rest =>
      match page_query_selector_all B selector w with
      | Raise e => Raise e
      | Ok [] => count_first_nonempty rest w
      | Ok comments => Ok (Z.of_nat (length comments))
      end
  end.

Definition _count_visible_comments (w : W) : Z :=
  match count_first_nonempty PageSel.count_selectors w with
  | Ok n => n
  | Raise _ => 0%Z
  end.

(** *** _expand_all_comments (lines 144-186) *)

(** Truth value of [max_comments: Optional[int]]. *)
Definition max_comments_set (max_comments : option Z) : bool :=
  match max_comments with
  | None => false
  | Some n => negb (n =? 0)%Z
  end.

(** Lines 168-172: the test of the first [break], in the world [w]. *)
Definition target_reached (max_comments : option Z) (w : W) : bool :=
  if max_comments_set max_comments
  then
    let current_count := _count_visible_comments w in
    match max_comments with
    | Some n => (n <=? current_count)%Z
    | None => false
    end
  else false.

(** Lines 159-163: one scroll; the result is [more_comments_clicked]. *)
Definition scroll_once : M bool :=
  human_like_scroll 600 None None ;;; random_delay ;;;
  _click_view_more_buttons.

(** Lines 157-177: the [while] loop from the counter value
    [scroll_attempts]; it returns the final counter and why it stopped. *)
Equations? scroll_loop (max_comments : option Z) (scroll_attempts : Z) (w : W)
  : res (Z * stop_reason) * W
  by wf (Z.to_nat (MAX_SCROLL_ATTEMPTS cfg - scroll_attempts)) lt :=
  scroll_loop max_comments scroll_attempts w
    with Z_lt_dec scroll_attempts (MAX_SCROLL_ATTEMPTS cfg) := {
    | right _ => (Ok (scroll_attempts, BudgetExhausted), w)
    | left _ =>
        match scroll_once w with
        | (Raise e, w1) => (Raise e, w1)
        | (Ok more_comments_clicked, w1) =>
            let scroll_attempts' := (scroll_attempts + 1)%Z in
            if target_reached max_comments w1
            then (Ok (scroll_attempts', TargetReached), w1)
            else if negb more_comments_clicked && (5 <? scroll_attempts')%Z
            then (Ok (scroll_attempts', NoMoreComments), w1)
            else scroll_loop max_comments scroll_attempts' w1
        end }.
Proof. lia. Qed.

Definition _expand_all_comments (max_comments : option Z) : M unit :=
  try_except
    (_open_comment_section ;;; random_delay ;;;
     scroll_loop max_comments 0 ;;;
     _expand_all_replies ;;;
     _expand_see_more_in_comments)
    (ret tt).

(** *** _extract_comments (lines 320-368) *)

(** Lines 341-347, Comment Discovery: the matches of the first selector
    that has any. *)
Fixpoint find_comment_elements (selectors : list string) (w : W)
  : res (list Element) :=
  match selectors with
  | [] => Ok []
  | selector :: rest =>
      match page_query_selector_all B selector w with
      | Raise e => Raise e
      | Ok [] => find_comment_elements rest w
      | Ok elements => Ok elements
      end
  end.

Definition set_comment_id (c : CommentData) (id : str) : CommentData :=
  {| post := post c;
     comment_author_name := comment_author_name c;
     comment_author_url := comment_author_url c;
     comment_text := comment_text c;
     comment_timestamp := comment_timestamp c;
     parent_comment_id := parent_comment_id c;
     likes_count := likes_count c;
     replies_count := replies_count c;
     crawled_at := crawled_at c;
     comment_id := Some id |}.

(** Lines 355-363: [idx] is the position among the candidate elements.
    The clock is read when the record of an element is built (line 522),
    once for each record; an element that gives no record leaves the
    world as it is. *)
Fixpoint extract_each (idx : nat) (elements : list Element)
  (post_info : PostInfo) (w : W) : list CommentData * W :=
  match elements with
  | [] => ([], w)
  | element :: rest =>
      let (now, w1) := now_isoformat B w in
      match _extract_single_comment lib element post_info now with
      | Some comment_data =>
          let (comments, w2) := extract_each (S idx) rest post_info w1 in
          (set_comment_id comment_data (py "comment_" ++ str_of_nat idx)
           :: comments, w2)
      | None => extract_each (S idx) rest post_info w
      end
  end.

Definition _extract_comments (post_info : PostInfo) : M (list CommentData) :=
  try_except
    (random_delay ;;;
     comment_elements <-
       observe (find_comment_elements PageSel.comment_selectors) ;;
     fun w =>
       let (comments, w1) := extract_each 0 comment_elements post_info w in
       (Ok comments, w1))
    (ret []).

(** *** crawl_post_comments (lines 20-56) *)

Definition crawl_post_comments (post_url : str) (max_comments : option Z)
  : M (list CommentData) :=
  try_except
    (goto B post_url (REQUEST_TIMEOUT cfg) ;;;
     random_delay ;;;
     post_info <- (fun w => (Ok (_extract_post_info w), w)) ;;
     _expand_all_comments max_comments ;;;
     comments <- _extract_comments post_info ;;
     ret comments)
    (ret []).

(** *** main.py, lines 209-232: the loop over the posts

    [buffer] is the [comments_data] of an exporter, which [add_comments]
    extends.  The first result lists what each post gave, in order; a post
    whose crawl raises is passed over by the handler of line 230. *)
Fixpoint crawl_posts (post_urls : list str) (max_comments : option Z)
  (buffer : list CommentData) (w : W)
  : (list (list CommentData) * list CommentData) * W :=
  match post_urls with
  | [] => (([], buffer), w)
  | post_url :: rest =>
      match crawl_post_comments post_url max_comments w with
      | (Ok comments, w1) =>
          let buffer :=
            match comments with [] => buffer | _ => buffer ++ comments end in
          let '((per_post, buffer), w2) :=
            crawl_posts rest max_comments buffer w1 in
          ((comments :: per_post, buffer), w2)
      | (Raise _, w1) =>
          let '((per_post, buffer), w2) :=
            crawl_posts rest max_comments buffer w1 in
          (([] :: per_post, buffer), w2)
      end
  end.

End Crawler.

(** ** Documents: a small DOM with the CSS subset the crawler uses

    Concrete pages and candidate nodes are written as trees; the element
    handles and a browser showing a fixed document are computed from them. *)

Module Dom.

#[local] Unset Elimination Schemes.
Inductive node :=
| Text (s : str)
| Elem (tag : string) (attrs : list (string * str)) (children : list node).
#[local] Set Elimination Schemes.

(** [textContent] *)
Fixpoint text_of (d : node) : str :=
  match d with
  | Text s => s
  | Elem _ _ children => flat_map text_of children
  end.

Definition attr (attrs : list (string * str)) (name : string) : option str :=
  match find (fun kv => String.eqb (fst kv) name) attrs with
  | Some kv => Some (snd kv)
  | None => None
  end.

Definition attrs_of (d : node) : list (string * str) :=
  match d with Text _ => [] | Elem _ a _ => a end.

Fixpoint height (d : node) : nat :=
  match d with
  | Text _ => 0
  | Elem _ _ children => S (fold_right (fun c h => Nat.max (height c) h) 0 children)
  end.

(** [[name]], [[name="v"]], [[name*="v"]] *)
Inductive attr_test :=
| Has (name : string)
| Equals (name : string) (v : str)
| Contains (name : string) (v : str).

(** A compound selector: an optional tag and attribute tests. *)
Record compound := mkCompound {
  ctag : option string;
  ctests : list attr_test }.

(** Compounds joined by the descendant combinator, outermost first; a
    selector is a comma-separated list of those. *)
Definition complex := list compound.
Definition selector := list complex.

Definition test_ok (attrs : list (string * str)) (t : attr_test) : bool :=
  match t with
  | Has n => match attr attrs n with Some _ => true | None => false end
  | Equals n v => match attr attrs n with Some x => str_eqb x v | None => false end
  | Contains n v => match attr attrs n with Some x => contains x v | None => false end
  end.

Definition matches_compound (c : compound) (tag : string)
  (attrs : list (string * str)) : bool :=
  match ctag c with Some t => String.eqb t tag | None => true end
  && forallb (test_ok attrs) (ctests c).

(** [outer]: the compounds still to be found among the ancestors, the
    innermost first; [ancestors]: nearest first. *)
Fixpoint matches_ancestors (outer : list compound)
  (ancestors : list (string * list (string * str))) : bool :=
  match outer with
  | [] => true
  | c :: outer' =>
      (fix go (anc : list (string * list (string * str))) : bool :=
         match anc with
         | [] => false
         | (t, a) :: anc' =>
             (matches_compound c t a && matches_ancestors outer' anc')
             || go anc'
         end) ancestors
  end.

Definition matches_complex (cx : complex) (tag : string)
  (attrs : list (string * str))
  (ancestors : list (string * list (string * str))) : bool :=
  match rev cx with
  | [] => false
  | c :: outer => matches_compound c tag attrs && matches_ancestors outer ancestors
  end.

(** The elements below [d] in document order, each with its ancestors. *)
Fixpoint descendants (ancestors : list (string * list (string * str)))
  (d : node) : list (node * list (string * list (string * str))) :=
  match d with
  | Text _ => []
  | Elem t a children =>
      flat_map
        (fun c =>
           match c with
           | Text _ => []
           | Elem _ _ _ => (c, (t, a) :: ancestors) :: descendants ((t, a) :: ancestors) c
           end)
        children
  end.

(** [querySelectorAll] below [d]: the selector is matched against the
    whole document, so [d] and its own ancestors count as ancestors. *)
Definition query_all (sel : selector)
  (ancestors : list (string * list (string * str))) (d : node)
  : list (node * list (string * list (string * str))) :=
  filter
    (fun na =>
       match fst na with
       | Text _ => false
       | Elem t a _ => existsb (fun cx => matches_complex cx t a (snd na)) sel
       end)
    (descendants ancestors d).

(** *** Reading a selector *)

Inductive mode :=
| InTag
| InName (name : list ascii)
| AfterStar (name : list ascii)
| BeforeValue (name : list ascii) (sub : bool)
| InValue (name : list ascii) (sub : bool) (v : list ascii)
| BeforeClose (t : attr_test).

Record pstate := mkPstate {
  done : list complex;
  cx : list compound;
  tag : list ascii;
  tests : list attr_test }.

Definition text_of_rev (l : list ascii) : string :=
  string_of_list_ascii (rev l).

Definition close_compound (st : pstate) : pstate :=
  match tag st, tests st with
  | [], [] => st
  | t, ts =>
      {| done := done st;
         cx := {| ctag := match t with [] => None | _ => Some (text_of_rev t) end;
                  ctests := rev ts |} :: cx st;
         tag := []; tests := [] |}
  end.

Definition close_complex (st : pstate) : pstate :=
  let st := close_compound st in
  match cx st with
  | [] => st
  | l => {| done := rev l :: done st; cx := []; tag := []; tests := [] |}
  end.

Definition add_test (st : pstate) (t : attr_test) : pstate :=
  {| done := done st; cx := cx st; tag := tag st; tests := t :: tests st |}.

Definition is_ident_char (c : ascii) : bool :=
  let n := nat_of_ascii c in
  ((97 <=? n) && (n <=? 122)) || ((65 <=? n) && (n <=? 90))
  || ((48 <=? n) && (n <=? 57)) || (n =? 45).

Fixpoint parse_from (m : mode) (st : pstate) (s : list ascii) : option selector :=
  match s with
  | [] =>
      match m with
      | InTag => Some (rev (done (close_complex st)))
      | _ => None
      end
  | c :: rest =>
      let n := nat_of_ascii c in
      match m with
      | InTag =>
          if n =? 32 then parse_from InTag (close_compound st) rest
          else if n =? 44 then parse_from InTag (close_complex st) rest
          else if n =? 91 then parse_from (InName []) st rest
          else if is_ident_char c
          then match tests st with
               | [] => parse_from InTag
                         {| done := done st; cx := cx st; tag := c :: tag st;
                            tests := [] |} rest
               | _ => None
               end
          else None
      | InName name =>
          if n =? 93 then parse_from InTag (add_test st (Has (text_of_rev name))) rest
          else if n =? 61 then parse_from (BeforeValue name false) st rest
          else if n =? 42 then parse_from (AfterStar name) st rest
          else if is_ident_char c then parse_from (InName (c :: name)) st rest
          else None
      | AfterStar name =>
          if n =? 61 then parse_from (BeforeValue name true) st rest else None
      | BeforeValue name sub =>
          if n =? 34 then parse_from (InValue name sub []) st rest else None
      | InValue name sub v =>
          if n =? 34
          then
            let value := map N_of_ascii (rev v) in
            parse_from
              (BeforeClose (if sub then Contains (text_of_rev name) value
                            else Equals (text_of_rev name) value)) st rest
          else parse_from (InValue name sub (c :: v)) st rest
      | BeforeClose t =>
          if n =? 93 then parse_from InTag (add_test st t) rest else None
      end
  end.

(** [None] for what is no selector of the subset (the [text=] and
    [:has-text] engines of the browser driver). *)
Definition parse (s : string) : option selector :=
  parse_from InTag {| done := []; cx := []; tag := []; tests := [] |}
    (list_ascii_of_string s).

Definition select (s : string)
  (ancestors : list (string * list (string * str))) (d : node)
  : list (node * list (string * list (string * str))) :=
  match parse s with
  | Some sel => query_all sel ancestors d
  | None => []
  end.

(** The handle of [d]; [fuel] bounds the depth of the handles reachable
    from it, and the height of [d] is enough. *)
Fixpoint handle (fuel : nat) (ancestors : list (string * list (string * str)))
  (d : node) : Element :=
  match fuel with
  | O =>
      mkElement (Ok (text_of d)) (fun name => Ok (attr (attrs_of d) name))
        (fun _ => Ok None) (fun _ => Ok [])
  | S fuel' =>
      mkElement (Ok (text_of d)) (fun name => Ok (attr (attrs_of d) name))
        (fun s => Ok (hd_error (map (fun na => handle fuel' (snd na) (fst na))
                                  (select s ancestors d))))
        (fun s => Ok (map (fun na => handle fuel' (snd na) (fst na))
                        (select s ancestors d)))
  end.

(** The handle of a node with no document around it. *)
Definition element (d : node) : Element := handle (height d) [] d.

(** A browser that shows the document [doc] and never changes: nothing
    to click, no control of the text engines, nothing to scroll.  [nav] is
    what navigating to the page gives. *)
Definition page_elements (doc : node) (s : string) : list Element :=
  map (fun na => handle (height doc) (snd na) (fst na))
    (select s [] (Elem "html" [] [doc])).

Definition static_browser (nav : res unit) (doc : node) : Browser :=
  {| World := unit;
     url := fun _ => py "https://www.facebook.com/post/1";
     now_isoformat := fun w => (py "2024-01-01T00:00:00", w);
     goto := fun _ _ w => (nav, w);
     page_query_selector := fun s _ => Ok (hd_error (page_elements doc s));
     page_query_selector_all := fun s _ => Ok (page_elements doc s);
     wait_for_selector := fun _ _ w => (Raise TimeoutError, w);
     is_visible := fun _ _ => Ok true;
     click := fun _ w => (Ok tt, w);
     scroll_into_view_if_needed := fun _ w => (Ok tt, w);
     evaluate_scroll := fun _ _ w => (Ok tt, w);
     sleep := fun w => w;
     sleep_pause :=
       fun d w =>
         if Seconds.nonneg d then (Ok tt, w) else (Raise OtherError, w);
     randint := fun a _ w => (a, w) |}.

End Dom.

(** ** The library parameters on ASCII text

    On text made of ASCII characters the patterns of lines 478-479 and
    492 and [str.lower] need no Unicode table. *)

Module AsciiLib.

Definition is_digit (c : char) : bool := UrlRe.in_range 48 57 c.

Definition lower_char (c : char) : char :=
  if UrlRe.in_range 65 90 c then (c + 32)%N else c.

(** [p] at the start of [s], letters compared without case. *)
Fixpoint starts_with_nocase (p s : str) : bool :=
  match p, s with
  | [], _ => true
  | _ :: _, [] => false
  | x :: p', y :: s' => N.eqb x (lower_char y) && starts_with_nocase p' s'
  end.

Definition units : list str :=
  map py ["m"; "h"; "d"; "j"; "w"; "hari"; "jam"; "menit"; "minggu"; "bulan";
          "tahun"; "detik"; "s"]%string.

Definition phrases : list str :=
  map py ["just now"; "ago"; "yang lalu"; "baru saja"]%string.

(** [\d+\s*(m|h|...)] at the start of [s] *)
Definition relative_time_at (s : str) : bool :=
  match s with
  | c :: t =>
      is_digit c
      && existsb
           (fun u => starts_with_nocase u (dropWhile isspace (dropWhile is_digit t)))
           units
  | [] => false
  end.

Fixpoint time_like (s : str) : bool :=
  relative_time_at s
  || existsb (fun p => starts_with_nocase p s) phrases
  || match s with [] => false | _ :: t => time_like t end.

Definition digit_value (c : char) : Z := Z.of_N (c - 48).

Definition int_of_digits (ds : str) : Z :=
  fold_left (fun acc c => (10 * acc + digit_value c)%Z) ds 0%Z.

Fixpoint first_int (s : str) : option Z :=
  match s with
  | [] => None
  | c :: t =>
      if is_digit c then Some (int_of_digits (takeWhile is_digit s))
      else first_int t
  end.

Definition lib : PyLib :=
  {| search_time := time_like;
     search_int := first_int;
     lower := map lower_char |}.

End AsciiLib.

(** ** A feed that shows two more comments after every scroll

    The world is the scroll offset in pixels and the number of random
    draws made.  [human_like_scroll] moves the page by 600 pixels whatever
    the number of increments drawn (3, 4 or 5), and the feed shows two
    comments for every 600 pixels scrolled.  It has no button. *)

Module Feed.

Definition comment : Element :=
  mkElement (Ok (py "a comment")) (fun _ => Ok None) (fun _ => Ok None)
    (fun _ => Ok []).

Definition visible (offset : Z) : list Element :=
  repeat comment (Z.to_nat (2 * (offset / 600))).

Definition browser : Browser :=
  {| World := Z * Z;
     url := fun _ => py "https://www.facebook.com/post/1";
     now_isoformat := fun w => (py "2024-01-01T00:00:00", w);
     goto := fun _ _ w => (Ok tt, (0, snd w)%Z);
     page_query_selector := fun _ _ => Ok None;
     page_query_selector_all :=
       fun s w =>
         if String.eqb s PageSel.role_article then Ok (visible (fst w))
         else Ok [];
     wait_for_selector := fun _ _ w => (Raise TimeoutError, w);
     is_visible := fun _ _ => Ok true;
     click := fun _ w => (Ok tt, w);
     scroll_into_view_if_needed := fun _ w => (Ok tt, w);
     evaluate_scroll := fun amount _ w => (Ok tt, (fst w + amount, snd w)%Z);
     sleep := fun w => w;
     sleep_pause :=
       fun d w =>
         if Seconds.nonneg d then (Ok tt, w) else (Raise OtherError, w);
     randint := fun a b w => ((a + snd w mod (b - a + 1))%Z, (fst w, snd w + 1)%Z) |}.

(** The page just loaded. *)
Definition start : World browser := (0%Z, 0%Z).

End Feed.

(** ** Pages and candidate nodes of the scenarios *)

Module Scenario.
Import Dom.
Open Scope string_scope.

Definition post0 : PostInfo :=
  mkPostInfo (py "https://www.facebook.com/post/1") (py "Page") (py "Hello")
    [].

Definition link (attrs : list (string * str)) (name : string) : node :=
  Elem "a" attrs [Text (py name)].

Definition body (text : string) : node :=
  Elem "div" [("dir", py "auto")] [Text (py text)].

Definition article (children : list node) : node :=
  Elem "div" [("role", py "article")] children.

Definition labelled (children : list node) : node :=
  Elem "div" [("aria-label", py "Comment by a user")] children.

(** Scenario C: a body with a URL in it. *)
Definition url_comment : node :=
  article [link [("role", py "link"); ("href", py "/alice")] "Alice";
           body "Check this out http://example.com/x?y=1 thanks"].

(** Scenario A: three comments, the second without any link. *)
Definition three_comments : node :=
  Elem "div" []
    [labelled [link [("role", py "link"); ("href", py "/alice")] "Alice";
               body "What a view"];
     labelled [body "Nice post!!"];
     labelled [link [("role", py "link"); ("href", py "/bob")] "Bob";
               body "Thanks for sharing"]].

(** Scenario B: a node whose only text is an action label. *)
Definition like_only : node := article [Elem "span" [] [Text (py "Like")]].

(** A comment with a long text that reads like a time, then a time. *)
Definition timed_comment : node :=
  article [link [("role", py "link"); ("href", py "/alice")] "Alice";
           body "See you all there";
           Elem "span" [] [Text (py "5 minutes ago I wrote this, and it is much too long")];
           Elem "a" [] [Text (py "2h")]].

(** An aria-labelled author link and a nested author-styled link, both
    with a profile URL, in the two document orders. *)
Definition alice : node :=
  link [("aria-label", py "Alice"); ("href", py "/profile.php?id=1")] "Alice".
Definition bob : node :=
  Elem "span" [("dir", py "auto")]
    [link [("href", py "/profile.php?id=2")] "Bob"].
Definition nested_first : node := article [bob; alice; body "Some comment text"].
Definition aria_first : node := article [alice; bob; body "Some comment text"].

(** An aria-labelled link around a picture, with no text, before the
    nested link. *)
Definition avatar : node :=
  Elem "a" [("aria-label", py "Alice"); ("href", py "/alice")]
    [Elem "img" [("src", py "/alice.jpg")] []].
Definition avatar_first : node :=
  article [avatar; Elem "span" [("dir", py "auto")] [link [("href", py "/bob")] "Bob"];
           body "Some comment text"].

(** The same two links with URLs no earlier strategy looks for. *)
Definition alice_plain : node :=
  link [("aria-label", py "Alice"); ("href", py "/alice")] "Alice".
Definition bob_plain : node :=
  Elem "span" [("dir", py "auto")] [link [("href", py "/bob")] "Bob"].
Definition plain_nested_first : node :=
  article [bob_plain; alice_plain; body "Some comment text"].
Definition plain_aria_first : node :=
  article [alice_plain; bob_plain; body "Some comment text"].

(** A post whose message selector has two matches, the longer one last. *)
Definition two_messages : node :=
  Elem "div" []
    [Elem "div" [("data-ad-preview", py "message")] [Text (py "Hi")];
     Elem "div" [("data-ad-preview", py "message")] [Text (py "Hello world")]].

(** A post whose message is [n] times the letter [a]. *)
Definition long_post (n : nat) : node :=
  Elem "div" [("data-ad-preview", py "message")] [Text (repeat 97%N n)].


End Scenario.

(** * Vocabulary of the properties *)

Import UrlRe.

(** [w] occurs in [s]. *)
Definition infix (w s : str) : Prop := exists a b, s = a ++ w ++ b.

(** A character one of the single-character alternatives of the group
    accepts. *)
Definition url_char (c : char) : bool :=
  alt_letter c || alt_digit c || alt_punct c || alt_paren c.

(** The literal beginnings of a match. *)
Definition lits (p : pattern) : list str :=
  match p with
  | Http => [py "http://"; py "https://"]
  | Www => [py "www."]
  end.

(** A match starts at the beginning of [s]. *)
Definition starts (p : pattern) (s : str) : Prop :=
  exists l c t, In l (lits p) /\ url_char c = true /\ s = l ++ c :: t.

(** No two whitespace characters in a row. *)
Fixpoint single_spaced (s : str) : bool :=
  match s with
  | c1 :: t =>
      match t with
      | c2 :: _ => negb (isspace c1 && isspace c2) && single_spaced t
      | [] => true
      end
  | [] => true
  end.

(** The text of an element as the crawler reads it, [text_content]
    stripped; the empty string when the read raises. *)
Definition stripped_text (e : Element) : str :=
  match text_content e with
  | Ok raw => strip raw
  | Raise _ => []
  end.

(** The reads of [e] as they are, but for the query [selector], which
    raises. *)
Definition with_failing_query (selector : string) (e : Element) : Element :=
  mkElement (text_content e) (get_attribute e) (query_selector e)
    (fun s =>
       if String.eqb s selector then Raise PlaywrightError
       else query_selector_all e s).

(** The candidate node of scenario C when its query for the time
    candidates raises. *)
Definition stale_comment : Element :=
  with_failing_query "a, span" (Dom.element Scenario.url_comment).



(** A link with the text [text] whose attributes cannot be read. *)
Definition detached_link (text : string) : Element :=
  mkElement (Ok (py text)) (fun _ => Raise PlaywrightError)
    (fun _ => Ok None) (fun _ => Ok []).

(** A candidate node whose aria-labelled link [Alice] has attributes that
    cannot be read; [nested] is what [span[dir="auto"] a] finds, and the
    other strategies find nothing. *)
Definition detached_author (nested : option Element) : Element :=
  mkElement (Ok (py "Alice a comment")) (fun _ => Ok None)
    (fun selector =>
       if String.eqb selector Sel.a_aria_label
       then Ok (Some (detached_link "Alice"))
       else if String.eqb selector Sel.span_auto_a then Ok nested
       else Ok None)
    (fun _ => Ok []).

(** A link with the text [text] and the URL [href]. *)
Definition link_to (text href : string) : Element :=
  mkElement (Ok (py text))
    (fun name => if String.eqb name "href" then Ok (Some (py href)) else Ok None)
    (fun _ => Ok None) (fun _ => Ok []).

(** What the specification says of the post content: the longest
    non-empty text among the candidates. *)
Definition longest_nonempty_text (texts : list str) : str :=
  fold_left
    (fun best text =>
       if truthy text && (length best <? length text) then text else best)
    texts [].

(** ** Reading the scroll loop against the scrolls *)

Section ScrollTrace.

Variable B : Browser.
Variable max_comments : option Z.
Variable cfg : Config.

(** The world after [k] scrolls from [w], when none of them raised. *)
Fixpoint world_after (k : nat) (w : World B) : option (World B) :=
  match k with
  | O => Some w
  | S k' =>
      match world_after k' w with
      | Some wk =>
          match scroll_once B cfg wk with
          | (Ok _, w') => Some w'
          | (Raise _, _) => None
          end
      | None => None
      end
  end.

(** [more_comments_clicked] of scroll number [k], counting from 1. *)
Definition clicked_at (k : nat) (w : World B) : option bool :=
  match k with
  | O => None
  | S k' =>
      match world_after k' w with
      | Some wk =>
          match scroll_once B cfg wk with
          | (Ok more, _) => Some more
          | (Raise _, _) => None
          end
      | None => None
      end
  end.

(** One of the two [break] tests holds after scroll number [k]. *)
Definition stops_at (k : nat) (w : World B) : bool :=
  match world_after k w, clicked_at k w with
  | Some wk, Some more =>
      target_reached B max_comments wk || (negb more && (5 <? Z.of_nat k)%Z)
  | _, _ => false
  end.

(** What the loop returned, read against the scrolls from [w]. *)
Definition stopped_first (w : World B)
  (n : Z) (reason : stop_reason) (w' : World B) : Prop :=
  (0 <= n <= Z.max 0 (MAX_SCROLL_ATTEMPTS cfg))%Z
  /\ world_after (Z.to_nat n) w = Some w'
  /\ (forall k, 0 < k < Z.to_nat n -> stops_at k w = false)
  /\ match reason with
     | TargetReached => (0 < n)%Z /\ target_reached B max_comments w' = true
     | NoMoreComments =>
         (5 < n)%Z /\ target_reached B max_comments w' = false
         /\ clicked_at (Z.to_nat n) w = Some false
     | BudgetExhausted =>
         n = Z.max 0 (MAX_SCROLL_ATTEMPTS cfg)
         /\ stops_at (Z.to_nat n) w = false
     end.

End ScrollTrace.

(** ** More of Python's [str]

    The methods that utils.py, the exporters and the profile crawler call
    besides those of the crawler. *)

Module PyText.

(** [s.startswith(p)] *)
Definition startswith (s p : str) : bool :=
  match strip_prefix p s with Some _ => true | None => false end.

(** [s.rstrip(chars)] *)
Definition rstrip_chars (chars s : str) : str :=
  rev (dropWhile (fun c => existsb (N.eqb c) chars) (rev s)).

(** What is before and what is after the first occurrence of [sep] in
    [s]; [None] when there is none. *)
Fixpoint find (sep s : str) : option (str * str) :=
  match strip_prefix sep s with
  | Some rest => Some ([], rest)
  | None =>
      match s with
      | [] => None
      | c :: t =>
          match find sep t with
          | Some (before, rest) => Some (c :: before, rest)
          | None => None
          end
      end
  end.

Lemma find_shorter sep s before rest :
  find sep s = Some (before, rest) ->
  length s = length before + length sep + length rest.
Proof.
  assert (L : forall p s r, strip_prefix p s = Some r ->
                            length s = length p + length r).
  { induction p as [|x p IH]; intros [|y s'] r E; simpl in E; try discriminate.
    - inversion E; reflexivity.
    - inversion E; reflexivity.
    - destruct (N.eqb x y); [|discriminate]. apply IH in E. simpl. lia. }
  revert before; induction s as [|c t IH]; intros before; simpl.
  - destruct (strip_prefix sep []) eqn:E; [|discriminate].
    intros [= <- <-]. apply L in E. simpl in *. lia.
  - destruct (strip_prefix sep (c :: t)) eqn:E.
    + intros [= <- <-]. apply L in E. simpl in *. lia.
    + destruct (find sep t) as [[b r]|]; [|discriminate].
      intros [= <- <-]. specialize (IH b eq_refl). simpl. lia.
Qed.

(** [s.split(sep)] for a non-empty [sep]: the parts between the
    occurrences of [sep], found from left to right.  (Python refuses the
    empty separator; no call of the source passes one.) *)
Equations? split_by (sep s : str) : list str by wf (length s) lt :=
  split_by sep s with inspect (find sep s) := {
    | exist _ (Some (before, rest)) _ with sep := {
        | [] => [s]
        | _ :: _ => before :: split_by sep rest };
    | exist _ None _ => [s] }.
Proof.
  match goal with
  | H : find _ _ = Some _ |- _ => apply find_shorter in H; simpl in H; lia
  end.
Qed.

(** [l[-1]] and [l[0]] of a list of parts, which is never empty. *)
Definition last_part (l : list str) : str := last l [].
Definition first_part (l : list str) : str := hd [] l.

End PyText.
Import PyText.

(** ** utils.py: URLs and file names *)

Section Utils.

Variable lib : PyLib.

(** Lines 157-160. *)
Definition validate_url (url : str) : bool :=
  existsb (fun domain => contains (lower lib url) domain)
    [py "facebook.com"; py "fb.com"; py "m.facebook.com"; py "web.facebook.com"].

End Utils.

(** Lines 163-184.  No call in the [try] raises on a string; the handler
    of line 182 is never entered. *)
Definition extract_username_from_url (url : str) : option str :=
  let url := rstrip_chars (py "/") url in
  if contains url (py "profile.php?id=")
  then Some (first_part (split_by (py "&")
                           (last_part (split_by (py "profile.php?id=") url))))
  else
    let parts := split_by (py "facebook.com/") url in
    if 1 <? length parts
    then
      let username :=
        first_part (split_by (py "?")
                      (first_part (split_by (py "/") (last_part parts)))) in
      Some username
    else None.

(** Line 194.  The second character is the double quote, the fifth the
    backslash. *)
Definition invalid_chars : list str :=
  [py "<"; py ">"; py ":"; [34%N]; py "/"; [92%N]; py "|"; py "?"; py "*"].

(** Lines 192-197. *)
Definition sanitize_filename (filename : str) : str :=
  fold_left (fun filename char => replace filename char (py "_"))
    invalid_chars filename.

(** ** main.py: the list of URLs (lines 98-107)

    [file] is what iterating over the opened file gives, each line with
    its line end, or the exception that opening or reading raises. *)
Definition read_urls_from_file (file : res (list str)) : list str :=
  match file with
  | Ok lines =>
      map strip
        (filter (fun line => truthy (strip line)
                             && negb (startswith line (py "#"))) lines)
  | Raise _ => []
  end.

(** ** profile_crawler.py *)

Module ProfileCrawler.

(** Lines 164-202.  No call in the [try] raises on a string. *)
Definition invalid_patterns : list str :=
  map py ["/about"; "/friends"; "/photos"; "/videos/?"; "/groups"; "/events";
          "photo.php?fbid"; "/reels?"; "/watch"]%string.

Definition valid_patterns : list str :=
  map py ["/posts/"; "/story.php?"; "/permalink.php?"; "/videos/"; "/reel/";
          "/photo.php?"]%string.

Definition _is_valid_post_url (url : str) : bool :=
  if existsb (fun pattern => contains url pattern) invalid_patterns then false
  else if negb (contains url (py "facebook.com")) && negb (startswith url (py "/"))
  then false
  else existsb (fun pattern => contains url pattern) valid_patterns.

(** Lines 139-156, the body of the loop over the links: the URL added to
    [post_urls] for a link whose [get_attribute('href')] gave [href], if
    any. *)
Definition post_url_of_link (href : res (option str)) : option str :=
  match href with
  | Ok (Some href) =>
      if truthy href && _is_valid_post_url href
      then
        let href :=
          if startswith href (py "/")
          then py "https://www.facebook.com" ++ href
          else href in
        Some (first_part (split_by (py "?") href))
      else None
  | Ok None => None
  | Raise _ => None
  end.

(** Lines 219-223: the profile URL that [get_posts_from_username] asks
    [get_posts_from_profile] for.  The format string writes [None] as the
    text [None]. *)
Definition profile_url (username : str) : str :=
  let username :=
    if startswith username (py "http")
    then match extract_username_from_url username with
         | Some username => username
         | None => py "None"
         end
    else username in
  py "https://www.facebook.com/" ++ username.

End ProfileCrawler.

(** ** json_exporter.py *)

(** A value of a comment dictionary: a string or an integer. *)
Inductive value := VStr (s : str) | VInt (n : Z).

(** A dictionary with string keys, in the order of insertion. *)
Definition dict := list (string * value).

Definition value_eqb (a b : value) : bool :=
  match a, b with
  | VStr x, VStr y => str_eqb x y
  | VInt x, VInt y => Z.eqb x y
  | _, _ => false
  end.

(** [key in d] and [d.get(key, default)] *)
Fixpoint get (d : dict) (key : string) : option value :=
  match d with
  | [] => None
  | (k, v) :: rest => if String.eqb k key then Some v else get rest key
  end.

(** The dictionary of a record: lines 513-523 of crawler.py, and the key
    that line 359 adds. *)
Definition comment_dict (c : CommentData) : dict :=
  [("post_url", VStr (post_url (post c)));
   ("post_author", VStr (post_author (post c)));
   ("post_content", VStr (post_content (post c)));
   ("post_timestamp", VStr (post_timestamp (post c)));
   ("comment_author_name", VStr (comment_author_name c));
   ("comment_author_url", VStr (comment_author_url c));
   ("comment_text", VStr (comment_text c));
   ("comment_timestamp", VStr (comment_timestamp c));
   ("parent_comment_id", VStr (parent_comment_id c));
   ("likes_count", VInt (likes_count c));
   ("replies_count", VInt (replies_count c));
   ("crawled_at", VStr (crawled_at c))]%string
  ++ match comment_id c with
     | Some id => [("comment_id"%string, VStr id)]
     | None => []
     end.

(** What [json.dump] is given (lines 83-90 and 127-134). *)
Record ExportData := mkExportData {
  metadata : dict;
  comments : list dict }.

(** The clock and the export directory behind one state. *)
Record FileSystem := mkFileSystem {
  Disk : Type;
  (** [get_timestamp_string()] of utils.py *)
  get_timestamp_string : Disk -> str;
  (** [datetime.now().isoformat()] *)
  isoformat_now : Disk -> str;
  (** [json_dir.mkdir(parents=True, exist_ok=True)] for
      [json_dir = Config.EXPORTS_DIR / "json"] *)
  mkdir_json : Disk -> res unit * Disk;
  (** [str(json_dir / filename)] *)
  json_path : str -> str;
  (** [open(json_dir / filename, 'w', encoding='utf-8')] and
      [json.dump(export_data, f, ...)], indented when [pretty] *)
  dump_json : str -> ExportData -> bool -> Disk -> res unit * Disk }.

Module JSONExporter.

Record t := mk {
  export_mode : str;
  pretty : bool;
  comments_data : list dict }.

(** Lines 16-28; [default_mode] is [Config.EXPORT_MODE].  The output
    directory is kept and never read; it is left out. *)
Definition init (default_mode export_mode : str) (pretty : bool) : t :=
  {| export_mode := if truthy export_mode then export_mode else default_mode;
     pretty := pretty;
     comments_data := [] |}.

(** Lines 30-33. *)
Definition add_comments (self : t) (new_comments : list dict) : t :=
  {| export_mode := export_mode self;
     pretty := pretty self;
     comments_data := comments_data self ++ new_comments |}.

(** Lines 170-173. *)
Definition clear_buffer (self : t) : t :=
  {| export_mode := export_mode self;
     pretty := pretty self;
     comments_data := [] |}.

(** Lines 149-168.  On a value that is no string the membership test
    raises and the handler gives [unknown]. *)
Definition _extract_post_id (post_url : value) : str :=
  match post_url with
  | VInt _ => py "unknown"
  | VStr post_url =>
      let post_id :=
        if contains post_url (py "/posts/")
        then first_part (split_by (py "?")
               (first_part (split_by (py "/")
                  (last_part (split_by (py "/posts/") post_url)))))
        else if contains post_url (py "/reel/")
        then first_part (split_by (py "?")
               (first_part (split_by (py "/")
                  (last_part (split_by (py "/reel/") post_url)))))
        else if contains post_url (py "story_fbid=")
        then first_part (split_by (py "&")
               (last_part (split_by (py "story_fbid=") post_url)))
        else if contains post_url (py "fbid=")
        then first_part (split_by (py "&")
               (last_part (split_by (py "fbid=") post_url)))
        else first_part (split_by (py "?")
               (last_part (split_by (py "/")
                  (rstrip_chars (py "/") post_url)))) in
      slice_to 50 post_id
  end.

(** Lines 78-79. *)
Definition clean_comment (comment : dict) : dict :=
  filter
    (fun kv =>
       negb (existsb (String.eqb (fst kv))
               ["post_content"; "comment_id"; "parent_comment_id"]%string))
    comment.

(** Lines 110-112: [posts_comments[post_url].append(comment)], the list
    made first for a new key. *)
Fixpoint append_to (posts_comments : list (value * list dict))
  (post_url : value) (comment : dict) : list (value * list dict) :=
  match posts_comments with
  | [] => [(post_url, [comment])]
  | (k, l) :: rest =>
      if value_eqb k post_url then (k, l ++ [comment]) :: rest
      else (k, l) :: append_to rest post_url comment
  end.

(** Line 109. *)
Definition post_url_of (comment : dict) : value :=
  match get comment "post_url" with
  | Some post_url => post_url
  | None => VStr (py "unknown")
  end.

(** Lines 107-112. *)
Definition posts_comments (comments_data : list dict)
  : list (value * list dict) :=
  fold_left (fun acc comment => append_to acc (post_url_of comment) comment)
    comments_data [].

(** [s.add(v)] on a set kept as a list without repetition. *)
Definition set_add (s : list value) (v : value) : list value :=
  if existsb (value_eqb v) s then s else s ++ [v].

Record Stats := mkStats {
  total_comments : Z;
  unique_posts : Z;
  unique_authors : Z }.

(** Lines 184-192: the values of the key [key] of the comments that have
    it, as a set. *)
Definition unique_values (key : string) (comments_data : list dict)
  : list value :=
  fold_left
    (fun s comment =>
       match get comment key with
       | Some v => set_add s v
       | None => s
       end)
    comments_data [].

(** Lines 175-198. *)
Definition get_stats (self : t) : Stats :=
  match comments_data self with
  | [] => {| total_comments := 0; unique_posts := 0; unique_authors := 0 |}
  | _ :: _ =>
      {| total_comments := Z.of_nat (length (comments_data self));
         unique_posts :=
           Z.of_nat (length (unique_values "post_url" (comments_data self)));
         unique_authors :=
           Z.of_nat (length (unique_values "comment_author_name"
                               (comments_data self))) |}
  end.

(** The name of the file of a post, line 119. *)
Definition post_filename (post_id timestamp : str) : str :=
  py "comments_" ++ sanitize_filename post_id ++ py "_" ++ timestamp
  ++ py ".json".

Section Writing.

Variable F : FileSystem.

(** Lines 61-100.  [username] is [None], or a string. *)
Definition _export_single_file (self : t) (username : option str)
  (d : Disk F) : res str * Disk F :=
  let timestamp := get_timestamp_string F d in
  let filename :=
    if truthy (or_empty username)
    then py "comments_" ++ sanitize_filename (or_empty username) ++ py "_"
         ++ timestamp ++ py ".json"
    else py "comments_" ++ timestamp ++ py ".json" in
  match mkdir_json F d with
  | (Raise e, d1) => (Raise e, d1)
  | (Ok _, d1) =>
      let clean_comments := map clean_comment (comments_data self) in
      let export_data :=
        {| metadata :=
             [("total_comments"%string, VInt (Z.of_nat (length clean_comments)));
              ("exported_at"%string, VStr (isoformat_now F d1));
              ("username"%string,
               VStr (if truthy (or_empty username) then or_empty username
                     else py "unknown"))];
           comments := clean_comments |} in
      match dump_json F filename export_data (pretty self) d1 with
      | (Raise e, d2) => (Raise e, d2)
      | (Ok _, d2) => (Ok (json_path F filename), d2)
      end
  end.

(** Lines 114-144: the loop over the posts. *)
Fixpoint export_posts (self : t) (groups : list (value * list dict))
  (exported_files : list str) (d : Disk F) : res (list str) * Disk F :=
  match groups with
  | [] => (Ok exported_files, d)
  | (post_url, post_comments) :: rest =>
      let post_id := _extract_post_id post_url in
      let timestamp := get_timestamp_string F d in
      let filename := post_filename post_id timestamp in
      match mkdir_json F d with
      | (Raise e, d1) => (Raise e, d1)
      | (Ok _, d1) =>
          let export_data :=
            {| metadata :=
                 [("post_url"%string, post_url);
                  ("total_comments"%string,
                   VInt (Z.of_nat (length post_comments)));
                  ("exported_at"%string, VStr (isoformat_now F d1))];
               comments := post_comments |} in
          match dump_json F filename export_data (pretty self) d1 with
          | (Raise e, d2) => (Raise e, d2)
          | (Ok _, d2) =>
              export_posts self rest (exported_files ++ [json_path F filename]) d2
          end
      end
  end.

(** Lines 102-147. *)
Definition _export_per_post (self : t) (d : Disk F) : res (list str) * Disk F :=
  export_posts self (posts_comments (comments_data self)) [] d.

(** Lines 35-59.  The parameter [post_id] is never read; it is left
    out. *)
Definition export (self : t) (username : option str) (d : Disk F)
  : res (list str) * Disk F :=
  match comments_data self with
  | [] => (Ok [], d)
  | _ :: _ =>
      if str_eqb (export_mode self) (py "single")
      then
        match _export_single_file self username d with
        | (Ok filepath, d1) => (Ok [filepath], d1)
        | (Raise e, d1) => (Raise e, d1)
        end
      else _export_per_post self d
  end.

End Writing.

End JSONExporter.

(** The column order of csv_exporter.py (lines 84-89 and 135-140). *)
Definition column_order : list string :=
  ["post_url"; "post_author"; "post_timestamp"; "comment_author_name";
   "comment_author_url"; "comment_text"; "comment_timestamp"; "likes_count";
   "replies_count"; "crawled_at"]%string.

(** A disk that keeps what is written, last file first; its clock is the
    number of files written. *)
Module MemoryDisk.

Definition disk : FileSystem :=
  {| Disk := list (str * ExportData);
     get_timestamp_string := fun d => py "20240101_00000" ++ str_of_nat (length d);
     isoformat_now := fun d => py "2024-01-01T00:00:0" ++ str_of_nat (length d);
     mkdir_json := fun d => (Ok tt, d);
     json_path := fun filename => py "data/exports/json/" ++ filename;
     dump_json := fun filename export_data _ d =>
                    (Ok tt, (filename, export_data) :: d) |}.

End MemoryDisk.

(** ** Vocabulary of the further properties *)

(** The test of lines 426-428 on a candidate body text. *)
Definition body_candidate (author_name text : str) : bool :=
  truthy text && (5 <? length text)
  && negb (str_in text [author_name; Label.Like; Label.Reply; Label.Suka;
                        Label.Balas; Label.Komentar; Label.Comment]).

(** The test of line 411 on the text of a link. *)
Definition author_candidate (text : str) : bool :=
  truthy text && (2 <? length text)
  && negb (str_in text [Label.Like; Label.Reply; Label.Suka; Label.Balas]).

(** A node without author link by any selector, with two links: an
    action label and a name. *)
Definition plain_link (text : string) : Element :=
  mkElement (Ok (py text)) (fun _ => Ok None) (fun _ => Ok None)
    (fun _ => Ok []).

Definition two_links : Element :=
  mkElement (Ok (py "Like Carol")) (fun _ => Ok None) (fun _ => Ok None)
    (fun selector =>
       if String.eqb selector "a"
       then Ok [plain_link "Like"; plain_link " Carol "]
       else Ok []).

(** A browser with a scroll position: the scroll script moves it by the
    amount passed and returns, a pause that is not negative returns and
    leaves it, as drawing does, and [randint(3, 5)] draws 3, 4 or 5. *)
Record Odometer (B : Browser) (position : World B -> Z) : Prop := {
  scroll_moves :
    forall amount selector w,
      fst (evaluate_scroll B amount selector w) = Ok tt
      /\ position (snd (evaluate_scroll B amount selector w))
         = (position w + amount)%Z;
  pause_stays :
    forall duration w,
      Seconds.nonneg duration = true ->
      fst (sleep_pause B duration w) = Ok tt
      /\ position (snd (sleep_pause B duration w)) = position w;
  draw_stays : forall w, position (snd (randint B 3 5 w)) = position w;
  draw_range : forall w, (3 <= fst (randint B 3 5 w) <= 5)%Z }.

(** The page of the three comments under a clock that shows the next
    second at every reading; the world is the number of readings so
    far. *)
Definition ticking_page : Browser :=
  {| World := nat;
     url := fun _ => py "https://www.facebook.com/post/1";
     now_isoformat :=
       fun n => (py "2024-01-01T00:00:0" ++ str_of_nat n, S n);
     goto := fun _ _ w => (Ok tt, w);
     page_query_selector :=
       fun s _ => Ok (hd_error (Dom.page_elements Scenario.three_comments s));
     page_query_selector_all :=
       fun s _ => Ok (Dom.page_elements Scenario.three_comments s);
     wait_for_selector := fun _ _ w => (Raise TimeoutError, w);
     is_visible := fun _ _ => Ok true;
     click := fun _ w => (Ok tt, w);
     scroll_into_view_if_needed := fun _ w => (Ok tt, w);
     evaluate_scroll := fun _ _ w => (Ok tt, w);
     sleep := fun w => w;
     sleep_pause :=
       fun d w =>
         if Seconds.nonneg d then (Ok tt, w) else (Raise OtherError, w);
     randint := fun a _ w => (a, w) |}.

(** The settings with a negative [SCROLL_PAUSE_TIME]. *)
Definition negative_pause_config : Config :=
  {| SCROLL_PAUSE_TIME := -2; MAX_SCROLL_ATTEMPTS := 10;
     REQUEST_TIMEOUT := 30000 |}.

(** The first [n] readings of the clock from the world [w] on. *)
Fixpoint clock_readings (B : Browser) (n : nat) (w : World B) : list str :=
  match n with
  | O => []
  | S n' =>
      let (now, w1) := now_isoformat B w in
      now :: clock_readings B n' w1
  end.

(** What [crawl_post_comments] returns for each of [post_urls] in turn,
    every crawl from the world that the crawl before it left; the empty
    list for a crawl that raises. *)
Fixpoint results_of (B : Browser) (cfg : Config) (lib : PyLib)
  (post_urls : list str) (max_comments : option Z) (w : World B)
  : list (list CommentData) :=
  match post_urls with
  | [] => []
  | post_url :: rest =>
      let (result, w1) :=
        crawl_post_comments B cfg lib post_url max_comments w in
      match result with Ok comments => comments | Raise _ => [] end
      :: results_of B cfg lib rest max_comments w1
  end.

(** The loop over two posts that show the page of the three comments,
    from an empty buffer. *)
Definition two_posts
  : (list (list CommentData) * list CommentData) * unit :=
  crawl_posts (Dom.static_browser (Ok tt) Scenario.three_comments)
    default_config AsciiLib.lib
    [py "https://www.facebook.com/post/1"; py "https://www.facebook.com/post/2"]
    None [] tt.

(** The values of [l], each once, in the order of their first
    occurrence. *)
Definition distinct (l : list value) : list value :=
  fold_left JSONExporter.set_add l [].

(** The comments of [comments_data] whose post URL is [post_url]. *)
Definition comments_of (post_url : value) (comments_data : list dict)
  : list dict :=
  filter (fun comment => value_eqb (JSONExporter.post_url_of comment) post_url)
    comments_data.

(** * Properties *)


(** ** Strings *)

Example replace_all_occurrences : replace (py "aaa") (py "aa") (py "b") = py "ba".
Proof. reflexivity. Qed.

Example replace_empty_old : replace (py "abc") [] (py "-") = py "-a-b-c-".
Proof. reflexivity. Qed.

Example replace_empty_by_empty : replace (py "Like") [] [] = py "Like".
Proof. reflexivity. Qed.

Example split_runs : split (py "  ab  c d ") = [py "ab"; py "c"; py "d"].
Proof. reflexivity. Qed.

Example strip_both_ends : strip (py "  a b  ") = py "a b".
Proof. reflexivity. Qed.

Example sub_http_removes_url :
  sub Http (py "Check this out http://example.com/x?y=1 thanks")
  = py "Check this out  thanks".
Proof. reflexivity. Qed.

Example sub_www_removes_url : sub Www (py "see www.example.com/a now") = py "see  now".
Proof. reflexivity. Qed.

Example selector_of_nested_link :
  Dom.parse Sel.span_auto_a
  = Some [[Dom.mkCompound (Some "span"%string) [Dom.Equals "dir" (py "auto")];
           Dom.mkCompound (Some "a"%string) []]].
Proof. reflexivity. Qed.

Example text_engine_is_no_css : Dom.parse Sel.reply_count = None.
Proof. reflexivity. Qed.

Example relative_times :
  map AsciiLib.time_like [py "5m"; py "2 Jam"; py "Just now"; py "Hello"]
  = [true; true; true; false].
Proof. reflexivity. Qed.

Lemma str_eqb_eq a b : str_eqb a b = true <-> a = b.
Proof.
  revert b; induction a as [|x a IH]; intros [|y b]; simpl;
    try (split; [discriminate | congruence]); [tauto|].
  rewrite andb_true_iff, N.eqb_eq, IH. split.
  - intros [-> ->]; reflexivity.
  - intros [= -> ->]; auto.
Qed.

Lemma str_eqb_refl a : str_eqb a a = true.
Proof. apply str_eqb_eq; reflexivity. Qed.

Lemma strip_prefix_app p s r : strip_prefix p s = Some r <-> s = p ++ r.
Proof.
  revert s; induction p as [|x p IH]; intros s; simpl.
  - split; [intros [= ->] | intros ->]; reflexivity.
  - destruct s as [|y s]; [split; discriminate|].
    destruct (N.eqb_spec x y) as [->|N].
    + rewrite IH. split; [intros ->; reflexivity | intros [= ->]; reflexivity].
    + split; [discriminate | intros [= -> _]; congruence].
Qed.

Lemma takeWhile_dropWhile p s : takeWhile p s ++ dropWhile p s = s.
Proof.
  induction s as [|c t IH]; simpl; [reflexivity|].
  destruct (p c); simpl; [rewrite IH|]; reflexivity.
Qed.

Lemma dropWhile_head p s :
  dropWhile p s = [] \/ exists x r, dropWhile p s = x :: r /\ p x = false.
Proof.
  induction s as [|c t IH]; simpl; [left; reflexivity|].
  destruct (p c) eqn:E; [exact IH|]. right; eauto.
Qed.

Lemma dropWhile_suffix p s : exists a, s = a ++ dropWhile p s.
Proof. exists (takeWhile p s). symmetry. apply takeWhile_dropWhile. Qed.

Lemma infix_trans u v w : infix u v -> infix v w -> infix u w.
Proof.
  intros (a & b & ->) (c & d & ->). exists (c ++ a), (b ++ d).
  rewrite <- !app_assoc. reflexivity.
Qed.

Lemma strip_infix s : infix (strip s) s.
Proof.
  unfold strip, rstrip, lstrip.
  destruct (dropWhile_suffix isspace s) as [a Ha].
  destruct (dropWhile_suffix isspace (rev (dropWhile isspace s))) as [b Hb].
  exists a, (rev b).
  rewrite Ha at 1. f_equal.
  rewrite <- (rev_involutive (dropWhile isspace s)) at 1.
  rewrite Hb at 1. rewrite rev_app_distr. reflexivity.
Qed.

Lemma infix_skip w a x b :
  ~ In x w -> infix w (a ++ x :: b) -> infix w a \/ infix w b.
Proof.
  intros Hx (p & s & E).
  apply app_eq_app in E. destruct E as (l & [[-> E] | [-> E]]).
  - apply app_eq_app in E.
    destruct E as (l2 & [[-> E] | [-> E]]).
    + destruct l2 as [|y l2].
      * left. exists p, []. rewrite !app_nil_r. reflexivity.
      * injection E as -> _. exfalso. apply Hx.
        apply in_or_app. right. left. reflexivity.
    + left. exists p, l2. reflexivity.
  - destruct l as [|y l].
    + destruct w as [|y w].
      * left. exists a, []. rewrite !app_nil_r. reflexivity.
      * injection E as -> _. exfalso. apply Hx. left. reflexivity.
    + injection E as _ ->. right. exists l, s. reflexivity.
Qed.

Lemma infix_join w ts :
  w <> [] -> ~ In 32%N w -> infix w (join (py " ") ts) ->
  exists t, In t ts /\ infix w t.
Proof.
  intros Hne Hsp. induction ts as [|t ts IH]; simpl.
  - intros (a & b & E). destruct a; [|discriminate].
    destruct w; [congruence | discriminate].
  - destruct ts as [|t2 ts].
    + intros H. exists t. split; [left; reflexivity | exact H].
    + intros H. change (py " ") with [32%N] in H. simpl in H.
      apply infix_skip in H; [|exact Hsp].
      destruct H as [H|H].
      * exists t. split; [left; reflexivity | exact H].
      * destruct (IH H) as (t' & Hin & Hi).
        exists t'. split; [right; exact Hin | exact Hi].
Qed.

Lemma split_from_infix cur s t :
  In t (split_from cur s) -> infix t (rev cur ++ s).
Proof.
  revert cur; induction s as [|c s IH]; intros cur; simpl.
  - destruct cur as [|x cur]; simpl; [tauto|].
    intros [<-|[]]. exists [], []. rewrite !app_nil_r. reflexivity.
  - destruct (isspace c).
    + destruct cur as [|x cur].
      * intros H. apply IH in H. simpl in *.
        destruct H as (a & b & ->). exists (c :: a), b. reflexivity.
      * intros [<-|H].
        -- exists [], (c :: s). reflexivity.
        -- apply IH in H. simpl in H. destruct H as (a & b & ->).
           exists (rev (x :: cur) ++ c :: a), b.
           rewrite <- app_assoc. reflexivity.
    + intros H. apply IH in H. simpl in H. rewrite <- app_assoc in H.
      exact H.
Qed.

Lemma split_infix s t : In t (split s) -> infix t s.
Proof. apply split_from_infix. Qed.

(** Every word of [s.split()] is non-empty and holds no whitespace. *)
Lemma split_from_words cur s t :
  Forall (fun c => isspace c = false) cur ->
  In t (split_from cur s) ->
  t <> [] /\ Forall (fun c => isspace c = false) t.
Proof.
  revert cur; induction s as [|c s IH]; intros cur Hcur; simpl.
  - destruct cur as [|x cur]; simpl; [tauto|].
    intros [<-|[]]. split.
    + destruct (rev cur); discriminate.
    + change (Forall (fun c => isspace c = false) (rev (x :: cur))).
      apply Forall_rev. exact Hcur.
  - destruct (isspace c) eqn:Ec.
    + destruct cur as [|x cur].
      * apply IH. constructor.
      * intros [<-|H]; [|apply (IH [] (Forall_nil _) H)]. split.
        -- simpl. destruct (rev cur); discriminate.
        -- apply Forall_rev. exact Hcur.
    + apply IH. constructor; assumption.
Qed.

(** ** The URL patterns *)


(** The escape alternative never decides: [%] is in the range [$-_]. *)
Lemma group_char c t : group (c :: t) = if url_char c then Some t else None.
Proof.
  unfold group, url_char.
  destruct (alt_letter c); [reflexivity|].
  destruct (alt_digit c); [reflexivity|].
  destruct (alt_punct c) eqn:Ep; [reflexivity|].
  destruct (alt_paren c); [reflexivity|]. simpl.
  destruct t as [|a [|b r]]; try reflexivity.
  destruct (N.eqb_spec c 37) as [->|_]; [discriminate Ep | reflexivity].
Qed.

Lemma group_star_step s :
  group_star s =
  match group s with Some rest => group_star rest | None => s end.
Proof.
  rewrite group_star_equation_1.
  destruct (inspect (group s)) as [[rest|] E];
    cbv beta iota delta [group_star_unfold_clause_1]; rewrite E; reflexivity.
Qed.

Lemma group_star_dropWhile s : group_star s = dropWhile url_char s.
Proof.
  induction s as [|c t IH]; rewrite group_star_step.
  - reflexivity.
  - rewrite group_char. simpl. destruct (url_char c); [exact IH | reflexivity].
Qed.

Lemma sub_cons p c t :
  sub p (c :: t) =
  match match_at p (c :: t) with
  | Some rest => sub p rest
  | None => c :: sub p t
  end.
Proof.
  rewrite sub_equation_2.
  destruct (inspect (match_at p (c :: t))) as [[rest|] E];
    cbv beta iota delta [sub_unfold_clause_2]; rewrite E; reflexivity.
Qed.

Lemma lits_url p l :
  In l (lits p) -> Forall (fun c => url_char c = true) l /\ ~ In 32%N l.
Proof.
  destruct p; simpl; intros H;
    repeat (destruct H as [<-|H]; [split; [repeat constructor | ]|]);
    try contradiction;
    (intro H; simpl in H; repeat (destruct H as [H|H]; [discriminate H|]);
     exact H).
Qed.

Lemma head_lits p s r : head p s = Some r <-> exists l, In l (lits p) /\ s = l ++ r.
Proof.
  split.
  - destruct p; simpl.
    + unfold http_head.
      destruct (strip_prefix (py "http") s) as [s1|] eqn:E1; [|discriminate].
      apply strip_prefix_app in E1. subst s.
      destruct (strip_prefix (py "s") s1) as [s2|] eqn:E2.
      * apply strip_prefix_app in E2. subst s1.
        destruct (strip_prefix (py "://") s2) as [s3|] eqn:E3.
        -- intros [= <-]. apply strip_prefix_app in E3. subst s2.
           exists (py "https://"). split; [right; left|]; reflexivity.
        -- intro E. apply strip_prefix_app in E. discriminate E.
      * intro E. apply strip_prefix_app in E. subst s1.
        exists (py "http://"). split; [left|]; reflexivity.
    + unfold www_head. intro E. apply strip_prefix_app in E.
      exists (py "www."). split; [left; reflexivity | exact E].
  - intros (l & Hl & ->). destruct p; simpl in Hl.
    + destruct Hl as [<-|[<-|[]]]; reflexivity.
    + destruct Hl as [<-|[]]; reflexivity.
Qed.

Lemma match_at_some p s rest :
  match_at p s = Some rest ->
  exists l c t, In l (lits p) /\ url_char c = true /\ s = l ++ c :: t
                /\ rest = dropWhile url_char t.
Proof.
  unfold match_at.
  destruct (head p s) as [s1|] eqn:E1; [|discriminate].
  apply head_lits in E1. destruct E1 as (l & Hl & ->).
  destruct s1 as [|c t]; [discriminate|].
  rewrite group_char. destruct (url_char c) eqn:Ec; [|discriminate].
  intros [= <-]. exists l, c, t. rewrite group_star_dropWhile. auto.
Qed.

Lemma match_at_starts p s : match_at p s <> None <-> starts p s.
Proof.
  split.
  - destruct (match_at p s) as [rest|] eqn:E; [|congruence].
    intros _. apply match_at_some in E.
    destruct E as (l & c & t & ? & ? & ? & _). exists l, c, t. auto.
  - intros (l & c & t & Hl & Hc & ->). unfold match_at.
    assert (E : head p (l ++ c :: t) = Some (c :: t))
      by (apply head_lits; eauto).
    rewrite E, group_char, Hc. discriminate.
Qed.

Lemma takeWhile_app_all p l t :
  Forall (fun c => p c = true) l -> takeWhile p (l ++ t) = l ++ takeWhile p t.
Proof.
  induction 1 as [|c l Hc _ IH]; simpl; [reflexivity|].
  rewrite Hc, IH. reflexivity.
Qed.

(** Whether a match starts depends on the leading run of URL characters
    only. *)
Lemma starts_run p s : starts p s <-> starts p (takeWhile url_char s).
Proof.
  split.
  - intros (l & c & t & Hl & Hc & ->).
    exists l, c, (takeWhile url_char t). repeat split; try assumption.
    rewrite takeWhile_app_all by (apply (lits_url p); assumption).
    simpl. rewrite Hc. reflexivity.
  - intros (l & c & t & Hl & Hc & E).
    exists l, c, (t ++ dropWhile url_char s). repeat split; try assumption.
    rewrite <- (takeWhile_dropWhile url_char s) at 1. rewrite E.
    rewrite <- app_assoc. reflexivity.
Qed.

Lemma starts_app p u x : starts p u -> starts p (u ++ x).
Proof.
  intros (l & c & t & Hl & Hc & ->). exists l, c, (t ++ x).
  repeat split; try assumption. rewrite <- app_assoc. reflexivity.
Qed.

Lemma starts_head_url p c t : starts p (c :: t) -> url_char c = true.
Proof.
  intros (l & c' & t' & Hl & Hc & E).
  destruct (lits_url p l Hl) as [F _].
  destruct l as [|x l]; simpl in E.
  - injection E as -> _. exact Hc.
  - injection E as -> _. inversion F; assumption.
Qed.

Lemma match_at_nil p : match_at p [] = None.
Proof. destruct p; reflexivity. Qed.

(** Removing the matches shortens the leading run of URL characters and
    adds nothing to it. *)
Lemma sub_run p s :
  exists x, takeWhile url_char s = takeWhile url_char (sub p s) ++ x.
Proof.
  remember (length s) as n eqn:Hn. revert s Hn.
  induction n as [n IH] using lt_wf_ind. intros s Hn.
  destruct s as [|c t].
  - exists []. reflexivity.
  - rewrite sub_cons. destruct (match_at p (c :: t)) as [rest|] eqn:E.
    + apply match_at_some in E.
      destruct E as (l & c' & t' & _ & _ & _ & ->).
      destruct (dropWhile_head url_char t') as [-> | (x & r & -> & Hx)].
      * rewrite sub_equation_1. eexists. reflexivity.
      * rewrite sub_cons.
        destruct (match_at p (x :: r)) eqn:E2.
        -- assert (S : starts p (x :: r))
             by (apply match_at_starts; congruence).
           apply starts_head_url in S. congruence.
        -- simpl. rewrite Hx. eexists. reflexivity.
    + simpl. destruct (url_char c); [|exists []; reflexivity].
      destruct (IH (length t)) with (s := t) as [x Hx];
        [subst n; simpl; lia | reflexivity |].
      exists x. simpl. rewrite Hx. reflexivity.
Qed.

Lemma starts_sub p q c t : starts q (c :: sub p t) -> starts q (c :: t).
Proof.
  intros H. pose proof (starts_head_url _ _ _ H) as Hc.
  apply starts_run in H. apply starts_run.
  simpl in *. rewrite Hc in *.
  destruct (sub_run p t) as [x ->].
  change (c :: takeWhile url_char (sub p t) ++ x)
    with ((c :: takeWhile url_char (sub p t)) ++ x).
  apply starts_app. exact H.
Qed.

Lemma search_cons p c t :
  search p (c :: t) =
  match match_at p (c :: t) with Some _ => true | None => search p t end.
Proof. reflexivity. Qed.

Lemma search_nil p : search p [] = false.
Proof. simpl. rewrite match_at_nil. reflexivity. Qed.

(** [re.search] finds a match exactly when one starts somewhere. *)
Lemma search_true p s :
  search p s = true <-> exists a b, s = a ++ b /\ starts p b.
Proof.
  induction s as [|c t IH].
  - rewrite search_nil. split; [discriminate|].
    intros (a & b & E & H). symmetry in E. apply app_eq_nil in E.
    destruct E as [_ ->]. apply match_at_starts in H.
    rewrite match_at_nil in H. congruence.
  - rewrite search_cons. destruct (match_at p (c :: t)) eqn:E.
    + split; [intros _ | reflexivity].
      exists [], (c :: t). split; [reflexivity|].
      apply match_at_starts. congruence.
    + rewrite IH. split.
      * intros (a & b & -> & H). exists (c :: a), b. auto.
      * intros (a & b & E2 & H). destruct a as [|x a].
        -- simpl in E2. subst b. apply match_at_starts in H. congruence.
        -- injection E2 as -> ->. eauto.
Qed.

Lemma search_infix p s :
  search p s = true <->
  exists l c, In l (lits p) /\ url_char c = true /\ infix (l ++ [c]) s.
Proof.
  rewrite search_true. split.
  - intros (a & b & -> & l & c & t & Hl & Hc & ->).
    exists l, c. repeat split; try assumption.
    exists a, t. rewrite <- app_assoc. reflexivity.
  - intros (l & c & Hl & Hc & a & b & ->).
    exists a, (l ++ c :: b). split.
    + rewrite <- app_assoc. reflexivity.
    + exists l, c, b. auto.
Qed.

Lemma search_false_infix p u s :
  infix u s -> search p s = false -> search p u = false.
Proof.
  intros Hi Hs. destruct (search p u) eqn:E; [|reflexivity].
  apply search_infix in E. destruct E as (l & c & Hl & Hc & Hw).
  assert (search p s = true); [|congruence].
  apply search_infix. exists l, c. repeat split; try assumption.
  eapply infix_trans; eassumption.
Qed.

(** After [re.sub(p, '', s)] no match of [p] is left, and none of another
    pattern [q] of the two appears that [s] did not have. *)
Lemma sub_search p q s :
  q = p \/ search q s = false -> search q (sub p s) = false.
Proof.
  remember (length s) as n eqn:Hn. revert s Hn.
  induction n as [n IH] using lt_wf_ind. intros s Hn Hq.
  destruct s as [|c t].
  - rewrite sub_equation_1. apply search_nil.
  - rewrite sub_cons. destruct (match_at p (c :: t)) as [rest|] eqn:E.
    + apply (IH (length rest)); [|reflexivity|].
      * subst n. apply match_at_shorter in E. exact E.
      * destruct Hq as [->|Hq]; [left; reflexivity | right].
        apply match_at_some in E.
        destruct E as (l & c' & t' & _ & _ & Es & ->).
        apply (search_false_infix q _ (c :: t)); [|exact Hq].
        destruct (dropWhile_suffix url_char t') as [a Ha].
        exists (l ++ c' :: a), []. rewrite Es, app_nil_r.
        rewrite Ha at 1. rewrite <- app_assoc. reflexivity.
    + rewrite search_cons.
      assert (N : match_at q (c :: t) = None).
      { destruct Hq as [->|Hq]; [exact E|].
        rewrite search_cons in Hq.
        destruct (match_at q (c :: t)); [discriminate | reflexivity]. }
      destruct (match_at q (c :: sub p t)) eqn:E2.
      * exfalso.
        assert (S : starts q (c :: sub p t))
          by (apply match_at_starts; congruence).
        apply starts_sub in S. apply match_at_starts in S. congruence.
      * apply (IH (length t)); [subst n; simpl; lia | reflexivity |].
        destruct Hq as [->|Hq]; [left; reflexivity | right].
        rewrite search_cons, N in Hq. exact Hq.
Qed.

(** Turns a boolean combination of comparisons on [N] into a proposition. *)
Ltac reflect_in H :=
  repeat first
    [ rewrite orb_true_iff in H | rewrite andb_true_iff in H
    | rewrite N.leb_le in H | rewrite N.eqb_eq in H ].

Lemma url_char_not_space c : url_char c = true -> isspace c = false.
Proof.
  intros H. destruct (isspace c) eqn:E; [exfalso | reflexivity].
  unfold url_char, alt_letter, alt_digit, alt_punct, alt_paren, in_range in H.
  unfold isspace in E.
  reflect_in H. reflect_in E. lia.
Qed.

(** Collapsing the whitespace joins no two pieces of a URL. *)
Lemma normalize_search p s :
  search p s = false ->
  search p (strip (join (py " ") (split s))) = false.
Proof.
  intros Hs. destruct (search p (strip _)) eqn:E; [|reflexivity].
  apply search_infix in E. destruct E as (l & c & Hl & Hc & Hw).
  assert (search p s = true); [|congruence].
  apply search_infix. exists l, c. repeat split; try assumption.
  pose proof (infix_trans _ _ _ Hw (strip_infix _)) as Hj.
  apply infix_join in Hj.
  - destruct Hj as (t & Ht & Hi). apply split_infix in Ht.
    eapply infix_trans; eassumption.
  - destruct l; discriminate.
  - intro Hin. apply in_app_or in Hin. destruct Hin as [Hin|[->|[]]].
    + apply (lits_url p l Hl). exact Hin.
    + discriminate Hc.
Qed.

(** ** Whitespace of the cleaned text *)

Lemma single_spaced_cons c t :
  single_spaced (c :: t) =
  match t with
  | c2 :: _ => negb (isspace c && isspace c2) && single_spaced t
  | [] => true
  end.
Proof. reflexivity. Qed.

Lemma single_spaced_word t u :
  Forall (fun c => isspace c = false) t ->
  single_spaced u = true -> single_spaced (t ++ u) = true.
Proof.
  induction 1 as [|c t Hc _ IH]; intros Hu; [exact Hu|].
  change ((c :: t) ++ u) with (c :: (t ++ u)).
  rewrite single_spaced_cons, Hc, (IH Hu).
  destruct (t ++ u); reflexivity.
Qed.

Lemma join_cons sep t ts :
  exists r, join sep (t :: ts) = t ++ r.
Proof.
  destruct ts; simpl; [exists []; rewrite app_nil_r|eexists]; reflexivity.
Qed.

Lemma single_spaced_join ts :
  (forall t, In t ts -> t <> [] /\ Forall (fun c => isspace c = false) t) ->
  single_spaced (join (py " ") ts) = true.
Proof.
  induction ts as [|t ts IH]; intros H; [reflexivity|].
  destruct ts as [|t2 ts].
  - simpl. rewrite <- (app_nil_r t).
    apply single_spaced_word; [apply H; left|]; reflexivity.
  - assert (IH' := IH (fun t' Ht' => H t' (or_intror Ht'))).
    destruct (join_cons (py " ") t2 ts) as [r Hr].
    destruct (H t2 (or_intror (or_introl eq_refl))) as [Hne Hws].
    change (join (py " ") (t :: t2 :: ts))
      with (t ++ 32%N :: join (py " ") (t2 :: ts)).
    unfold str in *. revert IH'. rewrite Hr. intros IH'.
    apply single_spaced_word; [apply H; left; reflexivity|].
    destruct t2 as [|c t2]; [congruence|].
    inversion Hws as [|? ? Hc _]; subst.
    change ((c :: t2) ++ r) with (c :: (t2 ++ r)) in IH' |- *.
    rewrite single_spaced_cons, Hc, IH'. reflexivity.
Qed.

Lemma single_spaced_infix u s :
  infix u s -> single_spaced s = true -> single_spaced u = true.
Proof.
  intros (a & b & ->) H.
  assert (Hs : single_spaced (u ++ b) = true).
  { clear - H. induction a as [|x a IH]; [exact H|].
    apply IH. simpl in H. destruct (a ++ u ++ b); [reflexivity|].
    apply andb_true_iff in H. apply H. }
  clear H. revert Hs. induction u as [|c u IH]; [reflexivity|].
  simpl. destruct u as [|c2 u]; [reflexivity|]. simpl.
  intros H. apply andb_true_iff in H. destruct H as [H1 H2].
  rewrite H1. apply IH. exact H2.
Qed.

(** ** The comment cleaner (lines 442-447) *)

Lemma remove_urls_search p s : search p (remove_urls s) = false.
Proof.
  unfold remove_urls. destruct s as [|c t]; [apply search_nil|].
  cbn [truthy]. apply normalize_search.
  destruct p.
  - apply sub_search. right. apply sub_search. left. reflexivity.
  - apply sub_search. left. reflexivity.
Qed.

Lemma remove_urls_single_spaced s : single_spaced (remove_urls s) = true.
Proof.
  unfold remove_urls. destruct s as [|c t]; [reflexivity|]. cbn [truthy].
  eapply single_spaced_infix; [apply strip_infix|].
  apply single_spaced_join. intros w Hw.
  eapply split_from_words; [constructor | exact Hw].
Qed.

(** ** Field Extractor *)

(** What [_extract_single_comment] computes, by cases on the body, the
    cleaned body and the timestamp. *)
Lemma extract_single_comment_cases lib element post_info now :
  _extract_single_comment lib element post_info now =
  match extract_body (fst (extract_author element)) element with
  | Raise _ => None
  | Ok body =>
      let cleaned := remove_urls body in
      let author :=
        match fst (extract_author element) with
        | [] => Label.Unknown_User
        | _ :: _ => fst (extract_author element)
        end in
      if length cleaned <? 2 then None
      else
        match extract_timestamp lib author cleaned element with
        | Raise _ => None
        | Ok timestamp =>
            Some {| post := post_info;
                    comment_author_name := author;
                    comment_author_url := snd (extract_author element);
                    comment_text := cleaned;
                    comment_timestamp := timestamp;
                    parent_comment_id := [];
                    likes_count := extract_likes lib element;
                    replies_count := extract_replies lib element;
                    crawled_at := now;
                    comment_id := None |}
        end
  end.
Proof.
  unfold _extract_single_comment.
  destruct (extract_author element) as [author_name author_url].
  cbn [fst snd].
  destruct (extract_body author_name element) as [body|e]; [|reflexivity].
  cbv zeta. destruct author_name as [|a author_name]; cbn [truthy negb andb].
  - destruct (remove_urls body) as [|x [|y r]]; reflexivity.
  - reflexivity.
Qed.

Lemma find_timestamp_first lib author_name comment_text time_elements ts :
  find_timestamp lib author_name comment_text time_elements = Ok ts ->
  let candidates := map stripped_text time_elements in
  let eligible t :=
    length t <= 50 /\ t <> author_name /\ t <> comment_text in
  (exists before after,
      candidates = before ++ ts :: after
      /\ eligible ts /\ search_time lib ts = true
      /\ forall t, In t before -> eligible t -> search_time lib t = false)
  \/ (ts = []
      /\ forall t, In t candidates -> eligible t -> search_time lib t = false).
Proof.
  cbv zeta.
  induction time_elements as [|e els IH]; cbn [find_timestamp map].
  - intros [= <-]. right. split; [reflexivity | intros t []].
  - unfold stripped_text at 1 3.
    destruct (text_content e) as [raw|err]; [|discriminate].
    set (text := strip raw).
    assert (Skip :
      (length text <= 50 /\ text <> author_name /\ text <> comment_text ->
       search_time lib text = false) ->
      find_timestamp lib author_name comment_text els = Ok ts ->
      (exists before after,
          text :: map stripped_text els = before ++ ts :: after
          /\ (length ts <= 50 /\ ts <> author_name /\ ts <> comment_text)
          /\ search_time lib ts = true
          /\ forall t, In t before ->
               length t <= 50 /\ t <> author_name /\ t <> comment_text ->
               search_time lib t = false)
      \/ (ts = []
          /\ forall t, In t (text :: map stripped_text els) ->
               length t <= 50 /\ t <> author_name /\ t <> comment_text ->
               search_time lib t = false)).
    { intros Hno H.
      destruct (IH H) as [(before & after & E & He & Hs & Hb) | [E Hall]].
      - left. exists (text :: before), after. rewrite E.
        repeat split; try apply He; try assumption.
        intros t [<-|Ht]; [exact Hno | apply Hb; exact Ht].
      - right. split; [exact E|].
        intros t [<-|Ht]; [exact Hno | apply Hall; exact Ht]. }
    destruct (Nat.ltb_spec 50 (length text)) as [Hlong|Hshort].
    { apply Skip. intros [H _]. lia. }
    destruct (str_eqb text author_name) eqn:Ea.
    { apply Skip. apply str_eqb_eq in Ea. intros (_ & H & _). congruence. }
    destruct (str_eqb text comment_text) eqn:Ec.
    { apply Skip. apply str_eqb_eq in Ec. intros (_ & _ & H). congruence. }
    cbn [orb]. destruct (search_time lib text) eqn:Es.
    + intros [= <-]. left. exists [], (map stripped_text els).
      repeat split; try assumption.
      * intro H. apply str_eqb_eq in H. congruence.
      * intro H. apply str_eqb_eq in H. congruence.
      * intros t [].
    + apply Skip. intros _. reflexivity.
Qed.

(** C1.  Every record the Field Extractor returns has a [comment_text]
    of at least 2 characters in which neither URL pattern of the cleaner
    finds a match and no two whitespace characters follow each other; the
    body [Check this out http://example.com/x?y=1 thanks] is cleaned to
    [Check this out thanks], also when it is the body of a candidate
    node. *)
Theorem comment_text_is_clean :
  (forall lib element post_info now c,
      _extract_single_comment lib element post_info now = Some c ->
      2 <= length (comment_text c)
      /\ search Http (comment_text c) = false
      /\ search Www (comment_text c) = false
      /\ single_spaced (comment_text c) = true)
  /\ remove_urls (py "Check this out http://example.com/x?y=1 thanks")
     = py "Check this out thanks"
  /\ (forall lib now,
        option_map comment_text
          (_extract_single_comment lib (Dom.element Scenario.url_comment)
             Scenario.post0 now)
        = Some (py "Check this out thanks")).
Proof.
  split; [|split].
  - intros lib element post_info now c.
    rewrite extract_single_comment_cases.
    destruct (extract_body (fst (extract_author element)) element)
      as [body|e]; [|discriminate].
    cbv zeta.
    destruct (Nat.ltb_spec (length (remove_urls body)) 2) as [|Hlen];
      [discriminate|].
    destruct (extract_timestamp lib _ _ element); [|discriminate].
    intros [= <-]. cbn [comment_text].
    split; [exact Hlen|]. split; [apply remove_urls_search|].
    split; [apply remove_urls_search | apply remove_urls_single_spaced].
  - vm_compute. reflexivity.
  - intros lib now. vm_compute. reflexivity.
Qed.

(** The candidate node of scenario C gives a record. *)
Lemma comment_text_is_clean_witness :
  exists c,
    _extract_single_comment AsciiLib.lib (Dom.element Scenario.url_comment)
      Scenario.post0 [] = Some c
    /\ 2 <= length (comment_text c)
    /\ search Http (comment_text c) = false
    /\ search Www (comment_text c) = false
    /\ single_spaced (comment_text c) = true.
Proof.
  eexists. split.
  - vm_compute. reflexivity.
  - apply (proj1 comment_text_is_clean AsciiLib.lib
             (Dom.element Scenario.url_comment) Scenario.post0 []).
    vm_compute. reflexivity.
Defined.

(** *** Drop conditions *)

Lemma author_from_selectors_texts element selectors author (P : str -> Prop) :
  P (fst author) ->
  (forall sel x, query_selector element sel = Ok (Some x) -> P (stripped_text x)) ->
  P (fst (author_from_selectors element selectors author)).
Proof.
  intros H0 H. revert author H0.
  induction selectors as [|sel rest IH]; intros author H0; [exact H0|].
  cbn [author_from_selectors]. unfold author_from_selector.
  destruct (query_selector element sel) as [[x|]|e] eqn:E;
    [|apply IH; exact H0|apply IH; exact H0].
  pose proof (H sel x E) as Hx. unfold stripped_text in Hx.
  destruct (text_content x) as [raw|e]; [|apply IH; exact H0].
  destruct (truthy (strip raw) && _); [|apply IH; exact H0].
  destruct (get_attribute x "href"); [exact Hx | apply IH; exact Hx].
Qed.

Lemma author_from_links_labels links author :
  (forall x, In x links ->
             stripped_text x = [] \/ stripped_text x = Label.Like) ->
  author_from_links links author = author.
Proof.
  induction links as [|x rest IH]; intros H; [reflexivity|].
  cbn [author_from_links].
  pose proof (H x (or_introl eq_refl)) as Hx. unfold stripped_text in Hx.
  destruct (text_content x) as [raw|e]; [|reflexivity].
  destruct Hx as [-> | ->]; cbn;
    apply IH; intros y Hy; apply H; right; exact Hy.
Qed.

Lemma longest_text_short author_name text_elements acc r :
  (forall x, In x text_elements -> length (stripped_text x) <= 5) ->
  longest_text author_name text_elements acc = Ok r -> r = acc.
Proof.
  revert acc; induction text_elements as [|x rest IH]; intros acc H;
    cbn [longest_text]; [intros [= <-]; reflexivity|].
  pose proof (H x (or_introl eq_refl)) as Hx. unfold stripped_text in Hx.
  destruct (text_content x) as [raw|e]; [|discriminate].
  destruct (Nat.ltb_spec 5 (length (strip raw))); [lia|].
  rewrite andb_false_r. cbn [andb].
  apply IH. intros y Hy. apply H. right. exact Hy.
Qed.

(** A node whose only text is [Like] gives no record. *)
Lemma like_only_dropped lib element post_info now :
  stripped_text element = py "Like" ->
  (forall sel l x, query_selector_all element sel = Ok l -> In x l ->
     stripped_text x = [] \/ stripped_text x = py "Like") ->
  (forall sel x, query_selector element sel = Ok (Some x) ->
     stripped_text x = [] \/ stripped_text x = py "Like") ->
  _extract_single_comment lib element post_info now = None.
Proof.
  intros Ht Hall Hone.
  rewrite extract_single_comment_cases.
  assert (Ha : fst (extract_author element) = []
               \/ fst (extract_author element) = py "Like").
  { unfold extract_author.
    pose proof (author_from_selectors_texts element author_selectors ([], [])
                  (fun a => a = [] \/ a = py "Like") (or_introl eq_refl) Hone)
      as Hs.
    destruct (author_from_selectors element author_selectors ([], []))
      as [a u]. cbn [fst] in *.
    destruct Hs as [-> | ->]; cbn [truthy negb]; [|right; reflexivity].
    destruct (query_selector_all element "a") as [links|e] eqn:El;
      [|left; reflexivity].
    rewrite author_from_links_labels; [left; reflexivity|].
    intros x Hx. apply (Hall _ _ _ El Hx). }
  destruct (extract_body (fst (extract_author element)) element)
    as [body|e] eqn:Eb; [|reflexivity].
  assert (Hb : body = []).
  { unfold extract_body in Eb.
    destruct (query_selector_all element Sel.dir_auto_texts) as [l|e] eqn:El;
      [|discriminate].
    destruct (longest_text _ l []) as [r|e] eqn:Er; [|discriminate].
    apply longest_text_short in Er.
    - subst r. cbn [truthy negb] in Eb. unfold text_without_noise in Eb.
      unfold stripped_text in Ht.
      destruct (text_content element) as [raw|e]; [|discriminate].
      rewrite Ht in Eb.
      destruct Ha as [Ha | Ha]; rewrite Ha in Eb; vm_compute in Eb;
        injection Eb as <-; reflexivity.
    - intros x Hx. destruct (Hall _ _ _ El Hx) as [-> | ->]; simpl; lia. }
  subst body. reflexivity.
Qed.

(** C2, as stated, fails: a node with an author link [Alice] and a body
    of 21 cleaned characters whose query for the time candidates raises
    gives no record, the handler of line 528 turning the exception into
    [None]. *)
Lemma drop_conditions_counterexample :
  fst (extract_author stale_comment) = py "Alice"
  /\ extract_body (py "Alice") stale_comment
     = Ok (py "Check this out http://example.com/x?y=1 thanks")
  /\ length (remove_urls (py "Check this out http://example.com/x?y=1 thanks"))
     = 21
  /\ _extract_single_comment AsciiLib.lib stale_comment Scenario.post0 [] = None.
Proof. repeat split; vm_compute; reflexivity. Qed.

(** C2, amended.  When the reads of the body and of the time candidates
    do not raise, the Field Extractor gives no record exactly when it
    found neither an author nor a body, or the cleaned body is shorter
    than 2 characters; with a body of at least 2 characters and no author
    the record carries the author [Unknown User].  When one of those
    reads raises there is no record either.  A node whose only text is
    [Like] gives no record; of three comments, the one without any link
    gets the author [Unknown User]. *)
Theorem drop_conditions :
  (forall lib element post_info now,
      let author_name := fst (extract_author element) in
      let author :=
        match author_name with [] => py "Unknown User" | _ :: _ => author_name end in
      (forall e,
          extract_body author_name element = Raise e ->
          _extract_single_comment lib element post_info now = None)
      /\ (forall body,
            extract_body author_name element = Ok body ->
            let cleaned := remove_urls body in
            (forall e,
                extract_timestamp lib author cleaned element = Raise e ->
                _extract_single_comment lib element post_info now = None)
            /\ (forall timestamp,
                  extract_timestamp lib author cleaned element = Ok timestamp ->
                  (_extract_single_comment lib element post_info now = None <->
                     (author_name = [] /\ body = []) \/ length cleaned < 2)
                  /\ (author_name = [] -> 2 <= length cleaned ->
                      exists c,
                        _extract_single_comment lib element post_info now = Some c
                        /\ comment_author_name c = py "Unknown User"
                        /\ comment_text c = cleaned))))
  /\ (forall lib element post_info now,
        stripped_text element = py "Like" ->
        (forall sel l x, query_selector_all element sel = Ok l -> In x l ->
           stripped_text x = [] \/ stripped_text x = py "Like") ->
        (forall sel x, query_selector element sel = Ok (Some x) ->
           stripped_text x = [] \/ stripped_text x = py "Like") ->
        _extract_single_comment lib element post_info now = None)
  /\ (forall lib url,
        exists comments,
          fst (crawl_post_comments
                 (Dom.static_browser (Ok tt) Scenario.three_comments)
                 default_config lib url None tt) = Ok comments
          /\ map comment_author_name comments
             = [py "Alice"; py "Unknown User"; py "Bob"]
          /\ map comment_text comments
             = [py "What a view"; py "Nice post!!"; py "Thanks for sharing"]).
Proof.
  split; [|split].
  - intros lib element post_info now. cbv zeta.
    rewrite extract_single_comment_cases. split.
    + intros e ->. reflexivity.
    + intros body ->. cbv zeta.
      change Label.Unknown_User with (py "Unknown User").
      destruct (Nat.ltb_spec (length (remove_urls body)) 2) as [Hlt|Hge].
      * split; [reflexivity|]. intros timestamp _. split.
        -- split; [intros _; right; exact Hlt | reflexivity].
        -- intros _ H. lia.
      * split; [intros e ->; reflexivity|].
        intros timestamp ->. split.
        -- split; [discriminate|].
           intros [[_ Hb] | Hlt]; [|lia].
           rewrite Hb in Hge. simpl in Hge. lia.
        -- intros Ha _. eexists. split; [reflexivity|].
           rewrite Ha. split; reflexivity.
  - apply like_only_dropped.
  - intros lib url. eexists.
    split; [|split].
    + vm_compute. reflexivity.
    + reflexivity.
    + reflexivity.
Qed.

(** The handles computed from a document answer with its nodes. *)
Lemma handle_text fuel ancestors d :
  stripped_text (Dom.handle fuel ancestors d) = strip (Dom.text_of d).
Proof. destruct fuel; reflexivity. Qed.

Lemma element_query_all d sel l x :
  query_selector_all (Dom.element d) sel = Ok l -> In x l ->
  exists na,
    In na (Dom.descendants [] d)
    /\ stripped_text x = strip (Dom.text_of (fst na)).
Proof.
  unfold Dom.element. destruct (Dom.height d); cbn [Dom.handle query_selector_all];
    intros [= <-]; [intros []|].
  intros H. apply in_map_iff in H. destruct H as (na & <- & H).
  exists na. split; [|apply handle_text].
  unfold Dom.select in H. destruct (Dom.parse sel); [|destruct H].
  apply filter_In in H. apply H.
Qed.

Lemma element_query d sel x :
  query_selector (Dom.element d) sel = Ok (Some x) ->
  exists na,
    In na (Dom.descendants [] d)
    /\ stripped_text x = strip (Dom.text_of (fst na)).
Proof.
  intros H.
  destruct (query_selector_all (Dom.element d) sel) as [l|e] eqn:El.
  - apply (element_query_all d sel l x El).
    unfold Dom.element in *.
    destruct (Dom.height d); cbn [Dom.handle query_selector query_selector_all] in *;
      [discriminate|].
    injection El as <-. injection H as H.
    destruct (map _ _) as [|y l']; [discriminate|].
    injection H as ->. left. reflexivity.
  - unfold Dom.element in El. destruct (Dom.height d); discriminate El.
Qed.

(** A node that holds one [span] with the text [Like]. *)
Lemma drop_conditions_witness :
  stripped_text (Dom.element Scenario.like_only) = py "Like"
  /\ _extract_single_comment AsciiLib.lib (Dom.element Scenario.like_only)
       Scenario.post0 [] = None.
Proof.
  split; [vm_compute; reflexivity|].
  apply (proj1 (proj2 drop_conditions)).
  - vm_compute. reflexivity.
  - intros sel l x Hl Hx.
    destruct (element_query_all _ _ _ _ Hl Hx) as (na & [<-|[]] & ->).
    right. vm_compute. reflexivity.
  - intros sel x H. apply element_query in H.
    destruct H as (na & [<-|[]] & ->). right. vm_compute. reflexivity.
Defined.

(** C6.  The timestamp of a record is at most 50 characters long and
    differs from the author name and from the comment body; it is the
    first candidate text (in the order of the [a, span] query) that is at
    most 50 characters long, differs from author and body and matches the
    relative-time patterns, and the empty string when there is none. *)
Theorem timestamp_selection lib element post_info now c :
  _extract_single_comment lib element post_info now = Some c ->
  exists time_elements,
    query_selector_all element "a, span" = Ok time_elements
    /\ let candidates := map stripped_text time_elements in
       let eligible t :=
         length t <= 50 /\ t <> comment_author_name c /\ t <> comment_text c in
       eligible (comment_timestamp c)
       /\ ((exists before after,
               candidates = before ++ comment_timestamp c :: after
               /\ search_time lib (comment_timestamp c) = true
               /\ forall t, In t before -> eligible t ->
                            search_time lib t = false)
           \/ (comment_timestamp c = []
               /\ forall t, In t candidates -> eligible t ->
                            search_time lib t = false)).
Proof.
  rewrite extract_single_comment_cases.
  destruct (extract_body (fst (extract_author element)) element)
    as [body|e]; [|discriminate].
  cbv zeta.
  destruct (Nat.ltb_spec (length (remove_urls body)) 2) as [|Hlen];
    [discriminate|].
  set (author := match fst (extract_author element) with
                 | [] => Label.Unknown_User
                 | _ :: _ => fst (extract_author element)
                 end).
  set (text := remove_urls body) in *.
  assert (Hauthor : author <> []).
  { subst author. destruct (fst (extract_author element)); discriminate. }
  unfold extract_timestamp.
  destruct (query_selector_all element "a, span") as [time_elements|e];
    [|discriminate].
  destruct (find_timestamp lib author text time_elements) as [ts|e] eqn:Ef;
    [|discriminate].
  intros [= <-]. cbn [comment_timestamp comment_author_name comment_text].
  exists time_elements. split; [reflexivity|].
  pose proof (find_timestamp_first lib author text time_elements ts Ef) as H.
  cbv zeta in H.
  destruct H as [(before & after & E & He & Hs & Hb) | [E Hall]].
  - split; [exact He|]. left. exists before, after. auto.
  - split.
    + rewrite E. split; [simpl; lia|]. split; [congruence|].
      intro H. rewrite <- H in Hlen. simpl in Hlen. lia.
    + right. split; assumption.
Qed.

(** A record whose timestamp is the second of two time-like texts, the
    first being too long. *)
Lemma timestamp_selection_witness :
  exists c,
    _extract_single_comment AsciiLib.lib (Dom.element Scenario.timed_comment)
      Scenario.post0 [] = Some c
    /\ comment_timestamp c = py "2h"
    /\ exists time_elements,
         query_selector_all (Dom.element Scenario.timed_comment) "a, span"
         = Ok time_elements.
Proof.
  eexists. split; [vm_compute; reflexivity|]. split; [reflexivity|].
  destruct (timestamp_selection AsciiLib.lib
              (Dom.element Scenario.timed_comment) Scenario.post0 [] _
              ltac:(vm_compute; reflexivity)) as (l & Hl & _).
  exists l. exact Hl.
Defined.

(** C7, as stated, fails.  With an aria-labelled author link [Alice] and
    a nested author-styled link [Bob] that both point to a profile URL,
    the author is [Bob] when the nested link comes first in the document
    and [Alice] when it comes second.  With an aria-labelled link that has
    no text (an avatar) before a nested link [Bob], the author is [Bob]
    again. *)
Lemma aria_label_author_counterexample :
  (match query_selector (Dom.element Scenario.nested_first) Sel.a_aria_label with
   | Ok (Some l) => stripped_text l
   | _ => []
   end = py "Alice"
   /\ match query_selector (Dom.element Scenario.nested_first) Sel.span_auto_a with
      | Ok (Some l) => stripped_text l
      | _ => []
      end = py "Bob"
   /\ fst (extract_author (Dom.element Scenario.nested_first)) = py "Bob"
   /\ fst (extract_author (Dom.element Scenario.aria_first)) = py "Alice")
  /\ (match query_selector (Dom.element Scenario.avatar_first) Sel.a_aria_label with
      | Ok (Some l) => get_attribute l "aria-label"
      | _ => Ok None
      end = Ok (Some (py "Alice"))
      /\ match query_selector (Dom.element Scenario.avatar_first) Sel.span_auto_a with
         | Ok (Some l) => stripped_text l
         | _ => []
         end = py "Bob"
      /\ fst (extract_author (Dom.element Scenario.avatar_first)) = py "Bob").
Proof. repeat split; vm_compute; reflexivity. Qed.

(** C7, amended.  When none of the three strategies before the
    aria-labelled one (role link, [/user/] URL, [/profile] URL) finds a
    link with text and the first aria-labelled link has text, then: when
    the read of its [href] returns, that link gives the author name and
    URL, whatever the later strategies (the nested author-styled links)
    would find and wherever those links are in the document; when the
    read of its [href] raises, the loop goes on from the name of that link
    and an empty URL, through the three later strategies, so that the name
    stays when none of them finds a link with text. *)
Theorem aria_label_author element author_link raw :
  (forall sel l,
      In sel [Sel.a_role_link; Sel.a_href_user; Sel.a_href_profile] ->
      query_selector element sel = Ok (Some l) -> stripped_text l = []) ->
  query_selector element Sel.a_aria_label = Ok (Some author_link) ->
  text_content author_link = Ok raw ->
  strip raw <> [] ->
  (forall href,
      get_attribute author_link "href" = Ok href ->
      extract_author element = (strip raw, or_empty href))
  /\ (forall e,
        get_attribute author_link "href" = Raise e ->
        extract_author element
        = author_from_selectors element
            [Sel.span_auto_a; Sel.h4_a; Sel.strong_a] (strip raw, [])
        /\ ((forall sel l,
               In sel [Sel.span_auto_a; Sel.h4_a; Sel.strong_a] ->
               query_selector element sel = Ok (Some l) ->
               stripped_text l = []) ->
            extract_author element = (strip raw, []))).
Proof.
  intros Hearlier Haria Hraw Htext.
  assert (Skip : forall sels sel author,
             (forall sel l, In sel sels ->
                query_selector element sel = Ok (Some l) ->
                stripped_text l = []) ->
             In sel sels ->
             author_from_selector element sel author = (false, author)).
  { intros sels sel author Hsels Hin. unfold author_from_selector.
    destruct (query_selector element sel) as [[l|]|e] eqn:E;
      try reflexivity.
    pose proof (Hsels sel l Hin E) as Hl. unfold stripped_text in Hl.
    destruct (text_content l) as [r|e]; [|reflexivity].
    rewrite Hl. reflexivity. }
  assert (Named : truthy (strip raw) && (0 <? length (strip raw)) = true).
  { destruct (strip raw) as [|x t]; [congruence | reflexivity]. }
  split.
  - intros href Hhref.
    unfold extract_author, author_selectors. cbn [author_from_selectors].
    rewrite !(Skip _ _ _ Hearlier) by (simpl; tauto).
    unfold author_from_selector. rewrite Haria, Hraw, Hhref. cbv zeta.
    rewrite Named. destruct (strip raw) as [|x t]; [congruence|].
    reflexivity.
  - intros e Hhref.
    assert (G : forall sels a, fst a <> [] ->
                  fst (author_from_selectors element sels a) <> []).
    { clear. induction sels as [|sel rest IH]; intros a Ha;
        cbn [author_from_selectors]; [exact Ha|].
      unfold author_from_selector.
      destruct (query_selector element sel) as [[l|]|e];
        try (apply IH; exact Ha).
      destruct (text_content l) as [r|e]; [|apply IH; exact Ha].
      cbv zeta.
      destruct (truthy (strip r) && (0 <? length (strip r))) eqn:T;
        [|apply IH; exact Ha].
      assert (Hr : strip r <> []).
      { destruct (strip r); [discriminate T | discriminate]. }
      destruct (get_attribute l "href"); [exact Hr | apply IH; exact Hr]. }
    assert (A : author_from_selectors element author_selectors ([], [])
                = author_from_selectors element
                    [Sel.span_auto_a; Sel.h4_a; Sel.strong_a] (strip raw, [])).
    { unfold author_selectors.
      change (author_from_selectors element
                (?a :: ?b :: ?c :: ?d :: ?rest) ?x)
        with (let (stop, author) := author_from_selector element a x in
              if stop then author else
              let (stop, author) := author_from_selector element b author in
              if stop then author else
              let (stop, author) := author_from_selector element c author in
              if stop then author else
              let (stop, author) := author_from_selector element d author in
              if stop then author
              else author_from_selectors element rest author).
      rewrite (Skip _ Sel.a_role_link _ Hearlier) by (simpl; tauto).
      rewrite (Skip _ Sel.a_href_user _ Hearlier) by (simpl; tauto).
      rewrite (Skip _ Sel.a_href_profile _ Hearlier) by (simpl; tauto).
      unfold author_from_selector. rewrite Haria, Hraw, Hhref. cbv zeta.
      rewrite Named. reflexivity. }
    assert (Go : extract_author element
                 = author_from_selectors element
                     [Sel.span_auto_a; Sel.h4_a; Sel.strong_a] (strip raw, [])).
    { unfold extract_author. rewrite A. cbv zeta.
      pose proof (G [Sel.span_auto_a; Sel.h4_a; Sel.strong_a]
                    (strip raw, []) Htext) as Hn.
      destruct (author_from_selectors element
                  [Sel.span_auto_a; Sel.h4_a; Sel.strong_a] (strip raw, []))
        as [[|x t] u]; [exfalso; apply Hn; reflexivity|].
      reflexivity. }
    split; [exact Go|].
    intros Hlater. rewrite Go. cbn [author_from_selectors].
    rewrite !(Skip _ _ _ Hlater) by (simpl; tauto). reflexivity.
Qed.

(** With URLs that no earlier strategy looks for, the aria-labelled link
    gives the author in both document orders; with an [href] that cannot
    be read and no nested link, it gives the name and an empty URL. *)
Lemma aria_label_author_witness :
  fst (extract_author (Dom.element Scenario.plain_nested_first)) = py "Alice"
  /\ fst (extract_author (Dom.element Scenario.plain_aria_first)) = py "Alice"
  /\ extract_author (detached_author None) = (py "Alice", []).
Proof.
  assert (W : forall d,
             (forall sel,
                 In sel [Sel.a_role_link; Sel.a_href_user; Sel.a_href_profile] ->
                 query_selector (Dom.element d) sel = Ok None) ->
             match query_selector (Dom.element d) Sel.a_aria_label with
             | Ok (Some l) =>
                 match text_content l, get_attribute l "href" with
                 | Ok raw, Ok _ => str_eqb (strip raw) (py "Alice")
                 | _, _ => false
                 end
             | _ => false
             end = true ->
             fst (extract_author (Dom.element d)) = py "Alice").
  { intros d Hnone Haria.
    destruct (query_selector (Dom.element d) Sel.a_aria_label)
      as [[l|]|e] eqn:E; try discriminate.
    destruct (text_content l) as [raw|e] eqn:Er; [|discriminate].
    destruct (get_attribute l "href") as [href|e] eqn:Eh; [|discriminate].
    apply str_eqb_eq in Haria.
    destruct (aria_label_author (Dom.element d) l raw) as [H _].
    - intros sel l' Hin H. rewrite (Hnone sel Hin) in H. discriminate.
    - exact E.
    - exact Er.
    - rewrite Haria. discriminate.
    - rewrite (H href Eh). exact Haria. }
  split; [|split];
    [apply W; try (intros sel [<-|[<-|[<-|[]]]]); vm_compute; reflexivity ..|].
  destruct (aria_label_author (detached_author None) (detached_link "Alice")
              (py "Alice")) as [_ H].
  - intros sel l [<-|[<-|[<-|[]]]] Hq; vm_compute in Hq; discriminate Hq.
  - reflexivity.
  - reflexivity.
  - vm_compute. discriminate.
  - destruct (H PlaywrightError eq_refl) as [_ H'].
    rewrite H'; [reflexivity|].
    intros sel l [<-|[<-|[<-|[]]]] Hq; vm_compute in Hq; discriminate Hq.
Defined.

(** When the [href] of the aria-labelled link cannot be read, a nested
    author-styled link overwrites its name. *)
Example detached_link_is_overwritten :
  extract_author
    (detached_author (Some (link_to "Bob" "https://www.facebook.com/bob")))
  = (py "Bob", py "https://www.facebook.com/bob").
Proof. vm_compute. reflexivity. Qed.

(** ** Post Context *)

Lemma post_author_loop_content B selectors post_info w :
  post_content (snd (post_author_loop B selectors post_info w))
  = post_content post_info.
Proof.
  revert post_info; induction selectors as [|sel rest IH]; intros post_info;
    cbn [post_author_loop]; [reflexivity|].
  destruct (page_query_selector B sel w) as [[element|]|e];
    [|apply IH|reflexivity].
  destruct (text_content element) as [raw|e]; [|reflexivity].
  cbn [set_post_author post_author].
  destruct (truthy (strip raw)); [reflexivity|].
  rewrite IH. reflexivity.
Qed.

(** The inner loop keeps the first non-empty text that is longer than
    what it started with; from an empty content, the first non-empty
    text. *)
Lemma post_content_elements_first elements post_info :
  post_content post_info = [] ->
  (forall x, In x elements -> exists raw, text_content x = Ok raw) ->
  post_content (snd (post_content_elements elements post_info))
  = hd [] (filter truthy (map stripped_text elements)).
Proof.
  intros H0. induction elements as [|x rest IH]; intros Hok;
    cbn [post_content_elements map]; [exact H0|].
  unfold stripped_text at 1.
  destruct (Hok x (or_introl eq_refl)) as [raw ->].
  rewrite H0. destruct (strip raw) as [|c t]; cbn.
  - apply IH. intros y Hy. apply Hok. right. exact Hy.
  - reflexivity.
Qed.

Lemma post_content_elements_raise elements post_info e :
  fst (post_content_elements elements post_info) = Raise e ->
  snd (post_content_elements elements post_info) = post_info.
Proof.
  induction elements as [|x rest IH]; cbn [post_content_elements];
    [discriminate|].
  destruct (text_content x) as [raw|e']; [|reflexivity].
  destruct (truthy (strip raw) && _); [discriminate | exact IH].
Qed.

Lemma post_content_loop_raise B selectors post_info w e :
  post_content post_info = [] ->
  fst (post_content_loop B selectors post_info w) = Raise e ->
  post_content (snd (post_content_loop B selectors post_info w)) = [].
Proof.
  revert post_info; induction selectors as [|sel rest IH]; intros post_info H0;
    cbn [post_content_loop]; [discriminate|].
  destruct (page_query_selector_all B sel w) as [elements|e'];
    [|intros _; exact H0].
  pose proof (post_content_elements_raise elements post_info) as Hr.
  destruct (post_content_elements elements post_info) as [[[]|e'] post_info'].
  - destruct (post_content post_info') eqn:E; cbn [truthy fst snd];
      [|discriminate].
    apply IH. exact E.
  - intros _. cbn [fst snd] in *. rewrite (Hr e' eq_refl). exact H0.
Qed.

Lemma post_info_unlimited_raise B w e :
  fst (post_info_unlimited B w) = Raise e ->
  post_content (snd (post_info_unlimited B w)) = [].
Proof.
  unfold post_info_unlimited.
  pose proof (post_author_loop_content B PageSel.post_author_selectors
                {| post_url := url B w; post_author := []; post_content := [];
                   post_timestamp := [] |} w) as Ha.
  destruct (post_author_loop _ _ _ _) as [[[]|e'] post_info];
    cbn [fst snd] in *.
  - apply post_content_loop_raise. exact Ha.
  - intros _. exact Ha.
Qed.

(** C3.  On a post whose message selector matches the texts [Hi] and
    [Hello world], in that order, [_extract_post_info] gives the content
    [Hi], where the longest non-empty text seen is [Hello world]: the
    inner loop is left at its first assignment, so the first non-empty
    text is kept, not the longest. *)
Theorem post_content_is_first_text :
  map stripped_text
    (Dom.page_elements Scenario.two_messages (hd EmptyString PageSel.content_selectors))
  = [py "Hi"; py "Hello world"]
  /\ longest_nonempty_text [py "Hi"; py "Hello world"] = py "Hello world"
  /\ post_content
       (snd (post_info_unlimited (Dom.static_browser (Ok tt) Scenario.two_messages) tt))
     = py "Hi"
  /\ post_content
       (_extract_post_info (Dom.static_browser (Ok tt) Scenario.two_messages) tt)
     = py "Hi"
  /\ (forall elements post_info,
        post_content post_info = [] ->
        (forall x, In x elements -> exists raw, text_content x = Ok raw) ->
        post_content (snd (post_content_elements elements post_info))
        = hd [] (filter truthy (map stripped_text elements))).
Proof.
  repeat split; try (vm_compute; reflexivity).
  apply post_content_elements_first.
Qed.

(** C8.  A content of 600 characters comes out as its first 500
    characters followed by three dots, 503 characters in all; a content
    of 400 characters comes out unchanged. *)
Theorem post_content_truncation :
  (forall B w,
      length (post_content (snd (post_info_unlimited B w))) = 600 ->
      post_content (_extract_post_info B w)
      = firstn 500 (post_content (snd (post_info_unlimited B w))) ++ py "..."
      /\ length (post_content (_extract_post_info B w)) = 503)
  /\ (forall B w,
        length (post_content (snd (post_info_unlimited B w))) = 400 ->
        _extract_post_info B w = snd (post_info_unlimited B w)).
Proof.
  split; intros B w Hlen; unfold _extract_post_info.
  - pose proof (post_info_unlimited_raise B w) as Hr.
    destruct (post_info_unlimited B w) as [[[]|e] post_info]; simpl in *.
    + unfold limit_content_length. rewrite Hlen.
      change (500 <? 600) with true.
      cbn [post_content set_post_content]. unfold slice_to.
      split; [reflexivity|].
      rewrite length_app, length_firstn, Hlen. reflexivity.
    + rewrite (Hr e eq_refl) in Hlen. discriminate.
  - destruct (post_info_unlimited B w) as [[[]|e] post_info]; simpl in *;
      [|reflexivity].
    unfold limit_content_length. rewrite Hlen. reflexivity.
Qed.

(** Posts of 600 and of 400 letters. *)
Lemma post_content_truncation_witness :
  length (post_content
            (snd (post_info_unlimited
                    (Dom.static_browser (Ok tt) (Scenario.long_post 600)) tt)))
  = 600
  /\ length (post_content
               (_extract_post_info
                  (Dom.static_browser (Ok tt) (Scenario.long_post 600)) tt))
     = 503
  /\ _extract_post_info (Dom.static_browser (Ok tt) (Scenario.long_post 400)) tt
     = snd (post_info_unlimited
              (Dom.static_browser (Ok tt) (Scenario.long_post 400)) tt).
Proof.
  split; [vm_compute; reflexivity|]. split.
  - apply (proj1 post_content_truncation
             (Dom.static_browser (Ok tt) (Scenario.long_post 600)) tt).
    vm_compute. reflexivity.
  - apply (proj2 post_content_truncation
             (Dom.static_browser (Ok tt) (Scenario.long_post 400)) tt).
    vm_compute. reflexivity.
Defined.

(** ** Comment Discovery *)



Lemma extract_comments_unfold B lib post_info w :
  _extract_comments B lib post_info w
  = match find_comment_elements B PageSel.comment_selectors (sleep B w) with
    | Ok elements =>
        (Ok (fst (extract_each B lib 0 elements post_info (sleep B w))),
         snd (extract_each B lib 0 elements post_info (sleep B w)))
    | Raise _ => (Ok [], sleep B w)
    end.
Proof.
  unfold _extract_comments, try_except, bind, random_delay, observe, ret.
  destruct (find_comment_elements B PageSel.comment_selectors (sleep B w))
    as [elements|e]; [|reflexivity].
  destruct (extract_each B lib 0 elements post_info (sleep B w)); reflexivity.
Qed.



(** ** The scroll loop *)

Lemma scroll_loop_step B cfg max_comments scroll_attempts w :
  scroll_loop B cfg max_comments scroll_attempts w =
  if (scroll_attempts <? MAX_SCROLL_ATTEMPTS cfg)%Z
  then
    match scroll_once B cfg w with
    | (Raise e, w1) => (Raise e, w1)
    | (Ok more_comments_clicked, w1) =>
        if target_reached B max_comments w1
        then (Ok ((scroll_attempts + 1)%Z, TargetReached), w1)
        else if negb more_comments_clicked && (5 <? scroll_attempts + 1)%Z
        then (Ok ((scroll_attempts + 1)%Z, NoMoreComments), w1)
        else scroll_loop B cfg max_comments (scroll_attempts + 1) w1
    end
  else (Ok (scroll_attempts, BudgetExhausted), w).
Proof.
  rewrite scroll_loop_equation_1.
  destruct (Z_lt_dec scroll_attempts (MAX_SCROLL_ATTEMPTS cfg));
    destruct (Z.ltb_spec scroll_attempts (MAX_SCROLL_ATTEMPTS cfg)); try lia;
    reflexivity.
Qed.

Lemma scroll_loop_from B max_comments cfg w n reason w' (m : nat) :
  forall a wa,
    (0 <= a <= Z.max 0 (MAX_SCROLL_ATTEMPTS cfg))%Z ->
    Z.to_nat (MAX_SCROLL_ATTEMPTS cfg - a) = m ->
    world_after B cfg (Z.to_nat a) w = Some wa ->
    (forall k, 0 < k <= Z.to_nat a -> stops_at B max_comments cfg k w = false) ->
    scroll_loop B cfg max_comments a wa = (Ok (n, reason), w') ->
    stopped_first B max_comments cfg w n reason w'.
Proof.
  induction m as [|m IH]; intros a wa Ha Hm Hw Hprev;
    rewrite scroll_loop_step;
    destruct (Z.ltb_spec a (MAX_SCROLL_ATTEMPTS cfg)) as [Hlt|Hge]; try lia.
  - intros [= <- <- <-]. unfold stopped_first.
    split; [lia|]. split; [exact Hw|].
    split; [intros k Hk; apply Hprev; lia|].
    split; [lia|].
    destruct (Z.to_nat a) eqn:E; [reflexivity | apply Hprev; lia].
  - assert (Es : Z.to_nat (a + 1) = S (Z.to_nat a)) by lia.
    destruct (scroll_once B cfg wa) as [[more|e] w1] eqn:Eo; [|discriminate].
    assert (Hw1 : world_after B cfg (S (Z.to_nat a)) w = Some w1)
      by (simpl; rewrite Hw, Eo; reflexivity).
    assert (Hc1 : clicked_at B cfg (S (Z.to_nat a)) w = Some more)
      by (simpl; rewrite Hw, Eo; reflexivity).
    destruct (target_reached B max_comments w1) eqn:Et.
    + intros [= <- <- <-]. unfold stopped_first. rewrite Es.
      split; [lia|]. split; [exact Hw1|].
      split; [intros k Hk; apply Hprev; lia|].
      split; [lia | exact Et].
    + destruct (negb more && (5 <? a + 1)%Z) eqn:En.
      * intros [= <- <- <-]. unfold stopped_first. rewrite Es.
        apply andb_true_iff in En. destruct En as [En1 En2].
        apply Z.ltb_lt in En2. destruct more; [discriminate|].
        split; [lia|]. split; [exact Hw1|].
        split; [intros k Hk; apply Hprev; lia|].
        split; [lia|]. split; [exact Et | exact Hc1].
      * apply IH; [lia | lia | rewrite Es; exact Hw1 |].
        rewrite Es. intros k Hk.
        destruct (Nat.eq_dec k (S (Z.to_nat a))) as [->|Hne];
          [|apply Hprev; lia].
        unfold stops_at. rewrite Hw1, Hc1, Et.
        replace (Z.of_nat (S (Z.to_nat a))) with (a + 1)%Z by lia.
        exact En.
Qed.

Lemma scroll_loop_stopped B max_comments cfg w n reason w' :
  scroll_loop B cfg max_comments 0 w = (Ok (n, reason), w') ->
  stopped_first B max_comments cfg w n reason w'.
Proof.
  apply (scroll_loop_from B max_comments cfg w n reason w'
           (Z.to_nat (MAX_SCROLL_ATTEMPTS cfg - 0)) 0%Z w);
    [lia | reflexivity | reflexivity | intros k Hk; simpl in Hk; lia].
Qed.



Lemma scroll_loop_aborted B cfg max_comments w e w' (m : nat) :
  forall a wa,
    (0 <= a)%Z ->
    Z.to_nat (MAX_SCROLL_ATTEMPTS cfg - a) = m ->
    world_after B cfg (Z.to_nat a) w = Some wa ->
    scroll_loop B cfg max_comments a wa = (Raise e, w') ->
    exists k wk,
      (Z.of_nat k < MAX_SCROLL_ATTEMPTS cfg)%Z
      /\ world_after B cfg k w = Some wk
      /\ scroll_once B cfg wk = (Raise e, w').
Proof.
  induction m as [|m IH]; intros a wa Ha Hm Hw;
    rewrite scroll_loop_step;
    destruct (Z.ltb_spec a (MAX_SCROLL_ATTEMPTS cfg)) as [Hlt|Hge]; try lia;
    try discriminate.
  assert (Es : Z.to_nat (a + 1) = S (Z.to_nat a)) by lia.
  destruct (scroll_once B cfg wa) as [[more|e'] w1] eqn:Eo.
  - destruct (target_reached B max_comments w1); [discriminate|].
    destruct (negb more && (5 <? a + 1)%Z); [discriminate|].
    apply IH; [lia | lia |].
    rewrite Es. simpl. rewrite Hw, Eo. reflexivity.
  - intros [= <- <-]. exists (Z.to_nat a), wa.
    split; [lia|]. split; [exact Hw | exact Eo].
Qed.

(** With a target of 5 and two more comments visible after every scroll,
    the loop stops after the third scroll. *)
Lemma scroll_loop_two_per_scroll B cfg w :
  (3 <= MAX_SCROLL_ATTEMPTS cfg)%Z ->
  (forall k, k <= 3 ->
     exists wk, world_after B cfg k w = Some wk
                /\ _count_visible_comments B wk = (2 * Z.of_nat k)%Z) ->
  exists w3,
    scroll_loop B cfg (Some 5%Z) 0 w = (Ok (3%Z, TargetReached), w3)
    /\ world_after B cfg 3 w = Some w3.
Proof.
  intros Hmax H.
  destruct (H 1) as (w1 & H1 & C1); [lia|].
  destruct (H 2) as (w2 & H2 & C2); [lia|].
  destruct (H 3) as (w3 & H3 & C3); [lia|].
  exists w3. split; [|exact H3].
  cbn [world_after] in H1, H2, H3.
  destruct (scroll_once B cfg w) as [[m1|e1] w1'] eqn:E1; [|discriminate].
  injection H1 as ->.
  destruct (scroll_once B cfg w1) as [[m2|e2] w2'] eqn:E2; [|discriminate].
  injection H2 as ->.
  destruct (scroll_once B cfg w2) as [[m3|e3] w3'] eqn:E3; [|discriminate].
  injection H3 as ->.
  assert (T1 : target_reached B (Some 5%Z) w1 = false)
    by (unfold target_reached; simpl; rewrite C1; reflexivity).
  assert (T2 : target_reached B (Some 5%Z) w2 = false)
    by (unfold target_reached; simpl; rewrite C2; reflexivity).
  assert (T3 : target_reached B (Some 5%Z) w3 = true)
    by (unfold target_reached; simpl; rewrite C3; reflexivity).
  rewrite scroll_loop_step.
  destruct (Z.ltb_spec 0 (MAX_SCROLL_ATTEMPTS cfg)); [|lia].
  rewrite E1, T1. change (5 <? 0 + 1)%Z with false. rewrite andb_false_r.
  rewrite scroll_loop_step.
  destruct (Z.ltb_spec (0 + 1) (MAX_SCROLL_ATTEMPTS cfg)); [|lia].
  rewrite E2, T2. change (5 <? 0 + 1 + 1)%Z with false. rewrite andb_false_r.
  rewrite scroll_loop_step.
  destruct (Z.ltb_spec (0 + 1 + 1) (MAX_SCROLL_ATTEMPTS cfg)); [|lia].
  rewrite E3, T3. reflexivity.
Qed.

(** C4.  The scroll loop of [_expand_all_comments] returns after at most
    [MAX_SCROLL_ATTEMPTS] scrolls, and after the first scroll at which one
    of its tests holds: the visible-comment count has reached a set
    target (tested after the scroll), or no load-more control was clicked
    in that scroll and it is the sixth or a later one; failing both at
    every scroll, it returns when the budget is used up.  A scroll that
    raises ends it within the budget too.  With a target of 5 and two
    more comments visible after every scroll it returns after the third
    scroll. *)
Theorem scroll_loop_stops :
  (forall B cfg max_comments w n reason w',
      scroll_loop B cfg max_comments 0 w = (Ok (n, reason), w') ->
      (0 <= n <= Z.max 0 (MAX_SCROLL_ATTEMPTS cfg))%Z
      /\ world_after B cfg (Z.to_nat n) w = Some w'
      /\ (forall k, 0 < k < Z.to_nat n -> stops_at B max_comments cfg k w = false)
      /\ match reason with
         | TargetReached =>
             (0 < n)%Z /\ max_comments_set max_comments = true
             /\ target_reached B max_comments w' = true
         | NoMoreComments =>
             (5 < n)%Z /\ target_reached B max_comments w' = false
             /\ clicked_at B cfg (Z.to_nat n) w = Some false
         | BudgetExhausted =>
             n = Z.max 0 (MAX_SCROLL_ATTEMPTS cfg)
             /\ stops_at B max_comments cfg (Z.to_nat n) w = false
         end)
  /\ (forall B cfg max_comments w e w',
        scroll_loop B cfg max_comments 0 w = (Raise e, w') ->
        exists k wk,
          (Z.of_nat k < MAX_SCROLL_ATTEMPTS cfg)%Z
          /\ world_after B cfg k w = Some wk
          /\ scroll_once B cfg wk = (Raise e, w'))
  /\ (forall B cfg w,
        (3 <= MAX_SCROLL_ATTEMPTS cfg)%Z ->
        (forall k, k <= 3 ->
           exists wk, world_after B cfg k w = Some wk
                      /\ _count_visible_comments B wk = (2 * Z.of_nat k)%Z) ->
        exists w3,
          scroll_loop B cfg (Some 5%Z) 0 w = (Ok (3%Z, TargetReached), w3)
          /\ world_after B cfg 3 w = Some w3).
Proof.
  split; [|split].
  - intros B cfg max_comments w n reason w' H.
    apply scroll_loop_stopped in H.
    destruct H as (Hn & Hw & Hk & Hr).
    repeat (split; [assumption|]).
    destruct reason; try exact Hr.
    destruct Hr as [Hpos Ht]. repeat split; try assumption.
    unfold target_reached in Ht.
    destruct (max_comments_set max_comments); [reflexivity | discriminate].
  - intros B cfg max_comments w e w' H.
    apply (scroll_loop_aborted B cfg max_comments w e w'
             (Z.to_nat (MAX_SCROLL_ATTEMPTS cfg - 0)) 0%Z w);
      [lia | reflexivity | reflexivity | exact H].
  - apply scroll_loop_two_per_scroll.
Qed.

(** The feed of [Feed] with the default budget of 10 scrolls. *)
Lemma scroll_loop_stops_witness :
  fst (scroll_loop Feed.browser default_config (Some 5%Z) 0 Feed.start)
  = Ok (3%Z, TargetReached).
Proof.
  destruct (proj2 (proj2 scroll_loop_stops) Feed.browser default_config
              Feed.start) as (w3 & H & _).
  - simpl. lia.
  - intros k Hk.
    destruct k as [|[|[|[|k]]]]; [| | | |lia];
      eexists; (split; [vm_compute; reflexivity | vm_compute; reflexivity]).
  - rewrite H. reflexivity.
Defined.

(** ** Failures and the cap on comments *)

(** A [try] whose handler returns a value never raises. *)
Lemma try_except_returns B A (m : M B A) (a : A) w :
  exists x w', try_except B m (ret B a) w = (Ok x, w').
Proof.
  unfold try_except, ret. destruct (m w) as [[x|e] w1]; eauto.
Qed.





Lemma scroll_loop_zero_cap B cfg (m : nat) :
  forall a w,
    Z.to_nat (MAX_SCROLL_ATTEMPTS cfg - a) = m ->
    scroll_loop B cfg (Some 0%Z) a w = scroll_loop B cfg None a w.
Proof.
  induction m as [|m IH]; intros a w Hm;
    rewrite (scroll_loop_step B cfg (Some 0%Z)),
            (scroll_loop_step B cfg None);
    destruct (Z.ltb_spec a (MAX_SCROLL_ATTEMPTS cfg)); try lia;
    try reflexivity.
  destruct (scroll_once B cfg w) as [[more|e] w1]; [|reflexivity].
  change (target_reached B (Some 0%Z) w1) with false.
  change (target_reached B None w1) with false.
  destruct (negb more && (5 <? a + 1)%Z); [reflexivity|].
  apply IH. lia.
Qed.

(** C10.  A cap of 0 comments is no cap: the expansion and the whole
    crawl of a post behave as with [None]; the count of visible comments
    is not consulted, so the scroll loop never stops for a reached
    target, only for want of load-more controls or of budget. *)
Theorem zero_cap_is_no_cap :
  (forall B w, target_reached B (Some 0%Z) w = false)
  /\ (forall B cfg w,
        scroll_loop B cfg (Some 0%Z) 0 w = scroll_loop B cfg None 0 w)
  /\ (forall B cfg lib w,
        _expand_all_comments B cfg lib (Some 0%Z) w
        = _expand_all_comments B cfg lib None w)
  /\ (forall B cfg lib post_url w,
        crawl_post_comments B cfg lib post_url (Some 0%Z) w
        = crawl_post_comments B cfg lib post_url None w)
  /\ (forall B cfg w n reason w',
        scroll_loop B cfg (Some 0%Z) 0 w = (Ok (n, reason), w') ->
        (reason = NoMoreComments /\ (5 < n)%Z)
        \/ (reason = BudgetExhausted /\ n = Z.max 0 (MAX_SCROLL_ATTEMPTS cfg))).
Proof.
  assert (Hloop : forall B cfg w,
             scroll_loop B cfg (Some 0%Z) 0 w = scroll_loop B cfg None 0 w).
  { intros B cfg w. apply (scroll_loop_zero_cap B cfg _ 0%Z w eq_refl). }
  assert (Hexp : forall B cfg lib w,
             _expand_all_comments B cfg lib (Some 0%Z) w
             = _expand_all_comments B cfg lib None w).
  { intros B cfg lib w. unfold _expand_all_comments, try_except, bind.
    destruct (_open_comment_section B w) as [[b|e] w1]; [|reflexivity].
    destruct (random_delay B w1) as [[u|e] w2]; [|reflexivity].
    rewrite Hloop. reflexivity. }
  split; [reflexivity|]. split; [exact Hloop|]. split; [exact Hexp|]. split.
  - intros B cfg lib post_url w. unfold crawl_post_comments, try_except, bind.
    destruct (goto B post_url (REQUEST_TIMEOUT cfg) w) as [[u|e] w1];
      [|reflexivity].
    destruct (random_delay B w1) as [[u'|e] w2]; [|reflexivity].
    rewrite Hexp. reflexivity.
  - intros B cfg w n reason w' H. apply scroll_loop_stopped in H.
    destruct H as (_ & _ & _ & Hr). destruct reason.
    + destruct Hr as [_ Ht]. discriminate Ht.
    + left. split; [reflexivity | apply Hr].
    + right. split; [reflexivity | apply Hr].
Qed.

(** On the feed, with a cap of 0, the loop runs to its sixth scroll and
    stops for want of load-more controls. *)
Lemma zero_cap_is_no_cap_witness :
  fst (scroll_loop Feed.browser default_config (Some 0%Z) 0 Feed.start)
  = Ok (6%Z, NoMoreComments)
  /\ ((NoMoreComments = NoMoreComments /\ (5 < 6)%Z)
      \/ (NoMoreComments = BudgetExhausted
          /\ 6%Z = Z.max 0 (MAX_SCROLL_ATTEMPTS default_config))).
Proof.
  split; [vm_compute; reflexivity|].
  apply (proj2 (proj2 (proj2 (proj2 zero_cap_is_no_cap))) Feed.browser
           default_config Feed.start 6%Z NoMoreComments
           (snd (scroll_loop Feed.browser default_config (Some 0%Z) 0 Feed.start))).
  vm_compute. reflexivity.
Defined.

(** * More properties of the code *)

Import JSONExporter ProfileCrawler.

(** ** Strings, continued *)

Lemma contains_infix s sub : contains s sub = true <-> infix sub s.
Proof.
  induction s as [|c t IH]; simpl.
  - destruct (strip_prefix sub []) as [r|] eqn:E.
    + apply strip_prefix_app in E. split; [|reflexivity].
      intros _. exists [], r. exact E.
    + split; [discriminate|]. intros (a & b & H).
      destruct a; [|discriminate]. simpl in H.
      assert (E' : strip_prefix sub [] = Some b) by (apply strip_prefix_app; exact H).
      congruence.
  - destruct (strip_prefix sub (c :: t)) as [r|] eqn:E.
    + apply strip_prefix_app in E. split; [|reflexivity].
      intros _. exists [], r. exact E.
    + rewrite IH. split.
      * intros (a & b & ->). exists (c :: a), b. reflexivity.
      * intros (a & b & H). destruct a as [|x a].
        -- assert (E' : strip_prefix sub (c :: t) = Some b)
             by (apply strip_prefix_app; exact H).
           congruence.
        -- injection H as _ ->. exists a, b. reflexivity.
Qed.

Lemma contains_false_infix s sub : contains s sub = false <-> ~ infix sub s.
Proof.
  rewrite <- contains_infix. destruct (contains s sub); split; congruence.
Qed.

(** A separator of one character occurs in [s] when the character does. *)
Lemma contains_char s c : contains s [c] = false <-> ~ In c s.
Proof.
  rewrite contains_false_infix. split; intros H H'; apply H.
  - apply in_split in H'. destruct H' as (a & b & ->). exists a, b. reflexivity.
  - destruct H' as (a & b & ->). apply in_or_app. right. left. reflexivity.
Qed.

Lemma find_some sep s before rest :
  find sep s = Some (before, rest) -> s = before ++ sep ++ rest.
Proof.
  revert before; induction s as [|c t IH]; intros before; simpl.
  - destruct (strip_prefix sep []) eqn:E; [|discriminate].
    intros [= <- <-]. apply strip_prefix_app in E. exact E.
  - destruct (strip_prefix sep (c :: t)) eqn:E.
    + intros [= <- <-]. apply strip_prefix_app in E. exact E.
    + destruct (find sep t) as [[b r]|]; [|discriminate].
      intros [= <- <-]. rewrite (IH b eq_refl). reflexivity.
Qed.

Lemma find_none sep s : find sep s = None <-> contains s sep = false.
Proof.
  induction s as [|c t IH]; simpl.
  - destruct (strip_prefix sep []); split; congruence.
  - destruct (strip_prefix sep (c :: t)); [split; congruence|].
    rewrite <- IH. destruct (find sep t) as [[b r]|]; split; congruence.
Qed.

(** [find] gives the first occurrence. *)
Lemma find_first sep s before rest before' rest' :
  find sep s = Some (before, rest) -> s = before' ++ sep ++ rest' ->
  length before <= length before'.
Proof.
  revert before before'; induction s as [|c t IH]; intros before before'; simpl.
  - destruct (strip_prefix sep []); [|discriminate].
    intros [= <- <-] _. simpl. lia.
  - destruct (strip_prefix sep (c :: t)) eqn:E.
    + intros [= <- <-] _. simpl. lia.
    + destruct (find sep t) as [[b r]|] eqn:F; [|discriminate].
      intros [= <- <-] H. destruct before' as [|x before'].
      * assert (E' : strip_prefix sep (c :: t) = Some rest')
          by (apply strip_prefix_app; exact H).
        congruence.
      * injection H as _ H. simpl.
        specialize (IH b before' eq_refl H). lia.
Qed.

Lemma split_by_eq sep s :
  sep <> [] ->
  split_by sep s =
  match find sep s with
  | Some (before, rest) => before :: split_by sep rest
  | None => [s]
  end.
Proof.
  intros Hsep. destruct sep as [|x sep]; [congruence|].
  rewrite split_by_equation_1.
  destruct (inspect (find (x :: sep) s)) as [[[before rest]|] E];
    cbv beta iota delta [split_by_unfold_clause_1 split_by_unfold_clause_1_clause_1];
    rewrite E; reflexivity.
Qed.

Lemma split_by_not_nil sep s : split_by sep s <> [].
Proof.
  destruct sep as [|x sep].
  - rewrite split_by_equation_1.
    destruct (inspect (find [] s)) as [[[before rest]|] E];
      cbv beta iota delta [split_by_unfold_clause_1 split_by_unfold_clause_1_clause_1];
      discriminate.
  - rewrite split_by_eq by discriminate.
    destruct (find (x :: sep) s) as [[b r]|]; discriminate.
Qed.

(** Without an occurrence of the separator the text is the only part;
    with one there are at least two parts. *)
Lemma split_by_absent sep s :
  sep <> [] -> contains s sep = false -> split_by sep s = [s].
Proof.
  intros Hsep H. rewrite split_by_eq by exact Hsep.
  apply find_none in H. rewrite H. reflexivity.
Qed.

Lemma split_by_parts sep s :
  sep <> [] -> (1 <? length (split_by sep s)) = contains s sep.
Proof.
  intros Hsep. rewrite split_by_eq by exact Hsep.
  destruct (find sep s) as [[b r]|] eqn:F.
  - assert (C : contains s sep = true).
    { destruct (contains s sep) eqn:C; [reflexivity|].
      apply find_none in C. congruence. }
    rewrite C. pose proof (split_by_not_nil sep r) as N.
    destruct (split_by sep r); [congruence|]. reflexivity.
  - apply find_none in F. rewrite F. reflexivity.
Qed.

(** The first part for a separator of one character. *)
Lemma find_char c s :
  match find [c] s with
  | Some (before, _) => before = takeWhile (fun x => negb (N.eqb c x)) s
  | None => takeWhile (fun x => negb (N.eqb c x)) s = s
  end.
Proof.
  induction s as [|x t IH]; [reflexivity|].
  cbn [find strip_prefix takeWhile].
  destruct (N.eqb c x); cbn [negb]; [reflexivity|].
  destruct (find [c] t) as [[b r]|]; congruence.
Qed.

Lemma first_part_split_char c s :
  first_part (split_by [c] s) = takeWhile (fun x => negb (N.eqb c x)) s.
Proof.
  rewrite split_by_eq by discriminate. pose proof (find_char c s) as H.
  destruct (find [c] s) as [[b r]|]; simpl; congruence.
Qed.

Lemma takeWhile_not_in c s : ~ In c (takeWhile (fun x => negb (N.eqb c x)) s).
Proof.
  induction s as [|x t IH]; simpl; [tauto|].
  destruct (N.eqb_spec c x); simpl; [tauto|]. intros [H|H]; [congruence|tauto].
Qed.

Lemma takeWhile_incl (p : char -> bool) s x : In x (takeWhile p s) -> In x s.
Proof.
  induction s as [|y t IH]; simpl; [tauto|].
  destruct (p y); simpl; tauto.
Qed.

Lemma takeWhile_all c s :
  ~ In c s -> takeWhile (fun x => negb (N.eqb c x)) s = s.
Proof.
  induction s as [|x t IH]; simpl; [reflexivity|]. intros H.
  destruct (N.eqb_spec c x); simpl; [exfalso; apply H; left; congruence|].
  rewrite IH; tauto.
Qed.

Lemma takeWhile_until c s t :
  ~ In c s -> takeWhile (fun x => negb (N.eqb c x)) (s ++ c :: t) = s.
Proof.
  induction s as [|x s IH]; simpl; intros H.
  - rewrite N.eqb_refl. reflexivity.
  - destruct (N.eqb_spec c x); simpl; [exfalso; apply H; left; congruence|].
    rewrite IH; tauto.
Qed.

Lemma app_eq_app_in (l1 r1 e r2 : str) c :
  l1 ++ r1 = e ++ c :: r2 -> length e < length l1 -> In c l1.
Proof.
  intros H Hlen. apply app_eq_app in H. destruct H as (l & [[-> H] | [-> H]]).
  - destruct l as [|y l].
    + rewrite app_nil_r in Hlen. lia.
    + injection H as <- _. apply in_or_app. right. left. reflexivity.
  - rewrite length_app in Hlen. lia.
Qed.

(** The last part: what follows the last occurrence of a separator that
    ends with a character it has nowhere else. *)
Lemma find_in_context body c p u before rest :
  ~ In c body ->
  find (body ++ [c]) (p ++ (body ++ [c]) ++ u) = Some (before, rest) ->
  (before = p /\ rest = u)
  \/ exists p', p = before ++ (body ++ [c]) ++ p'
                /\ rest = p' ++ (body ++ [c]) ++ u.
Proof.
  intros Hc F.
  pose proof (find_first _ _ _ _ _ _ F eq_refl) as Hlen.
  apply find_some in F.
  apply app_eq_app in F. destruct F as (d & [[-> F] | [-> F]]).
  2:{ rewrite length_app in Hlen. destruct d; [|simpl in Hlen; lia].
      rewrite app_nil_r. simpl in F. left. split; [reflexivity|].
      apply app_inv_head in F. symmetry. exact F. }
  destruct d as [|x d].
  { rewrite app_nil_r. simpl in F. left. split; [reflexivity|].
    apply app_inv_head in F. exact F. }
  right. symmetry in F.
  apply app_eq_app in F. destruct F as (e & [[E F] | [E F]]).
  - exists e. split.
    + rewrite E, <- app_assoc. reflexivity.
    + exact F.
  - destruct e as [|y e _] using rev_ind.
    + exists []. rewrite app_nil_r in E. simpl in F. split.
      * rewrite <- E, app_nil_r. reflexivity.
      * simpl. symmetry. exact F.
    + exfalso. rewrite app_assoc in E.
      apply app_inj_tail in E. destruct E as [E <-].
      rewrite E in F. rewrite <- !app_assoc in F. simpl in F.
      apply Hc. rewrite E.
      apply (app_eq_app_in ((x :: d) ++ e) (c :: u) e rest c).
      * rewrite <- app_assoc. exact F.
      * rewrite length_app. simpl. lia.
Qed.

Lemma last_part_cons (x : str) l : l <> [] -> last_part (x :: l) = last_part l.
Proof. destruct l; [congruence | reflexivity]. Qed.

Lemma last_part_split body c p u :
  ~ In c body -> contains u (body ++ [c]) = false ->
  last_part (split_by (body ++ [c]) (p ++ (body ++ [c]) ++ u)) = u.
Proof.
  intros Hc Hu.
  assert (Hsep : body ++ [c] <> []) by (destruct body; discriminate).
  remember (length p) as n eqn:Hn. revert p Hn.
  induction n as [n IH] using lt_wf_ind. intros p Hn.
  rewrite split_by_eq by exact Hsep.
  destruct (find (body ++ [c]) (p ++ (body ++ [c]) ++ u)) as [[before rest]|] eqn:F.
  - destruct (find_in_context _ _ _ _ _ _ Hc F) as [[-> ->] | (p' & -> & ->)].
    + rewrite split_by_absent by assumption. reflexivity.
    + rewrite last_part_cons by apply split_by_not_nil.
      apply (IH (length p')); [|reflexivity].
      subst n. rewrite !length_app. simpl. lia.
  - apply find_none, contains_false_infix in F. exfalso. apply F.
    exists p, u. reflexivity.
Qed.

Lemma rstrip_chars_slashes s k :
  last s 0%N <> 47%N -> s <> [] ->
  rstrip_chars (py "/") (s ++ repeat 47%N k) = s.
Proof.
  intros Hlast Hs. unfold rstrip_chars.
  rewrite rev_app_distr.
  rewrite rev_repeat.
  assert (D : forall t, dropWhile (fun c => existsb (N.eqb c) (py "/"))
                          (repeat 47%N k ++ t)
                        = dropWhile (fun c => existsb (N.eqb c) (py "/")) t).
  { intros t. induction k as [|k IHk]; simpl; [reflexivity|]. exact IHk. }
  rewrite D.
  destruct s as [|x s] using rev_ind; [congruence|].
  rewrite last_last in Hlast. rewrite rev_app_distr. simpl.
  destruct (N.eqb_spec x 47); [congruence|]. simpl.
  rewrite rev_involutive. reflexivity.
Qed.

Lemma last_app_ne (a b : str) d : b <> [] -> last (a ++ b) d = last b d.
Proof.
  intros Hb. destruct b as [|x b _] using rev_ind; [congruence|].
  rewrite app_assoc, !last_last. reflexivity.
Qed.

Lemma last_not_in (s : str) c : s <> [] -> ~ In c s -> last s 0%N <> c.
Proof.
  intros Hs Hc E. apply Hc. rewrite <- E.
  destruct s as [|x s] using rev_ind; [congruence|].
  rewrite last_last. apply in_or_app. right. left. reflexivity.
Qed.

(** ** utils.py *)

Lemma replace_ne_cons old new c t :
  old <> [] ->
  replace_ne old new (c :: t) =
  match strip_prefix old (c :: t) with
  | Some rest => new ++ replace_ne old new rest
  | None => c :: replace_ne old new t
  end.
Proof.
  intros Hold. destruct old as [|x old]; [congruence|].
  rewrite replace_ne_equation_2.
  destruct (inspect (strip_prefix (x :: old) (c :: t))) as [[rest|] E];
    cbv beta iota delta [replace_ne_unfold_clause_2 replace_ne_unfold_clause_2_clause_1];
    rewrite E; reflexivity.
Qed.

(** Replacing one character by another is a map over the characters. *)
Lemma replace_char s c u :
  replace s [c] [u] = map (fun x => if N.eqb c x then u else x) s.
Proof.
  unfold replace. induction s as [|x t IH].
  - rewrite replace_ne_equation_1. reflexivity.
  - rewrite replace_ne_cons by discriminate. cbn [strip_prefix map].
    destruct (N.eqb c x); rewrite IH; reflexivity.
Qed.

Lemma sanitize_filename_map filename :
  sanitize_filename filename
  = map (fun c => if str_in [c] invalid_chars then 95%N else c) filename.
Proof.
  unfold sanitize_filename, invalid_chars. cbn [fold_left].
  change (py "_") with [95%N].
  change (py "<") with [60%N]. change (py ">") with [62%N].
  change (py ":") with [58%N]. change (py "/") with [47%N].
  change (py "|") with [124%N]. change (py "?") with [63%N].
  change (py "*") with [42%N].
  rewrite !replace_char, !map_map. apply map_ext. intros x.
  unfold str_in. cbn [existsb str_eqb].
  rewrite !andb_true_r, orb_false_r.
  repeat match goal with
         | |- context [N.eqb x ?k] => rewrite (N.eqb_sym x k)
         end.
  destruct (N.eqb_spec 60 x) as [<-|]; [reflexivity|].
  destruct (N.eqb_spec 62 x) as [<-|]; [reflexivity|].
  destruct (N.eqb_spec 58 x) as [<-|]; [reflexivity|].
  destruct (N.eqb_spec 34 x) as [<-|]; [reflexivity|].
  destruct (N.eqb_spec 47 x) as [<-|]; [reflexivity|].
  destruct (N.eqb_spec 92 x) as [<-|]; [reflexivity|].
  destruct (N.eqb_spec 124 x) as [<-|]; [reflexivity|].
  destruct (N.eqb_spec 63 x) as [<-|]; [reflexivity|].
  destruct (N.eqb_spec 42 x) as [<-|]; reflexivity.
Qed.

Lemma underscore_valid : str_in [95%N] invalid_chars = false.
Proof. reflexivity. Qed.

(** X1.  [validate_url] accepts a URL exactly when its lower-case form
    contains [facebook.com] or [fb.com] somewhere; the entries
    [m.facebook.com] and [web.facebook.com] of the list never decide. *)
Theorem validate_url_two_domains lib url :
  validate_url lib url
  = contains (lower lib url) (py "facebook.com")
    || contains (lower lib url) (py "fb.com").
Proof.
  unfold validate_url. cbn [existsb].
  assert (H : forall d,
             infix (py "facebook.com") d ->
             contains (lower lib url) d = true ->
             contains (lower lib url) (py "facebook.com") = true).
  { intros d Hd H. apply contains_infix. apply contains_infix in H.
    exact (infix_trans _ _ _ Hd H). }
  pose proof (H (py "m.facebook.com")
                (ex_intro _ (py "m.") (ex_intro _ [] eq_refl))) as H1.
  pose proof (H (py "web.facebook.com")
                (ex_intro _ (py "web.") (ex_intro _ [] eq_refl))) as H2.
  destruct (contains (lower lib url) (py "facebook.com")); [reflexivity|].
  destruct (contains (lower lib url) (py "m.facebook.com"));
    [discriminate (H1 eq_refl)|].
  destruct (contains (lower lib url) (py "web.facebook.com"));
    [discriminate (H2 eq_refl)|].
  destruct (contains (lower lib url) (py "fb.com")); reflexivity.
Qed.

(** X2.  [sanitize_filename] puts an underscore in the place of each of
    the nine characters it lists and leaves every other character where
    it is: the result has the length of the name and none of the nine
    characters. *)
Theorem sanitize_filename_safe filename :
  sanitize_filename filename
  = map (fun c => if str_in [c] invalid_chars then 95%N else c) filename
  /\ length (sanitize_filename filename) = length filename
  /\ forall char, In char invalid_chars ->
                  contains (sanitize_filename filename) char = false.
Proof.
  split; [apply sanitize_filename_map|]. split.
  - rewrite sanitize_filename_map. apply length_map.
  - intros char Hin.
    assert (Hc : exists c, char = [c] /\ str_in [c] invalid_chars = true).
    { unfold invalid_chars in Hin. simpl in Hin.
      repeat (destruct Hin as [<-|Hin]; [eexists; split; reflexivity|]).
      destruct Hin. }
    destruct Hc as (c & -> & Hc).
    apply contains_char. rewrite sanitize_filename_map. intros H.
    apply in_map_iff in H. destruct H as (x & H & _).
    destruct (str_in [x] invalid_chars) eqn:Ex.
    + subst c. discriminate Hc.
    + subst x. congruence.
Qed.

(** X3.  Sanitizing twice is sanitizing once, and a name is left as it is
    exactly when it has none of the nine characters. *)
Theorem sanitize_filename_idempotent filename :
  sanitize_filename (sanitize_filename filename) = sanitize_filename filename
  /\ (sanitize_filename filename = filename
      <-> forall c, In c filename -> str_in [c] invalid_chars = false).
Proof.
  split.
  - rewrite !sanitize_filename_map, map_map. apply map_ext. intros c.
    destruct (str_in [c] invalid_chars) eqn:E; [reflexivity|].
    rewrite E. reflexivity.
  - rewrite sanitize_filename_map. split.
    + intros H c Hc.
      destruct (str_in [c] invalid_chars) eqn:E; [|reflexivity].
      exfalso. rewrite <- H in Hc. apply in_map_iff in Hc.
      destruct Hc as (x & Hx & _).
      destruct (str_in [x] invalid_chars) eqn:Ex.
      * subst c. discriminate E.
      * subst x. congruence.
    + intros H. rewrite <- (map_id filename) at 2. apply map_ext_in.
      intros c Hc. rewrite (H c Hc). reflexivity.
Qed.

(** The user name after the last [facebook.com/]. *)
Lemma username_after_host p username :
  contains username (py "/") = false ->
  contains username (py "?") = false ->
  (1 <? length (split_by (py "facebook.com/") (p ++ py "facebook.com/" ++ username)))
  = true
  /\ first_part
       (split_by (py "?")
          (first_part
             (split_by (py "/")
                (last_part
                   (split_by (py "facebook.com/")
                      (p ++ py "facebook.com/" ++ username))))))
     = username.
Proof.
  intros Hslash Hq.
  change (py "/") with [47%N] in *. change (py "?") with [63%N] in *.
  apply contains_char in Hslash. apply contains_char in Hq.
  split.
  - rewrite split_by_parts by discriminate.
    apply contains_infix. exists p, username. reflexivity.
  - change (py "facebook.com/") with (py "facebook.com" ++ [47%N]).
    rewrite last_part_split.
    + rewrite !first_part_split_char.
      rewrite (takeWhile_all 47) by exact Hslash.
      rewrite (takeWhile_all 63) by exact Hq. reflexivity.
    + vm_compute. intuition discriminate.
    + apply contains_false_infix. intros (a & b & H). apply Hslash.
      rewrite H. apply in_or_app. right. apply in_or_app. left.
      apply in_or_app. right. left. reflexivity.
Qed.

(** X4.  For a profile URL that ends with [facebook.com/] followed by a
    user name without [/] and [?], trailing slashes or not, and that is
    not of the [profile.php?id=] form, [extract_username_from_url] gives
    back the user name. *)
Theorem extract_username_round_trip p username k :
  username <> [] ->
  contains username (py "/") = false ->
  contains username (py "?") = false ->
  contains (p ++ py "facebook.com/" ++ username) (py "profile.php?id=") = false ->
  extract_username_from_url
    (p ++ py "facebook.com/" ++ username ++ repeat 47%N k) = Some username.
Proof.
  intros Hne Hslash Hq Hid.
  destruct (username_after_host p username Hslash Hq) as [Hparts Hname].
  unfold extract_username_from_url.
  replace (p ++ py "facebook.com/" ++ username ++ repeat 47%N k)
    with ((p ++ py "facebook.com/" ++ username) ++ repeat 47%N k)
    by (rewrite <- !app_assoc; reflexivity).
  rewrite rstrip_chars_slashes.
  - rewrite Hid, Hparts, Hname. reflexivity.
  - rewrite !app_assoc. rewrite last_app_ne by exact Hne.
    apply last_not_in; [exact Hne|].
    change (py "/") with [47%N] in Hslash. apply contains_char. exact Hslash.
  - destruct p; discriminate.
Qed.

Lemma extract_username_round_trip_witness :
  extract_username_from_url (py "https://www.facebook.com/john.doe//")
  = Some (py "john.doe").
Proof.
  apply (extract_username_round_trip (py "https://www.") (py "john.doe") 2);
    [discriminate | reflexivity | reflexivity | reflexivity].
Defined.

(** X5.  [extract_username_from_url] gives nothing exactly when the URL,
    its trailing slashes removed, contains neither [profile.php?id=] nor
    [facebook.com/].  A name taken after [profile.php?id=] holds no [&];
    a name taken after [facebook.com/] holds no [/] and no [?]. *)
Theorem extract_username_shape url :
  let stripped := rstrip_chars (py "/") url in
  (extract_username_from_url url = None
   <-> contains stripped (py "profile.php?id=") = false
       /\ contains stripped (py "facebook.com/") = false)
  /\ forall username,
       extract_username_from_url url = Some username ->
       if contains stripped (py "profile.php?id=")
       then contains username (py "&") = false
       else contains username (py "/") = false
            /\ contains username (py "?") = false.
Proof.
  cbv zeta. unfold extract_username_from_url.
  set (stripped := rstrip_chars (py "/") url).
  change (py "&") with [38%N]. change (py "/") with [47%N].
  change (py "?") with [63%N].
  destruct (contains stripped (py "profile.php?id=")).
  - split; [split; [discriminate | intros [H _]; discriminate H]|].
    intros username [= <-]. apply contains_char.
    rewrite first_part_split_char. apply takeWhile_not_in.
  - rewrite split_by_parts by discriminate.
    destruct (contains stripped (py "facebook.com/")).
    + split; [split; [discriminate | intros [_ H]; discriminate H]|].
      intros username [= <-]. rewrite !first_part_split_char.
      split; apply contains_char.
      * intros H. apply takeWhile_incl in H. revert H. apply takeWhile_not_in.
      * apply takeWhile_not_in.
    + split; [split; [intros _; split; reflexivity | reflexivity]|].
      discriminate.
Qed.

(** X6.  For a URL without trailing slash that ends with
    [profile.php?id=], an identifier without [&] and then nothing or
    further parameters, [extract_username_from_url] gives the
    identifier. *)
Theorem extract_username_numeric_id p id rest :
  rstrip_chars (py "/") (p ++ py "profile.php?id=" ++ id ++ rest)
  = p ++ py "profile.php?id=" ++ id ++ rest ->
  contains id (py "&") = false ->
  rest = [] \/ startswith rest (py "&") = true ->
  contains (id ++ rest) (py "profile.php?id=") = false ->
  extract_username_from_url (p ++ py "profile.php?id=" ++ id ++ rest) = Some id.
Proof.
  intros Hstrip Hid Hrest Hsep.
  change (py "&") with [38%N] in Hid. apply contains_char in Hid.
  unfold extract_username_from_url. rewrite Hstrip.
  assert (C : contains (p ++ py "profile.php?id=" ++ id ++ rest)
                (py "profile.php?id=") = true).
  { apply contains_infix. exists p, (id ++ rest). reflexivity. }
  rewrite C.
  change (py "profile.php?id=") with (py "profile.php?id" ++ [61%N]) at 1 2.
  rewrite last_part_split.
  - change (py "&") with [38%N]. rewrite first_part_split_char.
    destruct Hrest as [-> | Hrest].
    + rewrite app_nil_r, takeWhile_all by exact Hid. reflexivity.
    + unfold startswith in Hrest.
      destruct (strip_prefix (py "&") rest) as [r|] eqn:E; [|discriminate].
      apply strip_prefix_app in E. rewrite E.
      change (py "&" ++ r) with (38%N :: r).
      rewrite takeWhile_until by exact Hid. reflexivity.
  - vm_compute. intuition discriminate.
  - exact Hsep.
Qed.

Lemma extract_username_numeric_id_witness :
  extract_username_from_url
    (py "https://www.facebook.com/profile.php?id=1000123&sk=about")
  = Some (py "1000123").
Proof.
  apply (extract_username_numeric_id (py "https://www.facebook.com/")
           (py "1000123") (py "&sk=about"));
    [reflexivity | reflexivity | right; reflexivity | reflexivity].
Defined.

(** ** The author of a comment *)

Lemma author_from_selectors_blank element selectors author :
  (forall sel l, In sel selectors ->
                 query_selector element sel = Ok (Some l) ->
                 stripped_text l = []) ->
  author_from_selectors element selectors author = author.
Proof.
  induction selectors as [|sel rest IH]; intros H; [reflexivity|].
  cbn [author_from_selectors].
  assert (S : author_from_selector element sel author = (false, author)).
  { unfold author_from_selector.
    destruct (query_selector element sel) as [[l|]|e] eqn:E; try reflexivity.
    pose proof (H sel l (or_introl eq_refl) E) as Hl.
    unfold stripped_text in Hl.
    destruct (text_content l) as [raw|e]; [|reflexivity].
    rewrite Hl. reflexivity. }
  rewrite S. apply IH. intros s l Hs. apply H. right. exact Hs.
Qed.

Lemma author_from_links_first links author :
  (forall l, In l links -> exists raw, text_content l = Ok raw) ->
  (exists before link after,
      links = before ++ link :: after
      /\ author_candidate (stripped_text link) = true
      /\ (forall l, In l before -> author_candidate (stripped_text l) = false)
      /\ fst (author_from_links links author) = stripped_text link)
  \/ ((forall l, In l links -> author_candidate (stripped_text l) = false)
      /\ author_from_links links author = author).
Proof.
  induction links as [|x links IH]; intros Hok.
  - right. split; [intros l [] | reflexivity].
  - cbn [author_from_links].
    destruct (Hok x (or_introl eq_refl)) as [raw Er].
    assert (Es : stripped_text x = strip raw)
      by (unfold stripped_text; rewrite Er; reflexivity).
    rewrite Er.
    change (truthy (strip raw) && (2 <? length (strip raw))
            && negb (str_in (strip raw)
                       [Label.Like; Label.Reply; Label.Suka; Label.Balas]))
      with (author_candidate (strip raw)).
    destruct (author_candidate (strip raw)) eqn:Ec.
    + left. exists [], x, links. rewrite Es.
      repeat split; try assumption; [intros l []|].
      destruct (get_attribute x "href"); reflexivity.
    + destruct IH as [(before & link & after & -> & Hl & Hb & Hf) | [Hall Hf]].
      { intros l Hl. apply Hok. right. exact Hl. }
      * left. exists (x :: before), link, after.
        repeat split; try assumption.
        intros l [<-|Hin]; [rewrite Es; exact Ec | apply Hb; exact Hin].
      * right. split; [|exact Hf].
        intros l [<-|Hin]; [rewrite Es; exact Ec | apply Hall; exact Hin].
Qed.

(** X24.  When none of the seven author selectors finds a link with
    text, the author is taken from the links of the node, in their
    order: it is the text of the first link that has more than 2
    characters and is none of [Like], [Reply], [Suka], [Balas]; without
    such a link there is no author name and no author URL. *)
Theorem author_fallback element links :
  (forall sel l, In sel author_selectors ->
                 query_selector element sel = Ok (Some l) ->
                 stripped_text l = []) ->
  query_selector_all element "a" = Ok links ->
  (forall l, In l links -> exists raw, text_content l = Ok raw) ->
  (exists before link after,
      links = before ++ link :: after
      /\ author_candidate (stripped_text link) = true
      /\ (forall l, In l before -> author_candidate (stripped_text l) = false)
      /\ fst (extract_author element) = stripped_text link)
  \/ ((forall l, In l links -> author_candidate (stripped_text l) = false)
      /\ extract_author element = ([], [])).
Proof.
  intros Hsel Hlinks Hok. unfold extract_author.
  rewrite author_from_selectors_blank by exact Hsel.
  cbn [fst truthy negb]. rewrite Hlinks.
  apply author_from_links_first. exact Hok.
Qed.

Lemma author_fallback_witness :
  fst (extract_author two_links) = py "Carol"
  /\ ((exists before link after,
          [plain_link "Like"; plain_link " Carol "] = before ++ link :: after
          /\ author_candidate (stripped_text link) = true
          /\ (forall l, In l before -> author_candidate (stripped_text l) = false)
          /\ fst (extract_author two_links) = stripped_text link)
      \/ ((forall l, In l [plain_link "Like"; plain_link " Carol "] ->
                     author_candidate (stripped_text l) = false)
          /\ extract_author two_links = ([], []))).
Proof.
  split; [reflexivity|].
  apply (author_fallback two_links [plain_link "Like"; plain_link " Carol "]).
  - intros sel l _ H. discriminate H.
  - reflexivity.
  - intros l [<-|[<-|[]]]; eexists; reflexivity.
Defined.

(** ** The comment body and the cleaner *)

Lemma longest_text_from author_name text_elements acc body :
  longest_text author_name text_elements acc = Ok body ->
  let texts :=
    filter (body_candidate author_name) (map stripped_text text_elements) in
  (body = acc /\ forall t, In t texts -> length t <= length acc)
  \/ exists before after,
       texts = before ++ body :: after
       /\ length acc < length body
       /\ (forall t, In t before -> length t < length body)
       /\ (forall t, In t after -> length t <= length body).
Proof.
  cbv zeta. revert acc.
  induction text_elements as [|e els IH]; intros acc; cbn [longest_text map filter].
  - intros [= <-]. left. split; [reflexivity | intros t []].
  - destruct (text_content e) as [raw|err] eqn:Er; [|discriminate].
    assert (Es : stripped_text e = strip raw)
      by (unfold stripped_text; rewrite Er; reflexivity).
    rewrite Es. clear Es Er.
    set (text := strip raw).
    change (truthy text && (5 <? length text)
            && negb (str_in text [author_name; Label.Like; Label.Reply;
                                  Label.Suka; Label.Balas; Label.Komentar;
                                  Label.Comment]))
      with (body_candidate author_name text).
    set (texts := filter (body_candidate author_name) (map stripped_text els)) in *.
    destruct (body_candidate author_name text) eqn:Ec; cbn [andb].
    + destruct (Nat.ltb_spec (length acc) (length text)) as [Hlt|Hge]; intros H.
      * right.
        destruct (IH _ H) as [[-> Hall] | (before & after & E & Hl & Hb & Ha)].
        -- exists [], texts. repeat split; try assumption. intros t [].
        -- exists (text :: before), after. rewrite E.
           repeat split; try assumption; [lia|].
           intros t [<-|Ht]; [exact Hl | apply Hb; exact Ht].
      * destruct (IH _ H) as [[-> Hall] | (before & after & E & Hl & Hb & Ha)].
        -- left. split; [reflexivity|].
           intros t [<-|Ht]; [exact Hge | apply Hall; exact Ht].
        -- right. exists (text :: before), after. rewrite E.
           repeat split; try assumption.
           intros t [<-|Ht]; [lia | apply Hb; exact Ht].
    + intros H. exact (IH _ H).
Qed.

Lemma body_candidate_long author_name t :
  body_candidate author_name t = true -> 5 < length t.
Proof.
  unfold body_candidate. intros H.
  apply andb_true_iff in H. destruct H as [H _].
  apply andb_true_iff in H. destruct H as [_ H].
  apply Nat.ltb_lt in H. exact H.
Qed.

(** X7.  The first strategy for the comment body keeps, among the texts
    of more than 5 characters that are neither the author name nor an
    action label, the longest one, and the first of them when several are
    as long; without such a text it keeps nothing. *)
Theorem comment_body_is_first_longest author_name text_elements body :
  longest_text author_name text_elements [] = Ok body ->
  let texts :=
    filter (body_candidate author_name) (map stripped_text text_elements) in
  (texts = [] /\ body = [])
  \/ exists before after,
       texts = before ++ body :: after
       /\ (forall t, In t before -> length t < length body)
       /\ (forall t, In t after -> length t <= length body).
Proof.
  intros H. cbv zeta.
  destruct (longest_text_from _ _ _ _ H)
    as [[-> Hall] | (before & after & E & _ & Hb & Ha)].
  - left. split; [|reflexivity].
    destruct (filter _ _) as [|t l] eqn:E; [reflexivity|].
    assert (Ht : In t (filter (body_candidate author_name)
                         (map stripped_text text_elements)))
      by (rewrite E; left; reflexivity).
    pose proof (Hall t (or_introl eq_refl)) as Hlen.
    apply filter_In in Ht. destruct Ht as [_ Ht].
    apply body_candidate_long in Ht. simpl in Hlen. lia.
  - right. exists before, after. auto.
Qed.

Lemma comment_body_is_first_longest_witness :
  longest_text (py "Alice")
    [mkElement (Ok (py "a comment")) (fun _ => Ok None) (fun _ => Ok None)
       (fun _ => Ok []);
     mkElement (Ok (py " the reply ")) (fun _ => Ok None) (fun _ => Ok None)
       (fun _ => Ok []);
     mkElement (Ok (py "Reply")) (fun _ => Ok None) (fun _ => Ok None)
       (fun _ => Ok [])] []
  = Ok (py "a comment")
  /\ exists before after,
       [py "a comment"; py "the reply"] = before ++ py "a comment" :: after
       /\ (forall t, In t before -> length t < 9)
       /\ (forall t, In t after -> length t <= 9).
Proof.
  split; [reflexivity|].
  destruct (comment_body_is_first_longest (py "Alice")
              [mkElement (Ok (py "a comment")) (fun _ => Ok None)
                 (fun _ => Ok None) (fun _ => Ok []);
               mkElement (Ok (py " the reply ")) (fun _ => Ok None)
                 (fun _ => Ok None) (fun _ => Ok []);
               mkElement (Ok (py "Reply")) (fun _ => Ok None)
                 (fun _ => Ok None) (fun _ => Ok [])]
              (py "a comment") eq_refl)
    as [[H _] | H]; [discriminate H | exact H].
Defined.

Lemma sub_noop p s : search p s = false -> sub p s = s.
Proof.
  induction s as [|c t IH]; intros H.
  - apply sub_equation_1.
  - rewrite search_cons in H. rewrite sub_cons.
    destruct (match_at p (c :: t)); [discriminate|].
    rewrite IH by exact H. reflexivity.
Qed.

Lemma split_from_word cur w s :
  Forall (fun c => isspace c = false) w ->
  split_from cur (w ++ s) = split_from (rev w ++ cur) s.
Proof.
  intros H. revert cur. induction H as [|c w Hc _ IH]; intros cur; [reflexivity|].
  simpl. rewrite Hc, IH, <- app_assoc. reflexivity.
Qed.

Lemma split_join ws :
  (forall w, In w ws -> w <> [] /\ Forall (fun c => isspace c = false) w) ->
  split (join (py " ") ws) = ws.
Proof.
  unfold split. induction ws as [|w ws IH]; intros H; [reflexivity|].
  destruct (H w (or_introl eq_refl)) as [Hne Hw].
  assert (R : exists x r, rev w = x :: r).
  { destruct (rev w) as [|x r] eqn:E; [|eauto].
    apply (f_equal (@rev char)) in E. rewrite rev_involutive in E.
    simpl in E. congruence. }
  destruct R as (x & r & R).
  assert (R' : rev (x :: r) = w) by (rewrite <- R; apply rev_involutive).
  destruct ws as [|w2 ws].
  - simpl. rewrite <- (app_nil_r w) at 1.
    rewrite split_from_word by exact Hw. rewrite app_nil_r, R.
    cbn [split_from]. rewrite R'. reflexivity.
  - change (join (py " ") (w :: w2 :: ws))
      with (w ++ 32%N :: join (py " ") (w2 :: ws)).
    rewrite split_from_word by exact Hw. rewrite app_nil_r, R.
    cbn [split_from]. change (isspace 32%N) with true. cbv iota.
    rewrite R'. f_equal. apply IH. intros w' Hw'. apply H. right. exact Hw'.
Qed.

Lemma join_last ws :
  ws <> [] ->
  (forall w, In w ws -> w <> [] /\ Forall (fun c => isspace c = false) w) ->
  exists t z, join (py " ") ws = t ++ [z] /\ isspace z = false.
Proof.
  induction ws as [|w ws IH]; intros Hne H; [congruence|].
  destruct ws as [|w2 ws].
  - destruct (H w (or_introl eq_refl)) as [Hw Hs].
    destruct w as [|z w _] using rev_ind; [congruence|].
    exists w, z. split; [reflexivity|].
    rewrite Forall_forall in Hs. apply Hs. apply in_or_app. right. left.
    reflexivity.
  - destruct IH as (t & z & E & Hz); [discriminate | |].
    { intros w' Hw'. apply H. right. exact Hw'. }
    exists (w ++ 32%N :: t), z. split; [|exact Hz].
    change (join (py " ") (w :: w2 :: ws))
      with (w ++ 32%N :: join (py " ") (w2 :: ws)).
    unfold str in *. rewrite E, <- app_assoc. reflexivity.
Qed.

Lemma lstrip_noop c t : isspace c = false -> lstrip (c :: t) = c :: t.
Proof. intros H. unfold lstrip. simpl. rewrite H. reflexivity. Qed.

Lemma rstrip_noop t z : isspace z = false -> rstrip (t ++ [z]) = t ++ [z].
Proof.
  intros H. unfold rstrip. rewrite rev_app_distr. simpl. rewrite H.
  simpl. rewrite rev_involutive. reflexivity.
Qed.

Lemma strip_join ws :
  (forall w, In w ws -> w <> [] /\ Forall (fun c => isspace c = false) w) ->
  strip (join (py " ") ws) = join (py " ") ws.
Proof.
  intros H. destruct ws as [|w ws]; [reflexivity|].
  destruct (join_last (w :: ws)) as (t & z & E & Hz); [discriminate | exact H |].
  destruct (join_cons (py " ") w ws) as [r Hr].
  destruct (H w (or_introl eq_refl)) as [Hw Hs].
  destruct w as [|c w]; [congruence|]. inversion Hs as [|? ? Hc _]; subst.
  unfold strip. unfold str in *.
  remember (join (py " ") ((c :: w) :: ws)) as J eqn:HJ. clear HJ.
  assert (L : lstrip J = J).
  { rewrite Hr. apply (lstrip_noop c (w ++ r) Hc). }
  rewrite L, E. apply rstrip_noop. exact Hz.
Qed.

Lemma remove_urls_words s :
  exists ws,
    remove_urls s = join (py " ") ws
    /\ forall w, In w ws -> w <> [] /\ Forall (fun c => isspace c = false) w.
Proof.
  unfold remove_urls. destruct s as [|c t].
  - exists []. split; [reflexivity | intros w []].
  - cbn [truthy].
    assert (H : forall w, In w (split (sub Www (sub Http (c :: t)))) ->
                          w <> [] /\ Forall (fun c => isspace c = false) w).
    { intros w Hw. eapply split_from_words; [constructor | exact Hw]. }
    exists (split (sub Www (sub Http (c :: t)))). split; [|exact H].
    apply strip_join. exact H.
Qed.

(** X8.  The cleaned body is made of words without whitespace joined by
    one space each, with no whitespace at either end, and cleaning it
    again changes nothing. *)
Theorem remove_urls_idempotent s :
  remove_urls (remove_urls s) = remove_urls s
  /\ exists ws,
       remove_urls s = join (py " ") ws
       /\ forall w, In w ws -> w <> [] /\ Forall (fun c => isspace c = false) w.
Proof.
  split; [|apply remove_urls_words].
  pose proof (remove_urls_search Http s) as Hh.
  pose proof (remove_urls_search Www s) as Hw.
  destruct (remove_urls_words s) as (ws & E & Hws).
  revert Hh Hw. unfold str in *. rewrite E. intros Hh Hw.
  unfold remove_urls at 1.
  destruct (join (py " ") ws) as [|c t] eqn:J; [reflexivity|].
  cbn [truthy]. rewrite (sub_noop Http) by exact Hh.
  rewrite (sub_noop Www) by exact Hw.
  rewrite <- J, split_join by exact Hws. apply strip_join. exact Hws.
Qed.

(** ** The post information *)

Lemma post_author_loop_fields B selectors post_info w :
  post_url (snd (post_author_loop B selectors post_info w)) = post_url post_info
  /\ post_timestamp (snd (post_author_loop B selectors post_info w))
     = post_timestamp post_info.
Proof.
  revert post_info; induction selectors as [|sel rest IH]; intros post_info;
    cbn [post_author_loop]; [split; reflexivity|].
  destruct (page_query_selector B sel w) as [[element|]|e];
    [|apply IH|split; reflexivity].
  destruct (text_content element) as [raw|e]; [|split; reflexivity].
  cbn [set_post_author post_author].
  destruct (truthy (strip raw)); [split; reflexivity|].
  destruct (IH (set_post_author post_info (strip raw))) as [H1 H2].
  unfold set_post_author in *. rewrite H1, H2. split; reflexivity.
Qed.

Lemma post_content_elements_fields elements post_info :
  post_url (snd (post_content_elements elements post_info)) = post_url post_info
  /\ post_timestamp (snd (post_content_elements elements post_info))
     = post_timestamp post_info.
Proof.
  induction elements as [|x rest IH]; cbn [post_content_elements];
    [split; reflexivity|].
  destruct (text_content x) as [raw|e]; [|split; reflexivity].
  destruct (truthy (strip raw) && _); [split; reflexivity | exact IH].
Qed.

Lemma post_content_loop_fields B selectors post_info w :
  post_url (snd (post_content_loop B selectors post_info w)) = post_url post_info
  /\ post_timestamp (snd (post_content_loop B selectors post_info w))
     = post_timestamp post_info.
Proof.
  revert post_info; induction selectors as [|sel rest IH]; intros post_info;
    cbn [post_content_loop]; [split; reflexivity|].
  destruct (page_query_selector_all B sel w) as [elements|e];
    [|split; reflexivity].
  pose proof (post_content_elements_fields elements post_info) as [H1 H2].
  destruct (post_content_elements elements post_info) as [[[]|e] post_info'];
    cbn [fst snd] in *; [|split; assumption].
  destruct (truthy (post_content post_info')); [split; assumption|].
  destruct (IH post_info') as [H3 H4]. rewrite H3, H4. split; assumption.
Qed.

Lemma extract_post_info_fields B w :
  post_url (_extract_post_info B w) = url B w
  /\ post_timestamp (_extract_post_info B w) = [].
Proof.
  unfold _extract_post_info.
  assert (Hf : post_url (snd (post_info_unlimited B w)) = url B w
               /\ post_timestamp (snd (post_info_unlimited B w)) = []).
  { unfold post_info_unlimited.
    pose proof (post_author_loop_fields B PageSel.post_author_selectors
                  {| post_url := url B w; post_author := []; post_content := [];
                     post_timestamp := [] |} w) as [H1 H2].
    destruct (post_author_loop _ _ _ _) as [[[]|e] post_info];
      cbn [fst snd] in *; [|split; assumption].
    destruct (post_content_loop_fields B PageSel.content_selectors post_info w)
      as [H3 H4].
    rewrite H3, H4. split; assumption. }
  destruct (post_info_unlimited B w) as [[[]|e] post_info]; cbn [fst snd] in *;
    [|exact Hf].
  unfold limit_content_length.
  destruct (500 <? length (post_content post_info)); exact Hf.
Qed.

(** X9.  Whatever the page answers, the post information carries the URL
    of the page, an empty timestamp and a content of at most 503
    characters; a content of more than 500 characters is 500 characters
    followed by three dots. *)
Theorem post_info_invariants B w :
  post_url (_extract_post_info B w) = url B w
  /\ post_timestamp (_extract_post_info B w) = []
  /\ length (post_content (_extract_post_info B w)) <= 503
  /\ (500 < length (post_content (_extract_post_info B w)) ->
      exists head,
        post_content (_extract_post_info B w) = head ++ py "..."
        /\ length head = 500).
Proof.
  destruct (extract_post_info_fields B w) as [Hu Ht].
  split; [exact Hu|]. split; [exact Ht|]. clear Hu Ht.
  unfold _extract_post_info.
  pose proof (post_info_unlimited_raise B w) as Hraise.
  destruct (post_info_unlimited B w) as [[[]|e] post_info]; cbn [fst snd] in *.
  - unfold limit_content_length.
    destruct (Nat.ltb_spec 500 (length (post_content post_info))) as [Hlong|Hshort];
      cbn [set_post_content post_content].
    + assert (L : length (slice_to 500 (post_content post_info)) = 500).
      { unfold slice_to. rewrite length_firstn. lia. }
      split.
      * rewrite length_app, L. simpl. lia.
      * intros _. eexists. split; [reflexivity | exact L].
    + split; lia.
  - rewrite (Hraise e eq_refl). split; simpl; lia.
Qed.

(** ** The records of one post *)

Lemma py_inj a b : py a = py b -> a = b.
Proof.
  unfold py. intros H.
  rewrite <- (string_of_list_ascii_of_string a),
          <- (string_of_list_ascii_of_string b).
  f_equal.
  apply (f_equal (map ascii_of_N)) in H. rewrite !map_map in H.
  rewrite !(map_ext _ (fun x => x) ascii_N_embedding), !map_id in H.
  exact H.
Qed.

Lemma str_of_nat_inj a b : str_of_nat a = str_of_nat b -> a = b.
Proof.
  unfold str_of_nat. intros H. apply py_inj in H.
  assert (N : forall n, Nat.to_uint n <> Decimal.Nil).
  { intros n E. pose proof (Unsigned.of_to n) as H'. rewrite E in H'.
    simpl in H'. subst n. discriminate E. }
  apply Unsigned.to_uint_inj.
  pose proof (NilZero.usu _ (N a)) as Ha. pose proof (NilZero.usu _ (N b)) as Hb.
  rewrite H in Ha. congruence.
Qed.

Lemma extract_single_comment_clock lib element post_info now now' :
  _extract_single_comment lib element post_info now = None ->
  _extract_single_comment lib element post_info now' = None.
Proof.
  rewrite !extract_single_comment_cases.
  destruct (extract_body (fst (extract_author element)) element);
    [|reflexivity].
  cbv zeta. destruct (length (remove_urls _) <? 2); [reflexivity|].
  destruct (extract_timestamp lib _ _ element); [discriminate | reflexivity].
Qed.

Lemma extract_single_comment_fields lib element post_info now c :
  _extract_single_comment lib element post_info now = Some c ->
  post c = post_info /\ comment_author_name c <> []
  /\ parent_comment_id c = [] /\ crawled_at c = now /\ comment_id c = None.
Proof.
  rewrite extract_single_comment_cases.
  destruct (extract_body (fst (extract_author element)) element)
    as [body|e]; [|discriminate].
  cbv zeta. destruct (length (remove_urls body) <? 2); [discriminate|].
  destruct (extract_timestamp lib _ _ element); [|discriminate].
  intros [= <-]. cbn. repeat split.
  destruct (fst (extract_author element)); discriminate.
Qed.

Lemma extract_each_records B lib idx elements post_info w c :
  In c (fst (extract_each B lib idx elements post_info w)) ->
  exists i element now c',
    nth_error elements i = Some element
    /\ _extract_single_comment lib element post_info now = Some c'
    /\ c = set_comment_id c' (py "comment_" ++ str_of_nat (idx + i)).
Proof.
  revert idx w; induction elements as [|element rest IH]; intros idx w;
    cbn [extract_each]; [intros []|].
  destruct (now_isoformat B w) as [now w1].
  destruct (_extract_single_comment lib element post_info now)
    as [c'|] eqn:E.
  - specialize (IH (S idx) w1).
    destruct (extract_each B lib (S idx) rest post_info w1) as [comments w2].
    cbn [fst] in *. intros [<-|H].
    + exists 0, element, now, c'. rewrite Nat.add_0_r. auto.
    + destruct (IH H) as (i & el & now' & c'' & Hn & He & ->).
      exists (S i), el, now', c''. rewrite Nat.add_succ_r. auto.
  - intros H. destruct (IH _ _ H) as (i & el & now' & c'' & Hn & He & ->).
    exists (S i), el, now', c''. rewrite Nat.add_succ_r. auto.
Qed.

Lemma extract_each_found B lib idx elements post_info w i element now c' :
  nth_error elements i = Some element ->
  _extract_single_comment lib element post_info now = Some c' ->
  exists now' c'',
    _extract_single_comment lib element post_info now' = Some c''
    /\ In (set_comment_id c'' (py "comment_" ++ str_of_nat (idx + i)))
         (fst (extract_each B lib idx elements post_info w)).
Proof.
  revert idx w i; induction elements as [|x rest IH]; intros idx w [|i] Hn He;
    try discriminate Hn; cbn [extract_each nth_error] in *.
  - injection Hn as ->.
    destruct (now_isoformat B w) as [now0 w1].
    destruct (_extract_single_comment lib element post_info now0)
      as [c0|] eqn:E0.
    + exists now0, c0. split; [exact E0|].
      destruct (extract_each B lib (S idx) rest post_info w1).
      rewrite Nat.add_0_r. left. reflexivity.
    + apply (extract_single_comment_clock _ _ _ _ now) in E0. congruence.
  - rewrite Nat.add_succ_r.
    destruct (now_isoformat B w) as [now0 w1].
    destruct (_extract_single_comment lib x post_info now0).
    + destruct (IH (S idx) w1 i Hn He) as (now' & c'' & E & Hin).
      exists now', c''. split; [exact E|].
      destruct (extract_each B lib (S idx) rest post_info w1).
      right. exact Hin.
    + exact (IH (S idx) w i Hn He).
Qed.

Lemma extract_each_length B lib idx elements post_info w :
  length (fst (extract_each B lib idx elements post_info w)) <= length elements.
Proof.
  revert idx w; induction elements as [|element rest IH]; intros idx w;
    cbn [extract_each]; [reflexivity|].
  destruct (now_isoformat B w) as [now w1].
  destruct (_extract_single_comment lib element post_info now).
  - specialize (IH (S idx) w1).
    destruct (extract_each B lib (S idx) rest post_info w1).
    cbn [fst length] in *. lia.
  - specialize (IH (S idx) w). cbn [length]. lia.
Qed.

Lemma extract_each_ids B lib idx elements post_info w :
  exists positions,
    map comment_id (fst (extract_each B lib idx elements post_info w))
    = map (fun i => Some (py "comment_" ++ str_of_nat i)) positions
    /\ NoDup positions
    /\ Forall (fun i => idx <= i) positions.
Proof.
  revert idx w; induction elements as [|element rest IH]; intros idx w;
    cbn [extract_each].
  - exists []. repeat split; constructor.
  - destruct (now_isoformat B w) as [now w1].
    destruct (_extract_single_comment lib element post_info now).
    + destruct (IH (S idx) w1) as (positions & E & Hs & Hr).
      destruct (extract_each B lib (S idx) rest post_info w1).
      cbn [fst] in *.
      exists (idx :: positions). cbn [map set_comment_id comment_id].
      rewrite E. repeat split.
      * constructor; [|exact Hs].
        intros Hin. rewrite Forall_forall in Hr. specialize (Hr idx Hin). lia.
      * constructor; [lia|].
        eapply Forall_impl; [|exact Hr]. simpl. intros i Hi. lia.
    + destruct (IH (S idx) w) as (positions & E & Hs & Hr).
      exists positions. repeat split; try assumption.
      eapply Forall_impl; [|exact Hr]. simpl. intros i Hi. lia.
Qed.

Lemma extract_each_clock B lib idx elements post_info w :
  map crawled_at (fst (extract_each B lib idx elements post_info w))
  = clock_readings B
      (length (fst (extract_each B lib idx elements post_info w))) w.
Proof.
  revert idx w; induction elements as [|element rest IH]; intros idx w;
    cbn [extract_each]; [reflexivity|].
  destruct (now_isoformat B w) as [now w1] eqn:En.
  destruct (_extract_single_comment lib element post_info now) as [c|] eqn:E.
  - specialize (IH (S idx) w1).
    destruct (extract_each B lib (S idx) rest post_info w1).
    cbn [fst map length clock_readings set_comment_id crawled_at] in *.
    rewrite En, IH. f_equal.
    apply extract_single_comment_fields in E. tauto.
  - apply IH.
Qed.

Lemma NoDup_map_injective {A C} (f : A -> C) l :
  (forall a b, f a = f b -> a = b) -> NoDup l -> NoDup (map f l).
Proof.
  intros Hf H. induction H as [|x l Hx _ IH]; simpl; constructor; [|exact IH].
  intros Hin. apply in_map_iff in Hin. destruct Hin as (y & Hy & Hin).
  apply Hf in Hy. subst y. exact (Hx Hin).
Qed.

(** X10.  The records of [_extract_comments] come from the candidate
    nodes in their order, one for each node that gives a record and none
    cut off; a record has the identifier [comment_] followed by the
    position of its node among the candidates, so that no two records of
    a post have the same identifier.  The clock is read once for each
    record: the records carry, in their order, the successive readings
    of the clock that start after the pause. *)
Theorem comment_ids_are_positions B lib post_info w :
  exists comments elements,
    fst (_extract_comments B lib post_info w) = Ok comments
    /\ match find_comment_elements B PageSel.comment_selectors (sleep B w) with
       | Ok found => elements = found
       | Raise _ => elements = []
       end
    /\ length comments <= length elements
    /\ NoDup (map comment_id comments)
    /\ map crawled_at comments
       = clock_readings B (length comments) (sleep B w)
    /\ (forall c, In c comments ->
          exists i element now c',
            nth_error elements i = Some element
            /\ _extract_single_comment lib element post_info now = Some c'
            /\ c = set_comment_id c' (py "comment_" ++ str_of_nat i))
    /\ (forall i element now c',
          nth_error elements i = Some element ->
          _extract_single_comment lib element post_info now = Some c' ->
          exists now' c'',
            _extract_single_comment lib element post_info now' = Some c''
            /\ In (set_comment_id c'' (py "comment_" ++ str_of_nat i))
                 comments).
Proof.
  rewrite extract_comments_unfold.
  destruct (find_comment_elements B PageSel.comment_selectors (sleep B w))
    as [elements|e].
  2:{ exists [], []. cbn [fst]. repeat split; try constructor.
      - intros c [].
      - intros [|i] element now c' H; discriminate H. }
  exists (fst (extract_each B lib 0 elements post_info (sleep B w))), elements.
  cbn [fst]. split; [reflexivity|]. split; [reflexivity|].
  destruct (extract_each_ids B lib 0 elements post_info (sleep B w))
    as (positions & E & Hs & Hr).
  split; [|split; [|split; [|split]]].
  - apply extract_each_length.
  - rewrite E. apply NoDup_map_injective; [|exact Hs].
    intros a b H. injection H as H. apply str_of_nat_inj. exact H.
  - apply extract_each_clock.
  - intros c Hc. apply extract_each_records in Hc. exact Hc.
  - intros i element now c'. apply (extract_each_found B lib 0).
Qed.

(** Under a clock that ticks, the three records of the page carry three
    times, and the clock has been read three times. *)
Example records_have_their_own_time :
  match _extract_comments ticking_page AsciiLib.lib Scenario.post0 0 with
  | (Ok comments, readings) => (map crawled_at comments, readings)
  | (Raise _, readings) => ([], readings)
  end
  = ([py "2024-01-01T00:00:00"; py "2024-01-01T00:00:01";
      py "2024-01-01T00:00:02"], 3).
Proof. vm_compute. reflexivity. Qed.

(** X11.  All the records of one [crawl_post_comments] carry the same
    post information, the one read from the page after the navigation
    and the pause: its URL is the URL of that page, not the URL asked
    for.  Each record has an author name, an empty parent identifier and
    an identifier. *)
Theorem crawl_records_share_post_info B cfg lib target max_comments w :
  exists comments,
    fst (crawl_post_comments B cfg lib target max_comments w) = Ok comments
    /\ forall c, In c comments ->
         post c = _extract_post_info B
                    (sleep B (snd (goto B target (REQUEST_TIMEOUT cfg) w)))
         /\ post_url (post c)
            = url B (sleep B (snd (goto B target (REQUEST_TIMEOUT cfg) w)))
         /\ comment_author_name c <> []
         /\ parent_comment_id c = []
         /\ comment_id c <> None.
Proof.
  unfold crawl_post_comments, try_except, bind, random_delay, ret.
  destruct (goto B target (REQUEST_TIMEOUT cfg) w) as [[[]|e] w0];
    cbn [fst snd]; [|exists []; split; [reflexivity | intros c []]].
  set (w1 := sleep B w0).
  destruct (_expand_all_comments B cfg lib max_comments w1) as [[[]|e] w2];
    [|exists []; split; [reflexivity | intros c []]].
  rewrite extract_comments_unfold.
  destruct (find_comment_elements B PageSel.comment_selectors (sleep B w2))
    as [elements|e]; [|exists []; split; [reflexivity | intros c []]].
  eexists. split; [reflexivity|]. cbn [fst].
  intros c Hc. apply extract_each_records in Hc.
  destruct Hc as (i & element & now & c' & _ & He & ->).
  apply extract_single_comment_fields in He.
  destruct He as (Hp & Ha & Hpa & _ & _).
  cbn [set_comment_id post comment_author_name parent_comment_id comment_id].
  rewrite Hp. repeat split; try assumption.
  - apply extract_post_info_fields.
  - discriminate.
Qed.

(** ** Scrolling *)

Lemma scroll_increments_position B position (O : Odometer B position)
  n amount duration selector w :
  Seconds.nonneg duration = true ->
  fst (scroll_increments B n amount duration selector w) = Ok tt
  /\ position (snd (scroll_increments B n amount duration selector w))
     = (position w + Z.of_nat n * amount)%Z.
Proof.
  intros Hd. revert w; induction n as [|n IH]; intros w.
  - cbn [scroll_increments ret fst snd]. split; [reflexivity | lia].
  - cbn [scroll_increments]. unfold bind.
    destruct (scroll_moves B position O amount selector w) as [H1 H2].
    destruct (evaluate_scroll B amount selector w) as [r w1].
    cbn [fst snd] in H1, H2. subst r.
    destruct (pause_stays B position O duration w1 Hd) as [H3 H4].
    destruct (sleep_pause B duration w1) as [r w2].
    cbn [fst snd] in H3, H4. subst r.
    destruct (IH w2) as [H5 H6].
    split; [exact H5|]. rewrite H6, H4, H2. lia.
Qed.

Lemma pause_share_nonneg pause increments :
  Seconds.nonneg pause = true ->
  (3 <= increments <= 5)%Z ->
  Seconds.nonneg (Seconds.div pause (Seconds.of_int increments)) = true.
Proof.
  intros Hp Hc.
  assert (Hi : increments = 3%Z \/ increments = 4%Z \/ increments = 5%Z) by lia.
  destruct pause as [a b].
  unfold Seconds.nonneg, Seconds.div, Seconds.of_int, QArith_base.Qle_bool in *.
  cbn in Hp.
  destruct Hi as [-> | [-> | ->]]; cbn; apply Z.leb_le; apply Z.leb_le in Hp;
    lia.
Qed.

(** X12.  On a page with a scroll position, [human_like_scroll] with a
    pause that is not negative returns and moves the page by the amount
    asked or by up to 4 pixels less, never by more; an amount that 3, 4
    and 5 divide, as the 600 pixels of the comment loop, is covered
    exactly.  The pause is [pause_time], or half of
    [Config.SCROLL_PAUSE_TIME] when [pause_time] is [None] or zero. *)
Theorem human_like_scroll_distance B cfg position (O : Odometer B position)
  scroll_amount pause_time selector w :
  Seconds.nonneg (scroll_pause cfg pause_time) = true ->
  fst (human_like_scroll B cfg scroll_amount pause_time selector w) = Ok tt
  /\ (scroll_amount - 4
      <= position
           (snd (human_like_scroll B cfg scroll_amount pause_time selector w))
         - position w
      <= scroll_amount)%Z
  /\ ((scroll_amount mod 60 = 0)%Z ->
      position
        (snd (human_like_scroll B cfg scroll_amount pause_time selector w))
      = (position w + scroll_amount)%Z).
Proof.
  intros Hp. unfold human_like_scroll.
  pose proof (draw_range B position O w) as Hn.
  pose proof (draw_stays B position O w) as Hw.
  destruct (randint B 3 5 w) as [n w1]. cbn [fst snd] in Hn, Hw.
  destruct (scroll_increments_position B position O (Z.to_nat n)
              (scroll_amount / n)
              (Seconds.div (scroll_pause cfg pause_time) (Seconds.of_int n))
              selector w1 (pause_share_nonneg _ _ Hp Hn)) as [H1 H2].
  split; [exact H1|]. rewrite H2, Hw, Z2Nat.id by lia.
  assert (Hz : (scroll_amount mod 60 = 0)%Z -> (scroll_amount mod n = 0)%Z).
  { intros H60. apply Z.mod_divide; [lia|].
    apply Z.mod_divide in H60; [|lia].
    apply (Z.divide_trans _ 60); [|exact H60].
    assert (Hc : n = 3%Z \/ n = 4%Z \/ n = 5%Z) by lia.
    destruct Hc as [-> | [-> | ->]];
      [exists 20%Z | exists 15%Z | exists 12%Z]; reflexivity. }
  pose proof (Z.div_mod scroll_amount n ltac:(lia)) as Hd.
  pose proof (Z.mod_pos_bound scroll_amount n ltac:(lia)) as Hm.
  revert Hz Hd Hm.
  generalize (scroll_amount / n)%Z, (scroll_amount mod n)%Z.
  intros d m Hz Hd Hm. split; [lia|].
  intros H60. specialize (Hz H60). lia.
Qed.

Lemma human_like_scroll_distance_witness :
  Seconds.nonneg (scroll_pause default_config None) = true
  /\ fst (snd (human_like_scroll Feed.browser default_config 600 None None
                 Feed.start)) = 600%Z.
Proof.
  assert (O : Odometer Feed.browser fst).
  { constructor.
    - intros amount selector w. split; reflexivity.
    - intros d w Hd. cbn [Feed.browser sleep_pause]. rewrite Hd.
      split; reflexivity.
    - intros w. reflexivity.
    - intros w. cbn [Feed.browser randint fst].
      change (5 - 3 + 1)%Z with 3%Z.
      pose proof (Z.mod_pos_bound (snd w) 3 ltac:(lia)) as Hb. revert Hb.
      generalize (snd w mod 3)%Z. intros m Hb. lia. }
  split; [reflexivity|].
  destruct (human_like_scroll_distance Feed.browser default_config fst O 600
              None None Feed.start eq_refl) as (_ & _ & H).
  rewrite H; reflexivity.
Defined.

(** With a negative [SCROLL_PAUSE_TIME] the first pause raises, after
    one step of the scroll. *)
Example negative_pause_raises :
  human_like_scroll Feed.browser negative_pause_config 600 None None Feed.start
  = (Raise OtherError, (200%Z, 1%Z)).
Proof. vm_compute. reflexivity. Qed.

(** ** Counting and expanding *)

Lemma count_first_nonempty_cases B selectors w n :
  count_first_nonempty B selectors w = Ok n ->
  (n = 0%Z /\ forall s, In s selectors -> page_query_selector_all B s w = Ok [])
  \/ exists before selector after comments,
       selectors = before ++ selector :: after
       /\ (forall s, In s before -> page_query_selector_all B s w = Ok [])
       /\ page_query_selector_all B selector w = Ok comments
       /\ comments <> []
       /\ n = Z.of_nat (length comments).
Proof.
  revert n; induction selectors as [|sel rest IH]; intros n;
    cbn [count_first_nonempty].
  - intros [= <-]. left. split; [reflexivity | intros s []].
  - destruct (page_query_selector_all B sel w) as [[|x l]|e] eqn:E;
      [ |intros [= <-]|discriminate].
    + intros H.
      destruct (IH _ H) as [[-> Hall] | (before & s & after & cs & -> & Hb & Hs & Hne & ->)].
      * left. split; [reflexivity|].
        intros s [<-|Hin]; [exact E | apply Hall; exact Hin].
      * right. exists (sel :: before), s, after, cs.
        repeat split; try assumption.
        intros s' [<-|Hin]; [exact E | apply Hb; exact Hin].
    + right. exists [], sel, rest, (x :: l).
      repeat split; try assumption; [intros s [] | discriminate].
Qed.

Lemma count_first_nonempty_found B before selector after comments w :
  (forall s, In s before -> page_query_selector_all B s w = Ok []) ->
  page_query_selector_all B selector w = Ok comments ->
  comments <> [] ->
  count_first_nonempty B (before ++ selector :: after) w
  = Ok (Z.of_nat (length comments)).
Proof.
  intros Hb Hs Hne. induction before as [|s before IH];
    cbn [app count_first_nonempty].
  - rewrite Hs. destruct comments; [congruence | reflexivity].
  - rewrite (Hb s (or_introl eq_refl)). apply IH.
    intros s' Hs'. apply Hb. right. exact Hs'.
Qed.

(** X13.  The number of visible comments is the number of matches of the
    first of the three container selectors that has any, as long as no
    earlier query raised; it is 0 when none has a match or a query raises
    first, and it is never negative. *)
Theorem count_visible_comments_first_match B w :
  (0 <= _count_visible_comments B w)%Z
  /\ (_count_visible_comments B w <> 0%Z ->
      exists before selector after comments,
        PageSel.count_selectors = before ++ selector :: after
        /\ (forall s, In s before -> page_query_selector_all B s w = Ok [])
        /\ page_query_selector_all B selector w = Ok comments
        /\ _count_visible_comments B w = Z.of_nat (length comments))
  /\ (forall before selector after comments,
        PageSel.count_selectors = before ++ selector :: after ->
        (forall s, In s before -> page_query_selector_all B s w = Ok []) ->
        page_query_selector_all B selector w = Ok comments ->
        comments <> [] ->
        _count_visible_comments B w = Z.of_nat (length comments))
  /\ (forall before selector after e,
        PageSel.count_selectors = before ++ selector :: after ->
        (forall s, In s before -> page_query_selector_all B s w = Ok []) ->
        page_query_selector_all B selector w = Raise e ->
        _count_visible_comments B w = 0%Z).
Proof.
  unfold _count_visible_comments.
  split; [|split; [|split]].
  - destruct (count_first_nonempty B PageSel.count_selectors w) as [n|e] eqn:E;
      [|lia].
    apply count_first_nonempty_cases in E.
    destruct E as [[-> _] | (_ & _ & _ & cs & _ & _ & _ & _ & ->)]; lia.
  - destruct (count_first_nonempty B PageSel.count_selectors w) as [n|e] eqn:E;
      [|congruence].
    intros Hn. apply count_first_nonempty_cases in E.
    destruct E as [[-> _] | (before & s & after & cs & E & Hb & Hs & _ & ->)];
      [congruence|].
    exists before, s, after, cs. auto.
  - intros before selector after comments -> Hb Hs Hne.
    rewrite (count_first_nonempty_found B before selector after comments w);
      auto.
  - intros before selector after e -> Hb Hs.
    assert (R : count_first_nonempty B (before ++ selector :: after) w = Raise e).
    { clear - Hb Hs. induction before as [|s before IH];
        cbn [app count_first_nonempty].
      - rewrite Hs. reflexivity.
      - rewrite (Hb s (or_introl eq_refl)). apply IH.
        intros s' Hs'. apply Hb. right. exact Hs'. }
    rewrite R. reflexivity.
Qed.

(** X14.  None of the expansion steps raises, whatever the browser
    does: opening the comment section and clicking the buttons for more
    comments return a truth value, expanding the replies, the truncated
    texts and the comments as a whole return. *)
Theorem expansion_never_raises B cfg lib max_comments w :
  (exists clicked, fst (_open_comment_section B w) = Ok clicked)
  /\ (exists clicked, fst (_click_view_more_buttons B w) = Ok clicked)
  /\ fst (_expand_all_replies B w) = Ok tt
  /\ fst (_expand_see_more_in_comments B lib w) = Ok tt
  /\ fst (_expand_all_comments B cfg lib max_comments w) = Ok tt.
Proof.
  unfold _open_comment_section, _click_view_more_buttons, _expand_all_replies,
    _expand_see_more_in_comments, _expand_all_comments.
  repeat split.
  - destruct (try_except_returns B _ (open_comment_buttons B PageSel.comment_button_selectors) false w)
      as (x & w' & ->). exists x. reflexivity.
  - destruct (try_except_returns B _ (click_view_more B PageSel.view_more_selectors false) false w)
      as (x & w' & ->). exists x. reflexivity.
  - destruct (try_except_returns B _ (expand_replies B PageSel.reply_selectors) tt w)
      as ([] & w' & ->). reflexivity.
  - destruct (try_except_returns B _ (expand_see_more B lib PageSel.see_more_selectors) tt w)
      as ([] & w' & ->). reflexivity.
  - match goal with
    | |- fst (try_except B ?m (ret B tt) w) = _ =>
        destruct (try_except_returns B _ m tt w) as ([] & w' & ->)
    end.
    reflexivity.
Qed.

(** ** The loop over the posts *)

(** X15.  The loop over the posts calls [crawl_post_comments] once for
    each post URL, in order, every crawl in the world the one before it
    left; after the loop the exporter buffer holds what it held before
    followed by the records those calls returned, in the order of the
    posts, none dropped and none added, so that its length grows by the
    number of records returned. *)
Theorem buffer_is_all_results B cfg lib post_urls max_comments buffer w :
  fst (fst (crawl_posts B cfg lib post_urls max_comments buffer w))
  = results_of B cfg lib post_urls max_comments w
  /\ snd (fst (crawl_posts B cfg lib post_urls max_comments buffer w))
     = buffer ++ concat (results_of B cfg lib post_urls max_comments w)
  /\ length (snd (fst (crawl_posts B cfg lib post_urls max_comments buffer w)))
     = length buffer
       + list_sum (map (@length _)
           (results_of B cfg lib post_urls max_comments w)).
Proof.
  assert (H : fst (fst (crawl_posts B cfg lib post_urls max_comments buffer w))
              = results_of B cfg lib post_urls max_comments w
              /\ snd (fst (crawl_posts B cfg lib post_urls max_comments buffer w))
                 = buffer
                   ++ concat (results_of B cfg lib post_urls max_comments w)).
  { revert buffer w; induction post_urls as [|u rest IH]; intros buffer w;
      cbn [crawl_posts results_of].
    - simpl. rewrite app_nil_r. split; reflexivity.
    - destruct (crawl_post_comments B cfg lib u max_comments w)
        as [[comments|e] w1].
      + specialize (IH (match comments with
                        | [] => buffer
                        | _ :: _ => buffer ++ comments
                        end) w1).
        destruct (crawl_posts B cfg lib rest max_comments _ w1)
          as [[per_post buf] w2].
        cbn [fst snd concat] in *. destruct IH as [-> ->].
        split; [reflexivity|].
        destruct comments; [reflexivity|]. rewrite <- app_assoc. reflexivity.
      + specialize (IH buffer w1).
        destruct (crawl_posts B cfg lib rest max_comments buffer w1)
          as [[per_post buf] w2].
        cbn [fst snd concat] in *. destruct IH as [-> ->].
        split; reflexivity. }
  destruct H as [H1 H2].
  split; [exact H1|]. split; [exact H2|]. rewrite H2, length_app. f_equal.
  generalize (results_of B cfg lib post_urls max_comments w).
  intros l. induction l as [|x l IHl]; simpl; [reflexivity|].
  rewrite length_app, IHl. reflexivity.
Qed.

(** Two posts of three comments each leave six records in an empty
    buffer, those of the first post first. *)
Example two_posts_six_records :
  map (@length _) (fst (fst two_posts)) = [3; 3]
  /\ map comment_text (snd (fst two_posts))
     = [py "What a view"; py "Nice post!!"; py "Thanks for sharing";
        py "What a view"; py "Nice post!!"; py "Thanks for sharing"]
  /\ map comment_id (snd (fst two_posts))
     = [Some (py "comment_0"); Some (py "comment_1"); Some (py "comment_2");
        Some (py "comment_0"); Some (py "comment_1"); Some (py "comment_2")].
Proof. repeat split; vm_compute; reflexivity. Qed.

(** ** json_exporter.py *)

Lemma value_eqb_eq a b : value_eqb a b = true <-> a = b.
Proof.
  destruct a as [x|x], b as [y|y]; simpl.
  - rewrite str_eqb_eq. split; congruence.
  - split; discriminate.
  - split; discriminate.
  - rewrite Z.eqb_eq. split; congruence.
Qed.

Lemma value_eqb_refl a : value_eqb a a = true.
Proof. apply value_eqb_eq. reflexivity. Qed.

Lemma value_eqb_neq a b : value_eqb a b = false <-> a <> b.
Proof.
  rewrite <- value_eqb_eq. destruct (value_eqb a b); split; congruence.
Qed.

Lemma existsb_value v s : existsb (value_eqb v) s = true <-> In v s.
Proof.
  rewrite existsb_exists. split.
  - intros (x & Hx & E). apply value_eqb_eq in E. subst x. exact Hx.
  - intros H. exists v. split; [exact H | apply value_eqb_refl].
Qed.

Lemma set_add_In s v x : In x (set_add s v) <-> In x s \/ x = v.
Proof.
  unfold set_add. destruct (existsb (value_eqb v) s) eqn:E.
  - apply existsb_value in E. split; [tauto|]. intros [H | ->]; assumption.
  - rewrite in_app_iff. simpl. intuition (subst; auto).
Qed.

Lemma set_add_NoDup s v : NoDup s -> NoDup (set_add s v).
Proof.
  intros H. unfold set_add. destruct (existsb (value_eqb v) s) eqn:E;
    [exact H|].
  assert (Hv : ~ In v s).
  { intros Hin. apply existsb_value in Hin. congruence. }
  clear E. induction H as [|x s Hx _ IH]; simpl.
  - constructor; [intros [] | constructor].
  - constructor.
    + rewrite in_app_iff. simpl. intros [H|[H|[]]]; [tauto|].
      apply Hv. left. symmetry. exact H.
    + apply IH. intros H. apply Hv. right. exact H.
Qed.

Lemma fold_set_add_In l s x :
  In x (fold_left set_add l s) <-> In x s \/ In x l.
Proof.
  revert s; induction l as [|v l IH]; intros s; simpl; [tauto|].
  rewrite IH, set_add_In. split; intros H; intuition (subst; auto).
Qed.

Lemma fold_set_add_NoDup l s : NoDup s -> NoDup (fold_left set_add l s).
Proof.
  revert s; induction l as [|v l IH]; intros s H; simpl; [exact H|].
  apply IH, set_add_NoDup, H.
Qed.

Lemma distinct_In l x : In x (distinct l) <-> In x l.
Proof. unfold distinct. rewrite fold_set_add_In. simpl. tauto. Qed.

Lemma distinct_NoDup l : NoDup (distinct l).
Proof. apply fold_set_add_NoDup. constructor. Qed.

Lemma distinct_snoc l v : distinct (l ++ [v]) = set_add (distinct l) v.
Proof. unfold distinct. rewrite fold_left_app. reflexivity. Qed.

Lemma comments_of_snoc k data c :
  comments_of k (data ++ [c])
  = comments_of k data ++ (if value_eqb (post_url_of c) k then [c] else []).
Proof. unfold comments_of. rewrite filter_app. reflexivity. Qed.

Lemma append_to_present keys data k c :
  NoDup keys -> In k keys ->
  post_url_of c = k ->
  append_to (map (fun k' => (k', comments_of k' data)) keys) k c
  = map (fun k' => (k', comments_of k' (data ++ [c]))) keys.
Proof.
  intros Hnd Hin Hk. induction Hnd as [|x keys Hx Hnd IH]; [destruct Hin|].
  cbn [map append_to]. destruct (value_eqb x k) eqn:E.
  - apply value_eqb_eq in E. subst x.
    rewrite comments_of_snoc, Hk, value_eqb_refl. f_equal.
    apply map_ext_in. intros k' Hk'. rewrite comments_of_snoc.
    assert (N : value_eqb (post_url_of c) k' = false).
    { apply value_eqb_neq. rewrite Hk. intros ->. exact (Hx Hk'). }
    rewrite N, app_nil_r. reflexivity.
  - destruct Hin as [->|Hin]; [rewrite value_eqb_refl in E; discriminate|].
    rewrite comments_of_snoc.
    assert (N : value_eqb (post_url_of c) x = false).
    { apply value_eqb_neq. rewrite Hk. intros ->.
      rewrite value_eqb_refl in E. discriminate. }
    rewrite N, app_nil_r, (IH Hin). reflexivity.
Qed.

Lemma append_to_absent keys data k c :
  ~ In k keys ->
  post_url_of c = k ->
  append_to (map (fun k' => (k', comments_of k' data)) keys) k c
  = map (fun k' => (k', comments_of k' (data ++ [c]))) keys ++ [(k, [c])].
Proof.
  intros Hin Hk. induction keys as [|x keys IH]; [reflexivity|].
  cbn [map append_to app].
  assert (N : value_eqb x k = false).
  { apply value_eqb_neq. intros ->. apply Hin. left. reflexivity. }
  rewrite N, IH by (intros H; apply Hin; right; exact H).
  rewrite comments_of_snoc.
  assert (N' : value_eqb (post_url_of c) x = false).
  { apply value_eqb_neq. rewrite Hk. intros ->. apply Hin. left. reflexivity. }
  rewrite N', app_nil_r. reflexivity.
Qed.

Lemma comments_of_absent k data :
  ~ In k (map post_url_of data) -> comments_of k data = [].
Proof.
  intros H. unfold comments_of. induction data as [|c data IH]; [reflexivity|].
  simpl. destruct (value_eqb (post_url_of c) k) eqn:E.
  - apply value_eqb_eq in E. exfalso. apply H. left. exact E.
  - apply IH. intros Hin. apply H. right. exact Hin.
Qed.

(** The groups in closed form: one group for each post URL, in the order
    of first occurrence, holding the comments of that URL in their
    order. *)
Lemma posts_comments_groups data :
  posts_comments data
  = map (fun k => (k, comments_of k data)) (distinct (map post_url_of data)).
Proof.
  induction data as [|c data IH] using rev_ind; [reflexivity|].
  unfold posts_comments in *. rewrite fold_left_app. cbn [fold_left].
  rewrite IH, map_app. cbn [map]. rewrite distinct_snoc.
  unfold set_add.
  destruct (existsb (value_eqb (post_url_of c))
              (distinct (map post_url_of data))) eqn:E.
  - apply existsb_value in E.
    apply append_to_present; [apply distinct_NoDup | exact E | reflexivity].
  - assert (Hin : ~ In (post_url_of c) (distinct (map post_url_of data))).
    { intros H. apply existsb_value in H. congruence. }
    rewrite append_to_absent by (exact Hin || reflexivity).
    rewrite map_app. cbn [map]. do 2 f_equal.
    rewrite comments_of_snoc, value_eqb_refl.
    rewrite comments_of_absent; [reflexivity|].
    intros H. apply Hin. apply distinct_In. exact H.
Qed.

Lemma list_sum_cons x l : list_sum (x :: l) = x + list_sum l.
Proof. reflexivity. Qed.

Lemma count_none (keys : list value) k :
  ~ In k keys ->
  list_sum (map (fun k' => if value_eqb k k' then 1 else 0) keys) = 0.
Proof.
  induction keys as [|y keys IH]; intros H; [reflexivity|].
  cbn [map]. rewrite list_sum_cons.
  assert (N : value_eqb k y = false).
  { apply value_eqb_neq. intros ->. apply H. left. reflexivity. }
  rewrite N, IH; [reflexivity|]. intros Hin. apply H. right. exact Hin.
Qed.

Lemma count_one (keys : list value) k :
  NoDup keys -> In k keys ->
  list_sum (map (fun k' => if value_eqb k k' then 1 else 0) keys) = 1.
Proof.
  intros Hnd Hin. induction Hnd as [|x keys Hx Hnd IH]; [destruct Hin|].
  cbn [map]. rewrite list_sum_cons. destruct (value_eqb k x) eqn:E.
  - apply value_eqb_eq in E. subst x. rewrite count_none by exact Hx.
    reflexivity.
  - destruct Hin as [->|Hin]; [rewrite value_eqb_refl in E; discriminate|].
    rewrite (IH Hin). reflexivity.
Qed.

Lemma list_sum_plus (f g : value -> nat) l :
  list_sum (map (fun k => f k + g k) l)
  = list_sum (map f l) + list_sum (map g l).
Proof.
  induction l as [|x l IHl]; [reflexivity|].
  cbn [map]. rewrite !list_sum_cons, IHl. lia.
Qed.

Lemma comments_of_total (keys : list value) data :
  NoDup keys ->
  (forall c, In c data -> In (post_url_of c) keys) ->
  list_sum (map (fun k => length (comments_of k data)) keys) = length data.
Proof.
  intros Hnd Hall. induction data as [|c data IH].
  - unfold comments_of. cbn [filter length]. clear.
    induction keys as [|k keys IH]; [reflexivity|].
    cbn [map]. rewrite list_sum_cons, IH. reflexivity.
  - assert (E : forall k, length (comments_of k (c :: data))
                          = (if value_eqb (post_url_of c) k then 1 else 0)
                            + length (comments_of k data)).
    { intros k. unfold comments_of. simpl.
      destruct (value_eqb (post_url_of c) k); reflexivity. }
    rewrite (map_ext _ _ E), list_sum_plus.
    rewrite IH by (intros c' Hc'; apply Hall; right; exact Hc').
    rewrite count_one; [reflexivity | exact Hnd |].
    apply Hall. left. reflexivity.
Qed.

(** X16.  The per-post export groups the buffer by post URL: there is one
    group for each post URL, no URL twice; a group holds the comments of
    its URL, all of them and in the order of the buffer, and is never
    empty; the groups together hold as many comments as the buffer. *)
Theorem posts_comments_partition comments_data :
  NoDup (map fst (posts_comments comments_data))
  /\ (forall post_url post_comments,
        In (post_url, post_comments) (posts_comments comments_data) ->
        post_comments <> []
        /\ post_comments = comments_of post_url comments_data)
  /\ (forall comment,
        In comment comments_data ->
        In (post_url_of comment,
            comments_of (post_url_of comment) comments_data)
           (posts_comments comments_data))
  /\ list_sum (map (fun group => length (snd group))
                 (posts_comments comments_data))
     = length comments_data.
Proof.
  rewrite posts_comments_groups.
  split; [|split; [|split]].
  - rewrite map_map. cbn [fst]. rewrite map_id. apply distinct_NoDup.
  - intros k l H. apply in_map_iff in H. destruct H as (k' & [= -> <-] & Hk).
    split; [|reflexivity].
    apply distinct_In, in_map_iff in Hk. destruct Hk as (c & Hc & Hin).
    intros E.
    assert (Hf : In c (comments_of k comments_data)).
    { unfold comments_of. apply filter_In. split; [exact Hin|].
      apply value_eqb_eq. exact Hc. }
    rewrite E in Hf. destruct Hf.
  - intros c Hc. apply in_map_iff. exists (post_url_of c). split; [reflexivity|].
    apply distinct_In, in_map. exact Hc.
  - rewrite map_map. cbn [snd]. apply comments_of_total.
    + apply distinct_NoDup.
    + intros c Hc. apply distinct_In, in_map. exact Hc.
Qed.

Lemma unique_values_length key comments_data s :
  length (fold_left
            (fun s comment =>
               match get comment key with
               | Some v => set_add s v
               | None => s
               end) comments_data s)
  <= length s + length comments_data.
Proof.
  revert s; induction comments_data as [|c data IH]; intros s; simpl; [lia|].
  specialize (IH (match get c key with Some v => set_add s v | None => s end)).
  assert (L : length (match get c key with Some v => set_add s v | None => s end)
              <= S (length s)).
  { destruct (get c key); [|lia]. unfold set_add.
    destruct (existsb _ s); [lia|]. rewrite length_app. simpl. lia. }
  lia.
Qed.

Lemma unique_post_urls comments_data :
  (forall comment, In comment comments_data -> get comment "post_url" <> None) ->
  unique_values "post_url" comments_data
  = distinct (map post_url_of comments_data).
Proof.
  unfold unique_values, distinct. generalize (@nil value).
  induction comments_data as [|c data IH]; intros s H; [reflexivity|].
  cbn [fold_left map]. rewrite <- IH by (intros c' Hc'; apply H; right; exact Hc').
  unfold post_url_of.
  destruct (get c "post_url") eqn:E; [reflexivity|].
  exfalso. apply (H c (or_introl eq_refl)). exact E.
Qed.

(** X17.  The statistics count the buffer: the total is its length, the
    numbers of unique posts and unique authors lie between 0 and the
    total, and when every comment has a post URL the number of unique
    posts is the number of groups of the per-post export. *)
Theorem get_stats_counts self :
  total_comments (get_stats self) = Z.of_nat (length (comments_data self))
  /\ (0 <= unique_posts (get_stats self) <= total_comments (get_stats self))%Z
  /\ (0 <= unique_authors (get_stats self) <= total_comments (get_stats self))%Z
  /\ ((forall comment, In comment (comments_data self) ->
                       get comment "post_url" <> None) ->
      unique_posts (get_stats self)
      = Z.of_nat (length (posts_comments (comments_data self)))).
Proof.
  unfold get_stats. destruct (comments_data self) as [|c data] eqn:E.
  - cbn. repeat split; lia.
  - cbn [total_comments unique_posts unique_authors].
    pose proof (unique_values_length "post_url" (c :: data) []) as H1.
    pose proof (unique_values_length "comment_author_name" (c :: data) []) as H2.
    fold (unique_values "post_url" (c :: data)) in H1.
    fold (unique_values "comment_author_name" (c :: data)) in H2.
    cbn [length] in H1, H2 |- *.
    repeat split; try lia.
    intros H. rewrite unique_post_urls by exact H.
    rewrite posts_comments_groups, length_map. reflexivity.
Qed.

(** X18.  In the single-file export a record of the crawler keeps ten
    keys, those of the column order of the CSV export and in that order,
    each with its value; the post content, the comment identifier and the
    parent identifier are left out. *)
Theorem clean_comment_columns c :
  map fst (clean_comment (comment_dict c)) = column_order
  /\ (forall key, In key column_order ->
        get (clean_comment (comment_dict c)) key = get (comment_dict c) key)
  /\ (forall key,
        In key ["post_content"; "comment_id"; "parent_comment_id"]%string ->
        get (clean_comment (comment_dict c)) key = None).
Proof.
  unfold comment_dict, clean_comment, column_order.
  destruct (comment_id c); cbn; repeat split;
    intros key H; repeat (destruct H as [<-|H]; [reflexivity|]); destruct H.
Qed.

Lemma sanitize_filename_valid s c :
  In c (sanitize_filename s) -> str_in [c] invalid_chars = false.
Proof.
  rewrite sanitize_filename_map. intros H. apply in_map_iff in H.
  destruct H as (x & <- & _).
  destruct (str_in [x] invalid_chars) eqn:E; [reflexivity | exact E].
Qed.

Lemma extract_post_id_length post_url : length (_extract_post_id post_url) <= 50.
Proof.
  destruct post_url as [s|n]; [|simpl; lia].
  unfold _extract_post_id, slice_to. apply firstn_le_length.
Qed.

(** X19.  The name of the file of a post has none of the nine characters
    that [sanitize_filename] replaces, whatever the post URL, when the
    timestamp has none, and it is at most 65 characters longer than the
    timestamp. *)
Theorem post_filename_safe post_url timestamp :
  (forall c, In c timestamp -> str_in [c] invalid_chars = false) ->
  (forall c, In c (post_filename (_extract_post_id post_url) timestamp) ->
             str_in [c] invalid_chars = false)
  /\ length (post_filename (_extract_post_id post_url) timestamp)
     <= length timestamp + 65.
Proof.
  intros Ht. unfold post_filename. split.
  - intros c H. rewrite !in_app_iff in H.
    destruct H as [H|[H|[H|[H|H]]]].
    + simpl in H. repeat (destruct H as [<-|H]; [reflexivity|]). destruct H.
    + apply (sanitize_filename_valid _ _ H).
    + simpl in H. repeat (destruct H as [<-|H]; [reflexivity|]). destruct H.
    + apply Ht. exact H.
    + simpl in H. repeat (destruct H as [<-|H]; [reflexivity|]). destruct H.
  - rewrite !length_app, sanitize_filename_map, length_map.
    pose proof (extract_post_id_length post_url). simpl. lia.
Qed.

Lemma post_filename_safe_witness :
  post_filename
    (_extract_post_id (VStr (py "https://www.facebook.com/u/posts/pfbid0a?x=1")))
    (py "20240101_120000")
  = py "comments_pfbid0a_20240101_120000.json"
  /\ forall c, In c (py "comments_pfbid0a_20240101_120000.json") ->
               str_in [c] invalid_chars = false.
Proof.
  split; [reflexivity|].
  apply (post_filename_safe
           (VStr (py "https://www.facebook.com/u/posts/pfbid0a?x=1"))
           (py "20240101_120000")).
  intros c H. simpl in H.
  repeat (destruct H as [<-|H]; [reflexivity|]). destruct H.
Defined.

Lemma export_posts_length F self groups exported_files d :
  (forall d, fst (mkdir_json F d) = Ok tt) ->
  (forall filename export_data pretty d,
      fst (dump_json F filename export_data pretty d) = Ok tt) ->
  exists paths,
    fst (export_posts F self groups exported_files d) = Ok paths
    /\ length paths = length exported_files + length groups.
Proof.
  intros Hm Hd. revert exported_files d.
  induction groups as [|[k l] groups IH]; intros exported_files d;
    cbn [export_posts].
  - exists exported_files. split; [reflexivity | simpl; lia].
  - specialize (Hm d). destruct (mkdir_json F d) as [r d1].
    cbn [fst] in Hm. subst r.
    match goal with
    | |- context [dump_json F ?n ?x ?p d1] =>
        pose proof (Hd n x p d1) as Hw; destruct (dump_json F n x p d1) as [r d2]
    end.
    cbn [fst] in Hw. subst r.
    destruct (IH (exported_files ++ [json_path F (post_filename (_extract_post_id k) (get_timestamp_string F d))]) d2)
      as (paths & E & L).
    exists paths. split; [exact E|]. rewrite L, length_app. simpl. lia.
Qed.

(** X20.  [export] writes nothing and returns no path when the buffer is
    empty.  When creating the directory and writing succeed it returns
    the paths of the files written: one in the single mode, one for each
    post URL of the buffer in the other mode. *)
Theorem export_files F self username d :
  (forall d, fst (mkdir_json F d) = Ok tt) ->
  (forall filename export_data pretty d,
      fst (dump_json F filename export_data pretty d) = Ok tt) ->
  (comments_data self = [] -> export F self username d = (Ok [], d))
  /\ exists paths,
       fst (export F self username d) = Ok paths
       /\ length paths
          = match comments_data self with
            | [] => 0
            | _ :: _ =>
                if str_eqb (export_mode self) (py "single") then 1
                else length (distinct (map post_url_of (comments_data self)))
            end.
Proof.
  intros Hm Hd. unfold export. split; [intros ->; reflexivity|].
  destruct (comments_data self) as [|c data] eqn:E.
  - exists []. split; reflexivity.
  - destruct (str_eqb (export_mode self) (py "single")).
    + unfold _export_single_file. specialize (Hm d).
      destruct (mkdir_json F d) as [r d1]. cbn [fst] in Hm. subst r.
      match goal with
      | |- context [dump_json F ?n ?x ?p d1] =>
          pose proof (Hd n x p d1) as Hw; destruct (dump_json F n x p d1) as [r d2]
      end.
      cbn [fst] in Hw. subst r. eexists. split; reflexivity.
    + unfold _export_per_post. rewrite E.
      destruct (export_posts_length F self (posts_comments (c :: data)) [] d Hm Hd)
        as (paths & Ep & L).
      exists paths. split; [exact Ep|].
      rewrite L, posts_comments_groups, length_map. reflexivity.
Qed.

Lemma export_files_witness :
  exists paths,
    fst (export MemoryDisk.disk
           (add_comments (init (py "single") (py "per-post") true)
              [[("post_url"%string, VStr (py "https://www.facebook.com/a/posts/1"))];
               [("post_url"%string, VStr (py "https://www.facebook.com/a/posts/2"))];
               [("post_url"%string, VStr (py "https://www.facebook.com/a/posts/1"))]])
           None []) = Ok paths
    /\ length paths = 2.
Proof.
  destruct (export_files MemoryDisk.disk
              (add_comments (init (py "single") (py "per-post") true)
                 [[("post_url"%string, VStr (py "https://www.facebook.com/a/posts/1"))];
                  [("post_url"%string, VStr (py "https://www.facebook.com/a/posts/2"))];
                  [("post_url"%string, VStr (py "https://www.facebook.com/a/posts/1"))]])
              None [])
    as (_ & paths & E & L); [reflexivity | reflexivity |].
  exists paths. split; [exact E | exact L].
Defined.

(** ** profile_crawler.py *)

Lemma contains_without_char s sep c :
  In c sep -> ~ In c s -> contains s sep = false.
Proof.
  intros Hsep Hs. apply contains_false_infix. intros (a & b & ->).
  apply Hs. apply in_or_app. right. apply in_or_app. left. exact Hsep.
Qed.

Lemma startswith_slash_app path rest :
  startswith (path ++ 63%N :: rest) (py "/") = startswith path (py "/").
Proof.
  change (py "/") with [47%N]. unfold startswith.
  destruct path as [|x path]; cbn [app strip_prefix]; [reflexivity|].
  destruct (N.eqb 47 x); reflexivity.
Qed.

(** X21.  The post URL kept for a link has no [?]: what follows the
    first [?] of the link is dropped, also for the links that are taken
    for their [story.php?], [permalink.php?] or [photo.php?], and a link
    without [?] is kept whole; in both cases a link that starts with [/]
    is put after [https://www.facebook.com] and any other link is left
    without prefix.  An empty link, a link that is no post URL, a link
    without address and a link whose read raises give no URL. *)
Theorem post_url_of_link_drops_query :
  (forall href url,
      post_url_of_link href = Some url -> contains url (py "?") = false)
  /\ (forall path query,
        contains path (py "?") = false ->
        _is_valid_post_url (path ++ py "?" ++ query) = true ->
        post_url_of_link (Ok (Some (path ++ py "?" ++ query)))
        = Some ((if startswith path (py "/")
                 then py "https://www.facebook.com" else []) ++ path))
  /\ (forall href,
        href <> [] ->
        contains href (py "?") = false ->
        _is_valid_post_url href = true ->
        post_url_of_link (Ok (Some href))
        = Some ((if startswith href (py "/")
                 then py "https://www.facebook.com" else []) ++ href))
  /\ (forall href,
        href = [] \/ _is_valid_post_url href = false ->
        post_url_of_link (Ok (Some href)) = None)
  /\ (forall e, post_url_of_link (Raise e) = None)
  /\ post_url_of_link (Ok None) = None.
Proof.
  assert (Prefix : ~ In 63%N (py "https://www.facebook.com")).
  { vm_compute. intuition discriminate. }
  split; [|split; [|split; [|split; [|split; [reflexivity | reflexivity]]]]].
  - intros [[href|]|e] url; cbn [post_url_of_link]; try discriminate.
    destruct (truthy href && _is_valid_post_url href); [|discriminate].
    intros [= <-]. change (py "?") with [63%N].
    apply contains_char. rewrite first_part_split_char. apply takeWhile_not_in.
  - intros path query Hp Hv. cbn [post_url_of_link]. rewrite Hv.
    change (py "?") with [63%N] in *. apply contains_char in Hp.
    change ([63%N] ++ query) with (63%N :: query).
    rewrite startswith_slash_app.
    assert (T : truthy (path ++ 63%N :: query) = true) by (destruct path; reflexivity).
    rewrite T. cbn [andb]. rewrite first_part_split_char. f_equal.
    destruct (startswith path (py "/")).
    + rewrite app_assoc. apply takeWhile_until.
      intros H. apply in_app_or in H. destruct H as [H|H]; [|exact (Hp H)].
      exact (Prefix H).
    + apply takeWhile_until. exact Hp.
  - intros href Hne Hp Hv. cbn [post_url_of_link]. rewrite Hv.
    change (py "?") with [63%N] in *. apply contains_char in Hp.
    assert (T : truthy href = true) by (destruct href; [congruence | reflexivity]).
    rewrite T. cbn [andb]. rewrite first_part_split_char. f_equal.
    destruct (startswith href (py "/")); apply takeWhile_all; [|exact Hp].
    intros H. apply in_app_or in H. destruct H as [H|H]; [|exact (Hp H)].
    exact (Prefix H).
  - intros href [-> | Hv]; cbn [post_url_of_link]; [reflexivity|].
    rewrite Hv, andb_false_r. reflexivity.
Qed.

Example relative_link_gets_host :
  post_url_of_link (Ok (Some (py "/somepage/posts/123")))
  = Some (py "https://www.facebook.com/somepage/posts/123")
  /\ post_url_of_link (Ok (Some (py "/story.php?story_fbid=1&id=2")))
     = Some (py "https://www.facebook.com/story.php")
  /\ post_url_of_link
       (Ok (Some (py "https://www.facebook.com/somepage/posts/123")))
     = Some (py "https://www.facebook.com/somepage/posts/123").
Proof. repeat split; vm_compute; reflexivity. Qed.

(** X22.  For a user name that is no URL and has no [/] and no [?], the
    profile URL is [https://www.facebook.com/] followed by the name, and
    giving that URL as the user name gives the same URL again.  A URL
    from which no user name can be taken gives the profile URL that ends
    with [None]. *)
Theorem profile_url_fixed_point :
  (forall username,
      username <> [] ->
      contains username (py "/") = false ->
      contains username (py "?") = false ->
      startswith username (py "http") = false ->
      profile_url username = py "https://www.facebook.com/" ++ username
      /\ profile_url (profile_url username) = profile_url username)
  /\ (forall url,
        startswith url (py "http") = true ->
        extract_username_from_url url = None ->
        profile_url url = py "https://www.facebook.com/None").
Proof.
  split.
  - intros username Hne Hs Hq Hh.
    assert (E : profile_url username = py "https://www.facebook.com/" ++ username).
    { unfold profile_url. rewrite Hh. reflexivity. }
    split; [exact E|]. rewrite E. unfold profile_url at 1.
    change (startswith (py "https://www.facebook.com/" ++ username) (py "http"))
      with true. cbv iota.
    destruct (username_after_host (py "https://www.") username Hs Hq)
      as [Hparts Hname].
    change (py "https://www." ++ py "facebook.com/" ++ username)
      with (py "https://www.facebook.com/" ++ username) in Hparts, Hname.
    assert (Hstrip : rstrip_chars (py "/") (py "https://www.facebook.com/" ++ username)
                     = py "https://www.facebook.com/" ++ username).
    { pose proof (rstrip_chars_slashes
                    (py "https://www.facebook.com/" ++ username) 0) as R.
      cbn [repeat] in R. rewrite app_nil_r in R. apply R; [|discriminate].
      rewrite last_app_ne by exact Hne. apply last_not_in; [exact Hne|].
      change (py "/") with [47%N] in Hs. apply contains_char. exact Hs. }
    assert (Hid : contains (py "https://www.facebook.com/" ++ username)
                    (py "profile.php?id=") = false).
    { apply (contains_without_char _ _ 63%N).
      - vm_compute. tauto.
      - change (py "?") with [63%N] in Hq. apply contains_char in Hq.
        intros H. apply in_app_or in H. destruct H as [H|H]; [|exact (Hq H)].
        revert H. vm_compute. intuition discriminate. }
    unfold extract_username_from_url.
    rewrite Hstrip, Hid, Hparts, Hname. reflexivity.
  - intros url Hh Hn. unfold profile_url. rewrite Hh, Hn. reflexivity.
Qed.

(** ** main.py *)

Lemma dropWhile_snoc (p : char -> bool) l x :
  p x = false -> dropWhile p (l ++ [x]) = dropWhile p l ++ [x].
Proof.
  intros H. induction l as [|y l IH]; simpl; [rewrite H; reflexivity|].
  destruct (p y); [exact IH | reflexivity].
Qed.

Lemma rstrip_cons x r : isspace x = false -> rstrip (x :: r) = x :: rstrip r.
Proof.
  intros H. unfold rstrip. cbn [rev].
  rewrite dropWhile_snoc by exact H. rewrite rev_app_distr. reflexivity.
Qed.

Lemma strip_cases s :
  strip s = [] \/ exists x t, strip s = x :: t /\ isspace x = false.
Proof.
  unfold strip, lstrip.
  destruct (dropWhile_head isspace s) as [-> | (x & r & -> & Hx)].
  - left. reflexivity.
  - right. exists x, (rstrip r). split; [apply rstrip_cons|]; exact Hx.
Qed.

Lemma rstrip_cases s :
  rstrip s = [] \/ exists t z, rstrip s = t ++ [z] /\ isspace z = false.
Proof.
  unfold rstrip.
  destruct (dropWhile_head isspace (rev s)) as [-> | (z & r & -> & Hz)].
  - left. reflexivity.
  - right. exists (rev r), z. split; [reflexivity | exact Hz].
Qed.

Lemma strip_strip s : strip (strip s) = strip s.
Proof.
  destruct (strip_cases s) as [-> | (x & t & E & Hx)]; [reflexivity|].
  rewrite E. unfold strip at 1. rewrite lstrip_noop by exact Hx.
  rewrite <- E. unfold strip.
  destruct (rstrip_cases (lstrip s)) as [-> | (t' & z & -> & Hz)];
    [reflexivity|].
  apply rstrip_noop. exact Hz.
Qed.

Lemma strip_leading ws s :
  Forall (fun c => isspace c = true) ws -> strip (ws ++ s) = strip s.
Proof.
  intros H. unfold strip, lstrip. f_equal.
  induction H as [|c ws Hc _ IH]; [reflexivity|].
  simpl. rewrite Hc. exact IH.
Qed.

Lemma read_urls_from_file_In lines url :
  In url (read_urls_from_file (Ok lines))
  <-> exists line,
        In line lines /\ url = strip line /\ strip line <> []
        /\ startswith line (py "#") = false.
Proof.
  unfold read_urls_from_file. rewrite in_map_iff. split.
  - intros (line & <- & H). apply filter_In in H. destruct H as [Hin H].
    apply andb_true_iff in H. destruct H as [Ht Hs].
    exists line. repeat split; try assumption.
    + intros E. rewrite E in Ht. discriminate.
    + destruct (startswith line (py "#")); [discriminate | reflexivity].
  - intros (line & Hin & -> & Hne & Hs). exists line. split; [reflexivity|].
    apply filter_In. split; [exact Hin|]. rewrite Hs.
    destruct (strip line); [congruence | reflexivity].
Qed.

(** X23.  [read_urls_from_file] gives, in the order of the file, the
    lines that are not blank and do not start with [#], each without the
    whitespace at its ends: every entry is non-empty and has no
    whitespace at either end.  A file that cannot be read gives the
    empty list.  A [#] that follows leading whitespace does not make a
    comment: the line is returned, starting with [#]. *)
Theorem read_urls_from_file_entries :
  (forall e, read_urls_from_file (Raise e) = [])
  /\ (forall lines url,
        In url (read_urls_from_file (Ok lines))
        <-> exists line,
              In line lines /\ url = strip line /\ strip line <> []
              /\ startswith line (py "#") = false)
  /\ (forall lines url,
        In url (read_urls_from_file (Ok lines)) ->
        url <> [] /\ strip url = url)
  /\ (forall lines ws rest,
        In (ws ++ py "#" ++ rest) lines ->
        ws <> [] -> Forall (fun c => isspace c = true) ws ->
        exists url,
          In url (read_urls_from_file (Ok lines))
          /\ startswith url (py "#") = true).
Proof.
  split; [reflexivity|]. split; [apply read_urls_from_file_In|]. split.
  - intros lines url H. apply read_urls_from_file_In in H.
    destruct H as (line & _ & -> & Hne & _).
    split; [exact Hne | apply strip_strip].
  - intros lines ws rest Hin Hne Hws.
    assert (E : strip (ws ++ py "#" ++ rest) = 35%N :: rstrip rest).
    { rewrite strip_leading by exact Hws. unfold strip, lstrip.
      change (py "#" ++ rest) with (35%N :: rest). cbn [dropWhile].
      change (isspace 35%N) with false. cbv iota.
      apply rstrip_cons. reflexivity. }
    exists (35%N :: rstrip rest). split; [|reflexivity].
    apply read_urls_from_file_In. exists (ws ++ py "#" ++ rest).
    split; [exact Hin|]. split; [symmetry; exact E|].
    split; [rewrite E; discriminate|].
    destruct ws as [|x ws]; [congruence|].
    inversion Hws as [|? ? Hx _]; subst.
    unfold startswith. change (py "#") with [35%N]. cbn [app strip_prefix].
    destruct (N.eqb_spec 35 x) as [<-|]; [discriminate Hx | reflexivity].
Qed.
